(** * Hybrid FAQ retrieval and routing: a shallow embedding

    The development follows the three services of the backend,
    [variant_service.py], [retrieval_service.py] and [qa_service.py],
    together with the response schema of [schemas.py].  Around them it
    covers the key check of [auth.py], the routes of [routes/faq.py], the
    database manager of [core/database.py], the validation of
    [core/config.py] with the start of [main.py], and the seeding scripts
    [db_init/scripts/llm.py] and [db_init/scripts/seed_database.py].

    Conventions of the embedding.
    - Python [float]s that the code only stores, compares and subtracts
      (similarities, confidences, clock readings) are finite values and are
      represented by the rationals they denote ([Q]); the code never inspects
      their bits.
    - Python [int]s are [Z]; [str] is [string], with the character classes
      of Python on the ASCII range.
    - Every call that leaves the process (the chat model chains, the
      embedding endpoint, the database, the clock) is an oracle of a
      [World]; its outcome may depend on everything that happened before,
      which is recorded in a [trace].  Code runs in the monad [M]: it reads
      and extends the trace and either returns a value or raises. *)

From Stdlib Require Import List String Ascii ZArith QArith Qround Lia Bool.
From Stdlib Require Import Sorted Permutation DecimalString.
Import ListNotations.
Set Warnings "-register-all".
Local Open Scope string_scope.
Local Open Scope Z_scope.
Local Open Scope list_scope.

(* ------------------------------------------------------------------ *)
(** ** Python runtime: exceptions, strings, slices *)

Module Py.

(** Instances of [Exception] that occur in the services.  [ExternalError]
    stands for whatever a client library raises (time-outs, HTTP and SQL
    errors). *)
Inductive exn : Type :=
| JSONDecodeError
| TypeError
| KeyError
| ValidationError
| ExternalError (msg : string).

Definition result (A : Type) : Type := (exn + A)%type.

(** [str.isspace] on the ASCII range; it also decides the class [\s]. *)
Definition isspace (c : ascii) : bool :=
  let n := nat_of_ascii c in
  (((9 <=? n) && (n <=? 13)) || ((28 <=? n) && (n <=? 32)))%nat.

Definition lower_char (c : ascii) : ascii :=
  let n := nat_of_ascii c in
  if ((65 <=? n) && (n <=? 90))%nat then ascii_of_nat (n + 32) else c.

(** [s.lower()] *)
Fixpoint lower (s : string) : string :=
  match s with
  | EmptyString => EmptyString
  | String c r => String (lower_char c) (lower r)
  end.

Fixpoint lstrip_by (p : ascii -> bool) (s : string) : string :=
  match s with
  | EmptyString => EmptyString
  | String c r => if p c then lstrip_by p r else s
  end.

Fixpoint rev_string (s acc : string) : string :=
  match s with
  | EmptyString => acc
  | String c r => rev_string r (String c acc)
  end.

Definition rstrip_by (p : ascii -> bool) (s : string) : string :=
  rev_string (lstrip_by p (rev_string s EmptyString)) EmptyString.

Definition strip_by (p : ascii -> bool) (s : string) : string :=
  rstrip_by p (lstrip_by p s).

(** [s.strip()] *)
Definition strip (s : string) : string := strip_by isspace s.

Definition is_quote (c : ascii) : bool :=
  (Ascii.eqb c (ascii_of_nat 34) || Ascii.eqb c (ascii_of_nat 39))%bool.

(** [s.strip(q)] where [q] holds the double and the single quote. *)
Definition strip_quotes (s : string) : string := strip_by is_quote s.

(** [re.sub] of the pattern [\s+] by one blank: every maximal run of
    white space becomes a single blank. *)
Fixpoint collapse_from (in_run : bool) (s : string) : string :=
  match s with
  | EmptyString => EmptyString
  | String c r =>
      if isspace c
      then (if in_run then collapse_from true r
            else String " " (collapse_from true r))
      else String c (collapse_from false r)
  end.

Definition collapse_ws (s : string) : string := collapse_from false s.

(** [sub in s] *)
Fixpoint contains (sub s : string) : bool :=
  (String.prefix sub s ||
   match s with
   | EmptyString => false
   | String _ r => contains sub r
   end)%bool.

(** [l[:k]]: a negative bound counts from the end. *)
Definition slice_to {A : Type} (l : list A) (k : Z) : list A :=
  if 0 <=? k then firstn (Z.to_nat k) l
  else firstn (Z.to_nat (Z.of_nat (List.length l) + k)) l.

(** [a > b] and [a >= b] on floats. *)
Definition gt (a b : Q) : bool := negb (Qle_bool a b).
Definition ge (a b : Q) : bool := Qle_bool b a.

(** [max(a, b)] and [min(a, b)] return the first argument on a tie. *)
Definition max (a b : Q) : Q := if gt b a then b else a.
Definition min (a b : Q) : Q := if gt a b then b else a.

(** [round(x, 2)], to the nearest hundredth, ties to even. *)
Definition round_half_even (x : Q) : Z :=
  let f := Qfloor x in
  let d := (x - inject_Z f)%Q in
  if gt (1 # 2) d then f
  else if gt d (1 # 2) then f + 1
  else if Z.even f then f else f + 1.

Definition round2 (x : Q) : Q :=
  Qmake (round_half_even (x * 100)%Q) 100.

(** [str(n)] for a non-negative counter. *)
Definition str_of_nat (n : nat) : string :=
  NilEmpty.string_of_uint (Nat.to_uint n).

End Py.

Import Py (exn, result).

(* ------------------------------------------------------------------ *)
(** ** The outside world and the monad of the services *)

(** An embedding vector ([List[float]], [np.ndarray]). *)
Definition vector : Type := list Q.

(** Rows of the two [SELECT] statements of the retrieval service.  The
    similarity column is [None] where SQL yields [NULL] (the embedding
    columns of both tables are nullable). *)
Definition faq_row : Type := (Z * string * string * option Q)%type.
Definition variant_row : Type := (Z * string * string * string * option Q)%type.

(** One entry per call that leaves the process. *)
Inductive event : Type :=
| ev_time
| ev_router (question : string)
| ev_variant_chain (text : string) (n : Z) (temperature : Q)
| ev_embed (text : string)
| ev_query_faqs (embedding : vector) (top_k : Z)
| ev_query_variants (embedding : vector) (top_k : Z)
| ev_rag_chain (context question : string)
| ev_general_chain (question : string).

Definition trace : Type := list event.

(** The collaborators of the services.  Each oracle receives the trace of
    the calls made so far, so that two calls with the same arguments may
    differ (a model that answers differently, a store that fails once). *)
Record World : Type := {
  time_time : trace -> Q;
  llm_router_invoke : trace -> string -> result string;
  chain_invoke : trace -> string -> Z -> Q -> result string;
  embeddings_create : trace -> string -> result vector;
  query_faqs : trace -> vector -> Z -> result (list faq_row);
  query_variants : trace -> vector -> Z -> result (list variant_row);
  rag_chain_invoke : trace -> string -> string -> result string;
  general_chain_invoke : trace -> string -> result string
}.

Module Run.

(** A computation reads the trace, extends it, and returns or raises. *)
Definition M (A : Type) : Type := trace -> result A * trace.

Definition ret {A : Type} (a : A) : M A := fun t => (inr a, t).

Definition raise {A : Type} (e : exn) : M A := fun t => (inl e, t).

Definition bind {A B : Type} (m : M A) (k : A -> M B) : M B :=
  fun t =>
    match m t with
    | (inl e, t') => (inl e, t')
    | (inr a, t') => k a t'
    end.

(** [try: body / except Exception as e: handler] *)
Definition try_except {A : Type} (body : M A) (handler : exn -> M A) : M A :=
  fun t =>
    match body t with
    | (inl e, t') => handler e t'
    | (inr a, t') => (inr a, t')
    end.

(** A pure step that may raise. *)
Definition lift {A : Type} (r : result A) : M A := fun t => (r, t).

(** A call to a collaborator: the oracle sees the history, the call is
    recorded. *)
Definition call {A : Type} (ev : event) (oracle : trace -> result A) : M A :=
  fun t => (oracle t, t ++ [ev]).

(** [time.time()] *)
Definition now (w : World) : M Q :=
  fun t => (inr (time_time w t), t ++ [ev_time]).

End Run.

Import Run.

Declare Scope run_scope.
Delimit Scope run_scope with run.
Notation "x <- m ;; k" := (bind m (fun x => k))
  (at level 61, m at next level, right associativity) : run_scope.
Notation "' pat <- m ;; k" := (bind m (fun x => match x with pat => k end))
  (at level 61, pat pattern, m at next level, right associativity) : run_scope.
Local Open Scope run_scope.

(* ------------------------------------------------------------------ *)
(** ** retrieval_service.py *)

(** The dictionaries built by the two sub-searches. *)
Module Match.
Record t : Type := mk {
  faq_id : Z;
  question : string;
  answer : string;
  similarity : Q;
  source : string;
  matched_text : option string
}.
End Match.

Module Retrieval.

(** [float(row[3])] raises [TypeError] on [None]. *)
Definition py_float (x : option Q) : result Q :=
  match x with
  | Some q => inr q
  | None => inl Py.TypeError
  end.

Definition faq_match (row : faq_row) : result Match.t :=
  let '(id, q, a, sim) := row in
  match py_float sim with
  | inl e => inl e
  | inr s => inr (Match.mk id q a s "faq" None)
  end.

Definition variant_match (row : variant_row) : result Match.t :=
  let '(id, q, a, v, sim) := row in
  match py_float sim with
  | inl e => inl e
  | inr s => inr (Match.mk id q a s "variant" (Some v))
  end.

(** [for row in results: matches.append(...)] *)
Fixpoint append_rows {R : Type} (conv : R -> result Match.t)
    (results : list R) (matches : list Match.t) : result (list Match.t) :=
  match results with
  | [] => inr matches
  | row :: rest =>
      match conv row with
      | inl e => inl e
      | inr m => append_rows conv rest (matches ++ [m])
      end
  end.

Definition _search_faqs_table (w : World) (embedding : vector) (top_k : Z)
  : M (list Match.t) :=
  try_except
    (results <- call (ev_query_faqs embedding top_k)
                     (fun t => query_faqs w t embedding top_k) ;;
     lift (append_rows faq_match results []))
    (fun _ => ret []).

Definition _search_variants_table (w : World) (embedding : vector) (top_k : Z)
  : M (list Match.t) :=
  try_except
    (results <- call (ev_query_variants embedding top_k)
                     (fun t => query_variants w t embedding top_k) ;;
     lift (append_rows variant_match results []))
    (fun _ => ret []).

(** [faq_map]: a [dict] keeps its keys in the order of first insertion;
    assigning to a present key replaces the value in place. *)
Definition faq_dict : Type := list (Z * Match.t).

Fixpoint dict_get (d : faq_dict) (k : Z) : option Match.t :=
  match d with
  | [] => None
  | (k', v) :: r => if k =? k' then Some v else dict_get r k
  end.

Fixpoint dict_set (d : faq_dict) (k : Z) (v : Match.t) : faq_dict :=
  match d with
  | [] => [(k, v)]
  | (k', v') :: r =>
      if k =? k' then (k, v) :: r else (k', v') :: dict_set r k v
  end.

Definition dict_values (d : faq_dict) : list Match.t := map snd d.

(** The body of the loop of [_deduplicate_matches]. *)
Definition dedup_step (faq_map : faq_dict) (m : Match.t) : faq_dict :=
  let faq_id := Match.faq_id m in
  match dict_get faq_map faq_id with
  | None => dict_set faq_map faq_id m
  | Some old =>
      if Py.gt (Match.similarity m) (Match.similarity old)
      then dict_set faq_map faq_id m
      else faq_map
  end.

Definition _deduplicate_matches (matches : list Match.t) : list Match.t :=
  dict_values (fold_left dedup_step matches []).

(** [l.sort(key=similarity, reverse=True)].  The sort of Python is
    stable, also under [reverse]; a stable sort is determined by its
    input, so insertion from the right computes the same list. *)
Fixpoint insert_desc (x : Match.t) (l : list Match.t) : list Match.t :=
  match l with
  | [] => [x]
  | y :: r =>
      if Py.gt (Match.similarity y) (Match.similarity x)
      then y :: insert_desc x r
      else x :: y :: r
  end.

Fixpoint sort_desc (l : list Match.t) : list Match.t :=
  match l with
  | [] => []
  | x :: r => insert_desc x (sort_desc r)
  end.

(** The loop of [search_similar_faqs] over the query embeddings. *)
Fixpoint collect_matches (w : World) (query_embeddings : list vector)
    (top_k : Z) (all_matches : list Match.t) : M (list Match.t) :=
  match query_embeddings with
  | [] => ret all_matches
  | embedding :: rest =>
      faq_matches <- _search_faqs_table w embedding top_k ;;
      variant_matches <- _search_variants_table w embedding top_k ;;
      collect_matches w rest top_k
        ((all_matches ++ faq_matches) ++ variant_matches)
  end.

Definition search_similar_faqs (w : World) (query_embeddings : list vector)
    (top_k : Z) : M (list Match.t) :=
  all_matches <- collect_matches w query_embeddings top_k [] ;;
  ret (Py.slice_to (sort_desc (_deduplicate_matches all_matches)) top_k).

(** [EmbeddingService.generate_embedding] logs and re-raises; the
    conversion to an array keeps the components. *)
Definition generate_embedding (w : World) (text : string) : M vector :=
  call (ev_embed text) (fun t => embeddings_create w t text).

Definition embedding_to_vector (embedding : vector) : vector := embedding.

Fixpoint embed_all (w : World) (all_queries : list string)
    (embeddings : list vector) : M (list vector) :=
  match all_queries with
  | [] => ret embeddings
  | query :: rest =>
      embedding <- generate_embedding w query ;;
      embed_all w rest (embeddings ++ [embedding_to_vector embedding])
  end.

Definition search_with_metadata (w : World) (user_query : string)
    (query_variants : list string) (top_k : Z)
  : M (list Match.t * list vector) :=
  embeddings <- embed_all w (user_query :: query_variants) [] ;;
  matches <- search_similar_faqs w embeddings top_k ;;
  ret (matches, embeddings).



End Retrieval.

(* ------------------------------------------------------------------ *)
(** ** The [json] module, as far as [json.loads] and [str] are used *)

Module Json.

(** The Python values that [json.loads] builds.  A float is kept by the
    text of its literal, which stands for the text [str] prints. *)
Inductive value : Type :=
| Null
| Bool (b : bool)
| Int (z : Z)
| Float (literal : string)
| Str (s : string)
| Arr (items : list value)
| Obj (members : list (string * value)).

Definition chr (n : nat) : ascii := ascii_of_nat n.

Definition is_ws (c : ascii) : bool :=
  (Ascii.eqb c " " || Ascii.eqb c (chr 9) || Ascii.eqb c (chr 10)
   || Ascii.eqb c (chr 13))%bool.

Definition skip_ws (s : string) : string := Py.lstrip_by is_ws s.

Definition is_digit (c : ascii) : bool :=
  let n := nat_of_ascii c in ((48 <=? n) && (n <=? 57))%nat.

Fixpoint digits (s : string) : string * string :=
  match s with
  | EmptyString => (EmptyString, EmptyString)
  | String c r =>
      if is_digit c
      then let '(d, rest) := digits r in (String c d, rest)
      else (EmptyString, s)
  end.

Fixpoint nat_of_digits (s : string) (acc : nat) : nat :=
  match s with
  | EmptyString => acc
  | String c r => nat_of_digits r (10 * acc + (nat_of_ascii c - 48))%nat
  end.

Definition hex_digit (c : ascii) : option nat :=
  let n := nat_of_ascii c in
  if ((48 <=? n) && (n <=? 57))%nat then Some (n - 48)%nat
  else if ((65 <=? n) && (n <=? 70))%nat then Some (n - 55)%nat
  else if ((97 <=? n) && (n <=? 102))%nat then Some (n - 87)%nat
  else None.

(** The bytes of a code point of the basic plane. *)
Definition utf8 (n : nat) (rest : string) : string :=
  if (n <? 128)%nat then String (chr n) rest
  else if (n <? 2048)%nat
  then String (chr (192 + n / 64)) (String (chr (128 + n mod 64)) rest)
  else String (chr (224 + n / 4096))
         (String (chr (128 + (n / 64) mod 64))
            (String (chr (128 + n mod 64)) rest)).

Definition unescape (c : ascii) : option ascii :=
  if Ascii.eqb c (chr 34) then Some (chr 34)
  else if Ascii.eqb c (chr 92) then Some (chr 92)
  else if Ascii.eqb c "/" then Some "/"%char
  else if Ascii.eqb c "b" then Some (chr 8)
  else if Ascii.eqb c "f" then Some (chr 12)
  else if Ascii.eqb c "n" then Some (chr 10)
  else if Ascii.eqb c "r" then Some (chr 13)
  else if Ascii.eqb c "t" then Some (chr 9)
  else None.

Definition hex4 (a b c d : ascii) : option nat :=
  match hex_digit a, hex_digit b, hex_digit c, hex_digit d with
  | Some x, Some y, Some z, Some u =>
      Some (((x * 16 + y) * 16 + z) * 16 + u)%nat
  | _, _, _, _ => None
  end.

Definition cons_char (c : ascii) (r : option (string * string))
  : option (string * string) :=
  match r with
  | Some (body, rest) => Some (String c body, rest)
  | None => None
  end.

(** The text of a string literal after its opening quote, and what
    follows the closing quote. *)
Fixpoint string_body (s : string) : option (string * string) :=
  match s with
  | EmptyString => None
  | String c r =>
      if Ascii.eqb c (chr 34) then Some (EmptyString, r)
      else if Ascii.eqb c (chr 92) then
        match r with
        | EmptyString => None
        | String e r1 =>
            match unescape e with
            | Some x => cons_char x (string_body r1)
            | None =>
                if Ascii.eqb e "u" then
                  match r1 with
                  | String h1 (String h2 (String h3 (String h4 r2))) =>
                      match hex4 h1 h2 h3 h4, string_body r2 with
                      | Some n, Some (body, rest) => Some (utf8 n body, rest)
                      | _, _ => None
                      end
                  | _ => None
                  end
                else None
            end
        end
      else if (nat_of_ascii c <? 32)%nat then None
      else cons_char c (string_body r)
  end.

(** A number literal: an optional minus sign, then [0] or a digit run
    without leading zero, then optionally a point with digits, then
    optionally an exponent with an optional sign. *)
Definition int_part (s : string) : option (string * string) :=
  match s with
  | String c r =>
      if Ascii.eqb c "0" then Some ("0", r)
      else if is_digit c
      then let '(d, rest) := digits r in Some (String c d, rest)
      else None
  | EmptyString => None
  end.

Definition frac_part (s : string) : string * string :=
  match s with
  | String c r =>
      if Ascii.eqb c "." then
        match digits r with
        | (EmptyString, _) => (EmptyString, s)
        | (d, rest) => (String c d, rest)
        end
      else (EmptyString, s)
  | EmptyString => (EmptyString, s)
  end.

Definition exp_part (s : string) : string * string :=
  match s with
  | String c r =>
      if (Ascii.eqb c "e" || Ascii.eqb c "E")%bool then
        let '(sign, r1) :=
          match r with
          | String g r' =>
              if (Ascii.eqb g "+" || Ascii.eqb g "-")%bool
              then (String g EmptyString, r') else (EmptyString, r)
          | EmptyString => (EmptyString, r)
          end in
        match digits r1 with
        | (EmptyString, _) => (EmptyString, s)
        | (d, rest) => (String c (sign ++ d)%string, rest)
        end
      else (EmptyString, s)
  | EmptyString => (EmptyString, s)
  end.

Definition number (s : string) : option (value * string) :=
  let '(neg, s1) :=
    match s with
    | String c r => if Ascii.eqb c "-" then (true, r) else (false, s)
    | EmptyString => (false, s)
    end in
  match int_part s1 with
  | None => None
  | Some (i, r1) =>
      let '(f, r2) := frac_part r1 in
      let '(e, r3) := exp_part r2 in
      match f, e with
      | EmptyString, EmptyString =>
          let n := Z.of_nat (nat_of_digits i 0) in
          Some (Int (if neg then - n else n), r3)
      | _, _ =>
          Some (Float ((if neg then "-" else "") ++ i ++ f ++ e)%string, r3)
      end
  end.

Definition keyword (k : string) (v : value) (s : string)
  : option (value * string) :=
  if String.prefix k s
  then Some (v, String.substring (String.length k)
                  (String.length s - String.length k) s)
  else None.

Definition first_of {A : Type} (a b : option A) : option A :=
  match a with Some _ => a | None => b end.

Definition scalar (s : string) : option (value * string) :=
  first_of (keyword "null" Null s)
 (first_of (keyword "true" (Bool true) s)
 (first_of (keyword "false" (Bool false) s)
 (first_of (number s)
 (first_of (keyword "NaN" (Float "nan") s)
 (first_of (keyword "Infinity" (Float "inf") s)
           (keyword "-Infinity" (Float "-inf") s)))))).

(** [d[k] = v] on a [dict] with string keys. *)
Fixpoint set_member (d : list (string * value)) (k : string) (v : value)
  : list (string * value) :=
  match d with
  | [] => [(k, v)]
  | (k', v') :: r =>
      if String.eqb k k' then (k, v) :: r else (k', v') :: set_member r k v
  end.

Fixpoint get_member (d : list (string * value)) (k : string) : option value :=
  match d with
  | [] => None
  | (k', v) :: r => if String.eqb k k' then Some v else get_member r k
  end.

(** One value at the head of [s], which starts at a non-blank; the three
    functions descend together and share the fuel. *)
Fixpoint parse_value (fuel : nat) (s : string) {struct fuel}
  : option (value * string) :=
  match fuel with
  | O => None
  | S fuel' =>
      match s with
      | EmptyString => None
      | String c r =>
          if Ascii.eqb c (chr 34) then
            match string_body r with
            | Some (body, rest) => Some (Str body, rest)
            | None => None
            end
          else if Ascii.eqb c "[" then
            match skip_ws r with
            | String c1 r1 =>
                if Ascii.eqb c1 "]" then Some (Arr [], r1)
                else
                  match parse_elements fuel' (String c1 r1) [] with
                  | Some (items, rest) => Some (Arr items, rest)
                  | None => None
                  end
            | EmptyString => None
            end
          else if Ascii.eqb c "{" then
            match skip_ws r with
            | String c1 r1 =>
                if Ascii.eqb c1 "}" then Some (Obj [], r1)
                else
                  match parse_members fuel' (String c1 r1) [] with
                  | Some (members, rest) => Some (Obj members, rest)
                  | None => None
                  end
            | EmptyString => None
            end
          else scalar s
      end
  end
with parse_elements (fuel : nat) (s : string) (acc : list value)
    {struct fuel} : option (list value * string) :=
  match fuel with
  | O => None
  | S fuel' =>
      match parse_value fuel' s with
      | None => None
      | Some (v, rest) =>
          match skip_ws rest with
          | String c r =>
              if Ascii.eqb c "]" then Some (acc ++ [v], r)
              else if Ascii.eqb c ","
              then parse_elements fuel' (skip_ws r) (acc ++ [v])
              else None
          | EmptyString => None
          end
      end
  end
with parse_members (fuel : nat) (s : string) (acc : list (string * value))
    {struct fuel} : option (list (string * value) * string) :=
  match fuel with
  | O => None
  | S fuel' =>
      match s with
      | String q r =>
          if Ascii.eqb q (chr 34) then
            match string_body r with
            | None => None
            | Some (key, r1) =>
                match skip_ws r1 with
                | String c r2 =>
                    if Ascii.eqb c ":" then
                      match parse_value fuel' (skip_ws r2) with
                      | None => None
                      | Some (v, r3) =>
                          match skip_ws r3 with
                          | String c' r4 =>
                              if Ascii.eqb c' "}"
                              then Some (set_member acc key v, r4)
                              else if Ascii.eqb c' ","
                              then parse_members fuel' (skip_ws r4)
                                     (set_member acc key v)
                              else None
                          | EmptyString => None
                          end
                      end
                    else None
                | EmptyString => None
                end
            end
          else None
      | EmptyString => None
      end
  end.

(** [repr] of a [str]: single quotes, unless the text holds a single
    quote and no double quote. *)
Definition hex_char (n : nat) : ascii :=
  if (n <? 10)%nat then chr (48 + n) else chr (87 + n).

Fixpoint escape (quote : ascii) (s : string) : string :=
  match s with
  | EmptyString => EmptyString
  | String c r =>
      let n := nat_of_ascii c in
      let rest := escape quote r in
      if (Ascii.eqb c quote || Ascii.eqb c (chr 92))%bool
      then String (chr 92) (String c rest)
      else if (n =? 10)%nat then String (chr 92) (String "n" rest)
      else if (n =? 13)%nat then String (chr 92) (String "r" rest)
      else if (n =? 9)%nat then String (chr 92) (String "t" rest)
      else if ((n <? 32) || (n =? 127))%nat
      then String (chr 92)
             (String "x" (String (hex_char (n / 16))
                            (String (hex_char (n mod 16)) rest)))
      else String c rest
  end.

Definition has_char (c : ascii) (s : string) : bool :=
  existsb (Ascii.eqb c) (list_ascii_of_string s).

Definition repr_str (s : string) : string :=
  let q := if (has_char (chr 39) s && negb (has_char (chr 34) s))%bool
           then chr 34 else chr 39 in
  String q (escape q s ++ String q EmptyString)%string.

Definition str_of_Z (z : Z) : string :=
  NilZero.string_of_int (Z.to_int z).

(** [repr(v)] *)
Fixpoint repr (v : value) : string :=
  match v with
  | Null => "None"
  | Bool true => "True"
  | Bool false => "False"
  | Int z => str_of_Z z
  | Float literal => literal
  | Str s => repr_str s
  | Arr items =>
      ("[" ++
       (fix go (l : list value) : string :=
          match l with
          | [] => ""
          | x :: r =>
              repr x ++ match r with [] => "" | _ :: _ => ", " ++ go r end
          end) items ++ "]")%string
  | Obj members =>
      ("{" ++
       (fix go (l : list (string * value)) : string :=
          match l with
          | [] => ""
          | (k, x) :: r =>
              repr_str k ++ ": " ++ repr x ++
              match r with [] => "" | _ :: _ => ", " ++ go r end
          end) members ++ "}")%string
  end.

(** [str(v)] *)
Definition str (v : value) : string :=
  match v with
  | Str s => s
  | _ => repr v
  end.

(** [v[key]] for a string [key]: only a [dict] can be indexed so. *)
Definition subscript (v : value) (key : string) : result value :=
  match v with
  | Obj members =>
      match get_member members key with
      | Some x => inr x
      | None => inl Py.KeyError
      end
  | _ => inl Py.TypeError
  end.

(** [for x in v]: the items of a list, the characters of a string, the
    keys of a dict; anything else is not iterable. *)
Definition iter (v : value) : result (list value) :=
  match v with
  | Arr items => inr items
  | Str s =>
      inr (map (fun c => Str (String c EmptyString)) (list_ascii_of_string s))
  | Obj members => inr (map (fun kv => Str (fst kv)) members)
  | _ => inl Py.TypeError
  end.

(** [json.loads(s)]; [JSONDecodeError] unless [s] is one value between
    blanks.  The interpreter sets two limits that are not part of this
    function: a text nested deeper than its recursion limit, or a number
    longer than its digit limit, makes the real call raise another
    exception; such texts are outside the embedding. *)
Definition loads (s : string) : result value :=
  match parse_value (2 * String.length s + 2) (skip_ws s) with
  | Some (v, rest) =>
      match skip_ws rest with
      | EmptyString => inr v
      | String _ _ => inl Py.JSONDecodeError
      end
  | None => inl Py.JSONDecodeError
  end.

End Json.

(* ------------------------------------------------------------------ *)
(** ** variant_service.py *)

Module Variant.

(** The normal form [_clean_variants] gives a candidate: white space
    collapsed and trimmed, then wrapping quotes removed. *)
Definition normalize (variant : string) : string :=
  Py.strip_quotes (Py.strip (Py.collapse_ws variant)).

(** [x in seen] *)
Definition mem (x : string) (seen : list string) : bool :=
  existsb (String.eqb x) seen.

(** The loop of [_clean_variants], with its two accumulators. *)
Fixpoint clean_loop (variants : list string) (expected_count : Z)
    (seen cleaned : list string) : list string :=
  match variants with
  | [] => cleaned
  | variant :: rest =>
      let variant := normalize variant in
      if (String.eqb variant "" || mem (Py.lower variant) seen)%bool
      then clean_loop rest expected_count seen cleaned
      else
        let seen := Py.lower variant :: seen in
        let cleaned := cleaned ++ [variant] in
        if Z.of_nat (List.length cleaned) >=? expected_count
        then cleaned
        else clean_loop rest expected_count seen cleaned
  end.

Definition _clean_variants (variants : list string) (expected_count : Z)
  : list string :=
  clean_loop variants expected_count [] [].

(** [re.search] of an opening bracket, as few characters as possible,
    and a closing bracket; the value is [match.group(0)]. *)
Fixpoint upto_close (s : string) : option string :=
  match s with
  | EmptyString => None
  | String c r =>
      if Ascii.eqb c "]" then Some (String c EmptyString)
      else option_map (String c) (upto_close r)
  end.

Fixpoint re_search_array (s : string) : option string :=
  match s with
  | EmptyString => None
  | String c r =>
      if Ascii.eqb c "["
      then match upto_close r with
           | Some m => Some (String c m)
           | None => re_search_array r
           end
      else re_search_array r
  end.

(** [[str(x) for x in v]] *)
Definition strs_of (v : Json.value) : result (list string) :=
  match Json.iter v with
  | inl e => inl e
  | inr xs => inr (map Json.str xs)
  end.

(** The [try] block of [_parse_response]. *)
Definition parse_object (response : string) : result (list string) :=
  match Json.loads response with
  | inl e => inl e
  | inr parsed =>
      match Json.subscript parsed "paraphrases" with
      | inl e => inl e
      | inr v => strs_of v
      end
  end.

(** Its [except json.JSONDecodeError] block; [variants] stays empty
    when nothing can be salvaged. *)
Definition salvage (response : string) : list string :=
  match re_search_array response with
  | Some m =>
      match Json.loads m with
      | inl _ => []
      | inr v => match strs_of v with inl _ => [] | inr l => l end
      end
  | None => []
  end.

Definition _parse_response (response : string) (expected_count : Z)
  : result (list string) :=
  match parse_object response with
  | inr variants => inr (_clean_variants variants expected_count)
  | inl Py.JSONDecodeError =>
      inr (_clean_variants (salvage response) expected_count)
  | inl e => inl e
  end.

Definition generate_variants (w : World) (text : string) (n : Z)
    (temperature : Q) : M (list string) :=
  if (String.eqb text "" || String.eqb (Py.strip text) "")%bool
  then ret []
  else
    let n := Z.max 1 (Z.min n 10) in
    let temperature := Py.max 0 (Py.min temperature 1) in
    try_except
      (response <- call (ev_variant_chain text n temperature)
                        (fun t => chain_invoke w t text n temperature) ;;
       lift (_parse_response response n))
      (fun _ => ret []).

End Variant.

(* ------------------------------------------------------------------ *)
(** ** models/schemas.py *)

(** Validation of a field declared with [ge=0.0, le=1.0]. *)
Definition in_unit_interval (x : Q) : bool :=
  (Qle_bool 0 x && Qle_bool x 1)%bool.

Module SimilarMatch.
Record t : Type := mk {
  faq_id : Z;
  question : string;
  answer : string;
  similarity : Q;
  source : string;
  matched_text : option string
}.

(** The constructor of the model raises when [similarity] is out of
    range. *)
Definition create (faq_id : Z) (question answer : string) (similarity : Q)
    (source : string) (matched_text : option string) : result t :=
  if in_unit_interval similarity
  then inr (mk faq_id question answer similarity source matched_text)
  else inl Py.ValidationError.
End SimilarMatch.

Module QuestionResponse.
Record t : Type := mk {
  answer : string;
  source : string;
  confidence : Q;
  matched_faq : option SimilarMatch.t;
  all_matches : list SimilarMatch.t;
  generated_variants : option (list string);
  processing_time_ms : Q
}.

(** The constructor of the model raises when [confidence] is out of
    range. *)
Definition create (answer source : string) (confidence : Q)
    (matched_faq : option SimilarMatch.t)
    (all_matches : list SimilarMatch.t)
    (generated_variants : option (list string))
    (processing_time_ms : Q) : result t :=
  if in_unit_interval confidence
  then inr (mk answer source confidence matched_faq all_matches
               generated_variants processing_time_ms)
  else inl Py.ValidationError.
End QuestionResponse.

(* ------------------------------------------------------------------ *)
(** ** qa_service.py *)

Module QA.

(** [getattr(config.app, 'confidence_threshold', 0.75)]: the class
    [AppConfig] only has the field [similarity_threshold], so the
    default is what the service gets. *)
Definition confidence_threshold : Q := 3 # 4.

Definition default_general_answer : string :=
  "This is not really what I was trained for, therefore I cannot answer. Try again.".

Definition error_answer : string :=
  "I apologize, but I encountered an error processing your question. Please try again.".

Definition llm_fallback_answer : string :=
  "I apologize, but I'm unable to generate an answer at this time. Please try rephrasing your question or contact support.".

Definition nl : string := String (ascii_of_nat 10) EmptyString.

(** [enumerate(matches, i)] with the formatted part of each entry. *)
Fixpoint context_parts (i : nat) (matches : list Match.t) : list string :=
  match matches with
  | [] => []
  | m :: r =>
      ("FAQ " ++ Py.str_of_nat i ++ ":" ++ nl ++
       "Q: " ++ Match.question m ++ nl ++
       "A: " ++ Match.answer m ++ nl)%string :: context_parts (S i) r
  end.

Definition _build_context (matches : list Match.t) : string :=
  String.concat nl (context_parts 1 matches).

Definition _build_similar_match (m : Match.t) : result SimilarMatch.t :=
  SimilarMatch.create (Match.faq_id m) (Match.question m) (Match.answer m)
    (Match.similarity m) (Match.source m) (Match.matched_text m).

(** [[self._build_similar_match(m) for m in matches]] *)
Fixpoint build_all (matches : list Match.t) : result (list SimilarMatch.t) :=
  match matches with
  | [] => inr []
  | m :: r =>
      match _build_similar_match m with
      | inl e => inl e
      | inr x =>
          match build_all r with
          | inl e => inl e
          | inr xs => inr (x :: xs)
          end
      end
  end.

(** [self._build_similar_match(best_match) if best_match else None] *)
Definition build_best (best_match : option Match.t)
  : result (option SimilarMatch.t) :=
  match best_match with
  | None => inr None
  | Some m =>
      match _build_similar_match m with
      | inl e => inl e
      | inr x => inr (Some x)
      end
  end.

(** The service object: [self.variant_service.generate_variants] and
    [self.retrieval_service.search_with_metadata] are methods of two
    collaborators the constructor stores. *)
Record QuestionAnsweringService : Type := {
  variant_service : string -> Z -> Q -> M (list string);
  retrieval_service :
    string -> list string -> Z -> M (list Match.t * list vector)
}.

(** [[m for m in context_matches if m['similarity'] >= 0.5][:3]] *)
Definition context_faqs (context_matches : list Match.t) : list Match.t :=
  Py.slice_to
    (filter (fun m => Py.ge (Match.similarity m) (1 # 2)) context_matches)
    3.

(** The call to one of the two answer chains in [_generate_llm_answer]. *)
Definition invoke_chain (w : World) (user_question : string)
    (context_matches : list Match.t) : M string :=
  match context_faqs context_matches with
  | (_ :: _) as context =>
      let context_text := _build_context context in
      call (ev_rag_chain context_text user_question)
           (fun t => rag_chain_invoke w t context_text user_question)
  | [] =>
      call (ev_general_chain user_question)
           (fun t => general_chain_invoke w t user_question)
  end.

Definition _generate_llm_answer (w : World) (user_question : string)
    (context_matches : list Match.t) : M string :=
  try_except
    (answer <- invoke_chain w user_question context_matches ;;
     ret (Py.strip answer))
    (fun _ => ret llm_fallback_answer).

(** [(time.time() - start_time) * 1000] *)
Definition elapsed_ms (w : World) (start_time : Q) : M Q :=
  t1 <- now w ;; ret ((t1 - start_time) * 1000)%Q.

(** [confidence = best_match['similarity'] if best_match else 0.0] *)
Definition confidence_of (best_match : option Match.t) : Q :=
  match best_match with
  | Some m => Match.similarity m
  | None => 0%Q
  end.

(** The statements of [answer_question] after the search: the choice
    between the stored answer and a generated one, and the response. *)
Definition decide (w : World) (user_question : string)
    (generate_variants : bool) (variants : list string)
    (matches : list Match.t) (start_time : Q) : M QuestionResponse.t :=
  let best_match := hd_error matches in
  let confidence := confidence_of best_match in
  '(answer, source) <-
    (** [confidence >= self.confidence_threshold and best_match] *)
    match (if Py.ge confidence confidence_threshold
           then best_match else None) with
    | Some m => ret (Match.answer m, "database")
    | None =>
        a <- _generate_llm_answer w user_question matches ;; ret (a, "llm")
    end ;;
  processing_time <- elapsed_ms w start_time ;;
  matched_faq <- lift (build_best best_match) ;;
  all_matches <- lift (build_all matches) ;;
  lift (QuestionResponse.create answer source confidence matched_faq
          all_matches
          (if generate_variants then Some variants else None)
          (Py.round2 processing_time)).

(** The [try] block of [answer_question]. *)
Definition answer_body (w : World) (self : QuestionAnsweringService)
    (user_question : string) (generate_variants : bool) (num_variants : Z)
    (start_time : Q) : M QuestionResponse.t :=
  question_category <-
    call (ev_router user_question)
         (fun t => llm_router_invoke w t user_question) ;;
  if Py.contains "general" (Py.lower question_category)
  then
    processing_time <- elapsed_ms w start_time ;;
    lift (QuestionResponse.create default_general_answer "llm" 1 None []
            None (Py.round2 processing_time))
  else
    variants <-
      (if generate_variants
       then variant_service self user_question num_variants (7 # 10)
       else ret []) ;;
    ' (matches, embeddings) <-
      retrieval_service self user_question variants 5 ;;
    decide w user_question generate_variants variants matches start_time.

(** Its [except Exception] block. *)
Definition on_error (w : World) (start_time : Q) (e : exn)
  : M QuestionResponse.t :=
  processing_time <- elapsed_ms w start_time ;;
  lift (QuestionResponse.create error_answer "error" 0 None [] None
          (Py.round2 processing_time)).

Definition answer_question (w : World) (self : QuestionAnsweringService)
    (user_question : string) (generate_variants : bool) (num_variants : Z)
  : M QuestionResponse.t :=
  start_time <- now w ;;
  try_except
    (answer_body w self user_question generate_variants num_variants
       start_time)
    (on_error w start_time).

(** [qa_service = QuestionAnsweringService()]: the instance the routes
    use, built on the two module-level services. *)
Definition qa_service (w : World) : QuestionAnsweringService := {|
  variant_service := Variant.generate_variants w;
  retrieval_service := Retrieval.search_with_metadata w
|}.

(** The three fixed shapes of a response. *)
Definition general_response (ms : Q) : QuestionResponse.t :=
  QuestionResponse.mk default_general_answer "llm" 1 None [] None ms.

Definition error_response (ms : Q) : QuestionResponse.t :=
  QuestionResponse.mk error_answer "error" 0 None [] None ms.

End QA.

(* ------------------------------------------------------------------ *)
(** ** Concrete worlds *)

Module Scenario.

Definition dq : string := String (ascii_of_nat 34) EmptyString.

(** A clock that advances by one millisecond per recorded call. *)
Definition clock (t : trace) : Q :=
  (inject_Z (Z.of_nat (List.length t)) / 1000)%Q.

Definition down {A : Type} : result A := inl (Py.ExternalError "unavailable").

(** A world made of constant answers. *)
Definition world (category : result string) (paraphrases : result string)
    (embedding : result vector) (faqs : result (list faq_row))
    (variants : result (list variant_row)) (generated : result string)
  : World := {|
  time_time := clock;
  llm_router_invoke := fun _ _ => category;
  chain_invoke := fun _ _ _ _ => paraphrases;
  embeddings_create := fun _ _ => embedding;
  query_faqs := fun _ _ _ => faqs;
  query_variants := fun _ _ _ => variants;
  rag_chain_invoke := fun _ _ _ => generated;
  general_chain_invoke := fun _ _ => generated
|}.

Definition question : string := "How can I change my password?".

Definition stored : faq_row :=
  (1, "How do I reset my password?", "Go to Settings > Security.",
   Some (9 # 10)).

(** The model answers with a bare array of two paraphrases. *)
Definition bare_array : string :=
  ("[" ++ dq ++ "How to reset it?" ++ dq ++ ", "
       ++ dq ++ "Where do I change it?" ++ dq ++ "]")%string.

(** The same array under the key the prompt asks for. *)
Definition wrapped_array : string :=
  ("{" ++ dq ++ "paraphrases" ++ dq ++ ": " ++ bare_array ++ "}")%string.

(** The same array inside a sentence. *)
Definition array_in_prose : string :=
  ("Here you go: " ++ bare_array ++ " Anything else?")%string.

Definition unit_vector : vector := [1%Q; 0%Q].

(** An ordinary day: an IT question, one close entry. *)
Definition it_world : World :=
  world (inr "IT") (inr wrapped_array) (inr unit_vector)
    (inr [stored]) (inr []) (inr " Use the security page. ").

(** The model answers the variant prompt with a bare array. *)
Definition bare_array_world : World :=
  world (inr "IT") (inr bare_array) (inr unit_vector)
    (inr [stored]) (inr []) (inr "Use the security page.").

(** The classifier times out. *)
Definition router_down_world : World :=
  world down (inr wrapped_array) (inr unit_vector)
    (inr [stored]) (inr []) (inr "Use the security page.").

(** The classifier answers [General]. *)
Definition general_world : World :=
  world (inr "General") (inr wrapped_array) (inr unit_vector)
    (inr [stored]) (inr []) (inr "It is sunny.").

(** The primary table cannot be reached; the alias table answers. *)
Definition faqs_down_world : World :=
  world (inr "IT") (inr wrapped_array) (inr unit_vector) down
    (inr [(1, "How do I reset my password?", "Go to Settings > Security.",
           "How to change a password", Some (8 # 10))])
    (inr "Use the security page.").

(** A small store: the closest entry is close, another one points away
    from the query (cosine distance above one). *)
Definition obtuse_rows (best : Q) : list faq_row :=
  [(1, "How do I reset my password?", "Go to Settings > Security.",
    Some best);
   (2, "Where is the cafeteria?", "On the ground floor.", Some (- (1 # 20))%Q)].

Definition obtuse_world (best : Q) (generated : result string) : World :=
  world (inr "IT") (inr wrapped_array) (inr unit_vector)
    (inr (obtuse_rows best)) (inr []) generated.

(** A store with one entry, at similarity [best] to every query. *)
Definition near_world (best : Q) (generated : result string) : World :=
  world (inr "IT") (inr wrapped_array) (inr unit_vector)
    (inr [(1, "How do I reset my password?", "Go to Settings > Security.",
           Some best)])
    (inr []) generated.


(** The candidates the searches of these stores yield. *)
Definition near_match (s : Q) : Match.t :=
  Match.mk 1 "How do I reset my password?" "Go to Settings > Security." s
    "faq" None.

Definition far_match : Match.t :=
  Match.mk 2 "Where is the cafeteria?" "On the ground floor."
    (- (1 # 20))%Q "faq" None.

(** The embedding endpoint is down. *)
Definition embed_down_world : World :=
  world (inr "IT") (inr wrapped_array) down
    (inr [stored]) (inr []) (inr "Use the security page.").

End Scenario.

(* ------------------------------------------------------------------ *)
(** ** Vocabulary of the statements *)

(** The order of a ranked result: the earlier candidate is at least as
    similar as the later one. *)
Definition by_similarity_desc (a b : Match.t) : Prop :=
  (Match.similarity b <= Match.similarity a)%Q.

(** What the loop of [_deduplicate_matches] maintains: keys are distinct; every stored candidate
    sits under its own id, was seen, and no candidate seen so far with
    that id is more similar; every id seen so far has a key. *)
Definition dedup_inv (d : Retrieval.faq_dict) (seen : list Match.t) : Prop :=
  NoDup (map fst d) /\
  (forall k v, In (k, v) d ->
     Match.faq_id v = k /\ In v seen /\
     forall m', In m' seen -> Match.faq_id m' = k ->
                (Match.similarity m' <= Match.similarity v)%Q) /\
  (forall id, In id (map fst d) <-> In id (map Match.faq_id seen)).

(** A candidate whose similarity passes the validation of the response
    models. *)
Definition valid_similarity (m : Match.t) : Prop :=
  in_unit_interval (Match.similarity m) = true.

(** The entry of the response that stands for a candidate. *)
Definition similar_match_of (m : Match.t) : SimilarMatch.t :=
  SimilarMatch.mk (Match.faq_id m) (Match.question m) (Match.answer m)
    (Match.similarity m) (Match.source m) (Match.matched_text m).

(** The first occurrence of every key, in order: the declarative reading
    of a loop that skips what it has seen. *)
Fixpoint first_by {A K : Type} (eqb : K -> K -> bool) (key : A -> K)
    (seen : list K) (l : list A) : list A :=
  match l with
  | [] => []
  | x :: r =>
      if existsb (eqb (key x)) seen then first_by eqb key seen r
      else x :: first_by eqb key (key x :: seen) r
  end.

(** What [_clean_variants] keeps when nothing cuts its loop short: the
    normal forms of the candidates, without the empty ones, each at its
    first occurrence up to case. *)
Definition distinct_normal_forms (variants : list string) : list string :=
  first_by String.eqb Py.lower []
    (filter (fun v => negb (String.eqb v ""))
       (map Variant.normalize variants)).

(** [m] is, in the list [seen], the first candidate of its id that no
    candidate of the same id exceeds. *)
Definition earliest_best (seen : list Match.t) (m : Match.t) : Prop :=
  exists pre post,
    seen = pre ++ m :: post /\
    (forall m', In m' pre -> Match.faq_id m' = Match.faq_id m ->
                (Match.similarity m' < Match.similarity m)%Q) /\
    (forall m', In m' post -> Match.faq_id m' = Match.faq_id m ->
                (Match.similarity m' <= Match.similarity m)%Q).

(** The two queries one embedding costs. *)
Definition queries_of (top_k : Z) (embedding : vector) : list event :=
  [ev_query_faqs embedding top_k; ev_query_variants embedding top_k].

(* ------------------------------------------------------------------ *)
(** ** services/auth.py *)

(** [fastapi.HTTPException]: what a route raises to answer with a status
    other than 200. *)
Module HTTPException.
Record t : Type := mk {
  status_code : Z;
  detail : string;
  headers : option (list (string * string))
}.
End HTTPException.

Module Auth.

(** [s.split(sep)] for a separator of one character: the pieces between
    the separators, empty ones included; never the empty list. *)
Fixpoint split (sep : ascii) (s : string) : list string :=
  match s with
  | EmptyString => [EmptyString]
  | String c r =>
      if Ascii.eqb c sep then EmptyString :: split sep r
      else
        match split sep r with
        | [] => [String c EmptyString]
        | piece :: pieces => String c piece :: pieces
        end
  end.

Definition demo_key : string := "demo_key".

(** [_load_api_keys]; the argument is the environment variable [API_KEYS],
    [None] when it is not set.  The [set] is kept as a list without
    repetition: the code only tests membership and takes the size. *)
Definition _load_api_keys (API_KEYS : option string) : list string :=
  let keys_str := match API_KEYS with Some s => s | None => "" end in
  if String.eqb keys_str "" then [demo_key]
  else
    nodup string_dec
      (map Py.strip
         (filter (fun key => negb (String.eqb (Py.strip key) ""))
            (split "," keys_str))).

(** The dictionary a successful check returns. *)
Record principal : Type := {
  api_key : string;
  authenticated : bool;
  user_type : string
}.

(** [APIKeyAuth.__call__] *)
Definition __call__ (valid_keys : list string) (x_api_key : string)
  : HTTPException.t + principal :=
  if existsb (String.eqb x_api_key) valid_keys
  then inr {| api_key := x_api_key;
              authenticated := true;
              user_type := "api_user" |}
  else inl (HTTPException.mk 401 "Invalid API Key"
              (Some [("WWW-Authenticate", "ApiKey")])).

End Auth.

(* ------------------------------------------------------------------ *)
(** ** models/schemas.py: the request *)

Module QuestionRequest.
Record t : Type := mk {
  question : string;
  generate_variants : bool;
  num_variants : Z
}.

(** The constructor of the model: [question] has between 1 and 500
    characters, [num_variants] lies between 1 and 5; the two optional
    fields default to [True] and 3. *)
Definition create (question : string) (generate_variants : option bool)
    (num_variants : option Z) : result t :=
  let generate_variants :=
    match generate_variants with Some b => b | None => true end in
  let num_variants :=
    match num_variants with Some n => n | None => 3 end in
  if ((1 <=? String.length question)%nat
      && (String.length question <=? 500)%nat
      && (1 <=? num_variants) && (num_variants <=? 5))%bool
  then inr (mk question generate_variants num_variants)
  else inl Py.ValidationError.
End QuestionRequest.

(* ------------------------------------------------------------------ *)
(** ** routes/faq.py *)

Module Routes.

Section Handlers.

(** [str(e)], the message of an exception. *)
Variable exn_str : exn -> string.

(** A handler returns the response or raises an [HTTPException]. *)
Definition handler : Type :=
  trace -> (HTTPException.t + QuestionResponse.t) * trace.

Definition ask_question (w : World) (qa_service : QA.QuestionAnsweringService)
    (request : QuestionRequest.t) : handler :=
  fun t =>
    match QA.answer_question w qa_service
            (QuestionRequest.question request)
            (QuestionRequest.generate_variants request)
            (QuestionRequest.num_variants request) t with
    | (inr response, t') => (inr response, t')
    | (inl e, t') =>
        (inl (HTTPException.mk 500
                ("Failed to process question: " ++ exn_str e)%string None),
         t')
    end.

Definition search_faqs (w : World) (qa_service : QA.QuestionAnsweringService)
    (q : string) (generate_variants : bool) (num_variants : Z) : handler :=
  fun t =>
    if (String.eqb q "" || String.eqb (Py.strip q) "")%bool
    then
      (inl (HTTPException.mk 400
              "Query parameter 'q' is required and cannot be empty" None),
       t)
    else
      match QA.answer_question w qa_service q generate_variants
              num_variants t with
      | (inr response, t') => (inr response, t')
      | (inl e, t') =>
          (inl (HTTPException.mk 500
                  ("Failed to search FAQs: " ++ exn_str e)%string None),
           t')
      end.

End Handlers.

End Routes.

(* ------------------------------------------------------------------ *)
(** ** A state and exception monad for the layers below the services *)

Module St.

Section State.

Context {S : Type}.

(** A computation transforms the state and returns or raises. *)
Definition M (A : Type) : Type := S -> result A * S.

Definition ret {A : Type} (a : A) : M A := fun s => (inr a, s).

Definition raise {A : Type} (e : exn) : M A := fun s => (inl e, s).

Definition bind {A B : Type} (m : M A) (k : A -> M B) : M B :=
  fun s =>
    match m s with
    | (inl e, s') => (inl e, s')
    | (inr a, s') => k a s'
    end.

(** [try: body / except Exception as e: handler] *)
Definition try_except {A : Type} (body : M A) (handler : exn -> M A) : M A :=
  fun s =>
    match body s with
    | (inl e, s') => handler e s'
    | (inr a, s') => (inr a, s')
    end.

(** [try: body / finally: final]: [final] always runs; when it raises,
    its exception replaces the outcome of [body]. *)
Definition try_finally {A : Type} (body : M A) (final : M unit) : M A :=
  fun s =>
    match body s with
    | (r, s1) =>
        match final s1 with
        | (inl e, s2) => (inl e, s2)
        | (inr _, s2) => (r, s2)
        end
    end.

End State.

Arguments M : clear implicits.

End St.

Declare Scope st_scope.
Delimit Scope st_scope with st.
Notation "x <- m ;; k" := (St.bind m (fun x => k))
  (at level 61, m at next level, right associativity) : st_scope.

(* ------------------------------------------------------------------ *)
(** ** core/database.py *)

Module Sql.

(** Values that travel to and from the driver. *)
Inductive value : Type :=
| Null
| Int (z : Z)
| Text (s : string)
| Bool (b : bool)
| Float (q : Q)
| Vector (v : list Q).

Definition row : Type := list value.

(** [params: Optional[Tuple]] *)
Definition params : Type := option (list value).

End Sql.

Module Database.

(** The calls to the driver, in the order they are made. *)
Inductive db_event : Type :=
| ev_pool_create (minconn maxconn : Z)
| ev_getconn
| ev_putconn
| ev_closeall
| ev_cursor
| ev_execute (query : string) (params : Sql.params)
| ev_execute_values (query : string) (values : list (list Sql.value))
    (template : option string) (fetch : bool)
| ev_fetchall
| ev_commit
| ev_rollback
| ev_cursor_close.

(** [psycopg2], as far as the manager uses it.  Each call may raise, and
    its outcome may depend on the calls made before. *)
Record Driver : Type := {
  SimpleConnectionPool : list db_event -> Z -> Z -> result unit;
  pool_getconn : list db_event -> result unit;
  pool_putconn : list db_event -> result unit;
  pool_closeall : list db_event -> result unit;
  conn_cursor : list db_event -> result unit;
  conn_commit : list db_event -> result unit;
  conn_rollback : list db_event -> result unit;
  cursor_execute : list db_event -> string -> Sql.params -> result unit;
  cursor_fetchall : list db_event -> result (list Sql.row);
  cursor_rowcount : list db_event -> Z;
  cursor_close : list db_event -> result unit;
  execute_values :
    list db_event -> string -> list (list Sql.value) -> option string ->
    bool -> result (option (list Sql.row))
}.

(** The manager: whether [self._pool] is set, and the calls so far. *)
Record DatabaseManager : Type := {
  _pool : bool;
  log : list db_event
}.

Definition M (A : Type) : Type := St.M DatabaseManager A.

Local Open Scope st_scope.

Definition call {A : Type} (ev : db_event)
    (oracle : list db_event -> result A) : M A :=
  fun self =>
    (oracle (log self), {| _pool := _pool self; log := log self ++ [ev] |}).

Definition initialize_pool (d : Driver) (minconn maxconn : Z) : M unit :=
  fun self =>
    if _pool self then (inr tt, self)
    else
      match SimpleConnectionPool d (log self) minconn maxconn with
      | inr _ =>
          (inr tt,
           {| _pool := true;
              log := log self ++ [ev_pool_create minconn maxconn] |})
      | inl e =>
          (inl e,
           {| _pool := false;
              log := log self ++ [ev_pool_create minconn maxconn] |})
      end.

Definition close_pool (d : Driver) : M unit :=
  fun self =>
    if _pool self then call ev_closeall (pool_closeall d) self
    else (inr tt, self).

(** [with self.get_connection() as conn: body].  When [getconn] raises,
    [conn] is still [None] and the [finally] block returns nothing to the
    pool. *)
Definition get_connection {A : Type} (d : Driver) (body : M A) : M A :=
  _ <- (fun self => if _pool self then (inr tt, self)
                    else initialize_pool d 1 5 self) ;;
  fun self =>
    match call ev_getconn (pool_getconn d) self with
    | (inl e, self') => (inl e, self')
    | (inr _, self') =>
        St.try_finally body (call ev_putconn (pool_putconn d)) self'
    end.

(** [with self.get_cursor(commit) as cursor: body] *)
Definition get_cursor {A : Type} (d : Driver) (commit : bool) (body : M A)
  : M A :=
  get_connection d
    (_ <- call ev_cursor (conn_cursor d) ;;
     St.try_finally
       (St.try_except
          (r <- body ;;
           _ <- (if commit then call ev_commit (conn_commit d)
                 else St.ret tt) ;;
           St.ret r)
          (fun e => _ <- call ev_rollback (conn_rollback d) ;; St.raise e))
       (call ev_cursor_close (cursor_close d))).

Definition execute_query (d : Driver) (query : string) (params : Sql.params)
  : M (list Sql.row) :=
  get_cursor d false
    (_ <- call (ev_execute query params)
               (fun l => cursor_execute d l query params) ;;
     call ev_fetchall (cursor_fetchall d)).

Definition execute_update (d : Driver) (query : string) (params : Sql.params)
  : M Z :=
  get_cursor d true
    (_ <- call (ev_execute query params)
               (fun l => cursor_execute d l query params) ;;
     fun self => (inr (cursor_rowcount d (log self)), self)).

Definition batch_insert (d : Driver) (query : string)
    (values : list (list Sql.value)) (template : option string) : M Z :=
  get_cursor d true
    (_ <- call (ev_execute_values query values template false)
               (fun l => execute_values d l query values template false) ;;
     fun self => (inr (cursor_rowcount d (log self)), self)).

Definition execute_query_with_batch (d : Driver) (query : string)
    (values : list (list Sql.value)) (template : option string)
  : M (list Sql.row) :=
  get_cursor d true
    (result <- call (ev_execute_values query values template true)
                    (fun l => execute_values d l query values template true) ;;
     St.ret (match result with
             | Some (r :: rows) => r :: rows
             | _ => []
             end)).

End Database.

(** A driver made of constant answers, for runs. *)
Module DbScenario.

Definition driver (getconn cursor execute commit rollback close putconn
                     : result unit)
    (rows : result (list Sql.row)) : Database.Driver := {|
  Database.SimpleConnectionPool := fun _ _ _ => inr tt;
  Database.pool_getconn := fun _ => getconn;
  Database.pool_putconn := fun _ => putconn;
  Database.pool_closeall := fun _ => inr tt;
  Database.conn_cursor := fun _ => cursor;
  Database.conn_commit := fun _ => commit;
  Database.conn_rollback := fun _ => rollback;
  Database.cursor_execute := fun _ _ _ => execute;
  Database.cursor_fetchall := fun _ => rows;
  Database.cursor_rowcount := fun _ => 1;
  Database.cursor_close := fun _ => close;
  Database.execute_values := fun _ _ _ _ _ => inr None
|}.

Definition ok : result unit := inr tt.

Definition fresh : Database.DatabaseManager :=
  {| Database._pool := false; Database.log := [] |}.

Definition ready : Database.DatabaseManager :=
  {| Database._pool := true; Database.log := [] |}.

End DbScenario.

(* ------------------------------------------------------------------ *)
(** ** db_init/scripts: llm.py and seed_database.py *)

Module Seeding.

(** The calls the seeding script makes: the chat endpoint, the embedding
    endpoint and the two batch statements. *)
Inductive seed_event : Type :=
| ev_chat (text : string) (n : Z) (temperature : Q) (max_tokens : Z)
    (seed : option Z)
| ev_embedding (text : string)
| ev_insert_faqs (values : list (string * string * vector))
| ev_insert_variants (values : list (Z * string * vector)).

(** The answer of the chat endpoint is the list of the contents of its
    choices; a content may be [None].  The insertion of entries returns
    the rows of [RETURNING id, question], the insertion of variants a row
    count. *)
Record Services : Type := {
  chat_completions_create :
    list seed_event -> string -> Z -> Q -> Z -> option Z ->
    result (list (option string));
  embeddings_create : list seed_event -> string -> result vector;
  execute_query_with_batch :
    list seed_event -> list (string * string * vector) ->
    result (list (Z * string));
  batch_insert :
    list seed_event -> list (Z * string * vector) -> result Z
}.

Definition M (A : Type) : Type := St.M (list seed_event) A.

Local Open Scope st_scope.

Definition call {A : Type} (ev : seed_event)
    (oracle : list seed_event -> result A) : M A :=
  fun t => (oracle t, t ++ [ev]).

(** *** llm.py *)

(** The [try] block that reads the paraphrases off the raw content; every
    exception ends in the empty list.  [json.loads(None)] raises. *)
Definition extract (raw : option string) : list string :=
  match raw with
  | None => []
  | Some raw =>
      match Json.loads raw with
      | inl _ => []
      | inr (Json.Obj members) =>
          match Json.get_member members "paraphrases" with
          | Some (Json.Arr items) => map Json.str items
          | _ =>
              match Json.get_member members "data" with
              | Some (Json.Arr items) => map Json.str items
              | _ => []
              end
          end
      | inr (Json.Arr items) => map Json.str items
      | inr _ => []
      end
  end.

(** The loop that cleans and deduplicates; no entry ends it early. *)
Fixpoint clean_loop (paraphrases seen cleaned : list string)
  : list string :=
  match paraphrases with
  | [] => cleaned
  | p :: rest =>
      let p := Py.strip (Py.collapse_ws p) in
      if (negb (String.eqb p "") && negb (Variant.mem (Py.lower p) seen))%bool
      then clean_loop rest (Py.lower p :: seen) (cleaned ++ [p])
      else clean_loop rest seen cleaned
  end.

Definition generate_paraphrases (s : Services) (text : string) (n : Z)
    (temperature : option Q) (seed : option Z) (max_tokens : option Z)
  : M (list string) :=
  if (String.eqb text "" || String.eqb (Py.strip text) "")%bool
  then St.ret []
  else
    let n := Z.max 1 (Z.min n 10) in
    let temperature :=
      match temperature with None => 7 # 10 | Some x => x end in
    let max_tokens := match max_tokens with None => 300 | Some m => m end in
    resp <- call (ev_chat text n temperature max_tokens seed)
                 (fun t => chat_completions_create s t text n temperature
                             max_tokens seed) ;;
    let raw := match resp with
               | [] => Some "[]"
               | content :: _ => content
               end in
    let cleaned := clean_loop (extract raw) [] [] in
    St.ret (if Z.of_nat (List.length cleaned) >? n
            then Py.slice_to cleaned n else cleaned).

(** *** seed_database.py *)

Definition generate_embedding (s : Services) (text : string) : M vector :=
  call (ev_embedding text) (fun t => embeddings_create s t text).

(** The loop of [prepare_faq_data] over the entries, each a question and
    an answer. *)
Fixpoint prepare_faq_data (s : Services) (faqs : list (string * string))
    (values : list (string * string * vector))
  : M (list (string * string * vector)) :=
  match faqs with
  | [] => St.ret values
  | (question, answer) :: rest =>
      embedding <- generate_embedding s question ;;
      prepare_faq_data s rest
        (values ++
         [(question, answer, Retrieval.embedding_to_vector embedding)])
  end.

Definition insert_faqs (s : Services)
    (values : list (string * string * vector)) : M (list (Z * string)) :=
  inserted_records <- call (ev_insert_faqs values)
                           (fun t => execute_query_with_batch s t values) ;;
  St.ret (map (fun row => (fst row, snd row)) inserted_records).

Definition _insert_variants_batch (s : Services)
    (variant_values : list (Z * string * vector)) : M Z :=
  call (ev_insert_variants variant_values)
       (fun t => batch_insert s t variant_values).

(** The inner loop of [generate_and_insert_variants]: a variant whose
    embedding fails is skipped. *)
Fixpoint embed_variants (s : Services) (faq_id : Z) (variants : list string)
    (variant_values : list (Z * string * vector))
  : M (list (Z * string * vector)) :=
  match variants with
  | [] => St.ret variant_values
  | variant_text :: rest =>
      variant_values <-
        St.try_except
          (variant_embedding <- generate_embedding s variant_text ;;
           St.ret (variant_values ++
                   [(faq_id, variant_text,
                     Retrieval.embedding_to_vector variant_embedding)]))
          (fun _ => St.ret variant_values) ;;
      embed_variants s faq_id rest variant_values
  end.

(** One round of its outer loop; [continue] leaves the total as it is. *)
Definition process_record (s : Services) (faq_record : Z * string)
    (total_variants_inserted : Z) : M Z :=
  let '(faq_id, original_question) := faq_record in
  St.try_except
    (variants <- generate_paraphrases s original_question 3 (Some (7 # 10))
                   None None ;;
     match variants with
     | [] => St.ret total_variants_inserted
     | _ :: _ =>
         variant_values <- embed_variants s faq_id variants [] ;;
         match variant_values with
         | [] => St.ret total_variants_inserted
         | _ :: _ =>
             inserted_count <- _insert_variants_batch s variant_values ;;
             St.ret (total_variants_inserted + inserted_count)
         end
     end)
    (fun _ => St.ret total_variants_inserted).

Fixpoint insert_variants_loop (s : Services) (faq_records : list (Z * string))
    (total_variants_inserted : Z) : M Z :=
  match faq_records with
  | [] => St.ret total_variants_inserted
  | faq_record :: rest =>
      total <- process_record s faq_record total_variants_inserted ;;
      insert_variants_loop s rest total
  end.

Definition generate_and_insert_variants (s : Services)
    (faq_records : list (Z * string)) : M Z :=
  insert_variants_loop s faq_records 0.

(** Services made of constant answers, for runs. *)
Definition constant (chat : result (list (option string)))
    (embedding : result vector) (count : result Z) : Services := {|
  chat_completions_create := fun _ _ _ _ _ _ => chat;
  embeddings_create := fun _ _ => embedding;
  execute_query_with_batch := fun _ values =>
    inr (map (fun v => (1, fst (fst v))) values);
  batch_insert := fun _ _ => count
|}.

End Seeding.

(** Vocabulary for the runs of the seeding script. *)
Definition is_chat (ev : Seeding.seed_event) : bool :=
  match ev with
  | Seeding.ev_chat _ _ _ _ _ => true
  | _ => false
  end.

(** An insertion of variants carries at least one row. *)
Definition proper_insert (ev : Seeding.seed_event) : Prop :=
  match ev with
  | Seeding.ev_insert_variants values => values <> []
  | Seeding.ev_insert_faqs _ => False
  | _ => True
  end.

(** The question of an entry is neither empty nor blank. *)
Definition has_text (faq_record : Z * string) : bool :=
  negb (String.eqb (snd faq_record) "" ||
        String.eqb (Py.strip (snd faq_record)) "")%bool.

(* ------------------------------------------------------------------ *)
(** ** core/config.py *)

Module Config.

Record DatabaseConfig : Type := {
  host : string;
  port : string;
  database_name : string;
  user : string;
  password : option string
}.

Record OpenAIConfig : Type := {
  api_key : option string;
  embedding_model : string;
  embedding_dimensions : Z;
  llm_model : string
}.

Record AppConfig : Type := {
  similarity_threshold : Q
}.

Record t : Type := {
  database : DatabaseConfig;
  openai : OpenAIConfig;
  app : AppConfig
}.

(** The truth value of an optional string: [None] and the empty string
    are false. *)
Definition truthy (s : option string) : bool :=
  match s with
  | Some (String _ _) => true
  | _ => false
  end.

(** [OpenAIConfig.validate] *)
Definition openai_validate (c : OpenAIConfig) : bool := truthy (api_key c).

(** [Config.validate] *)
Definition validate (self : t) : bool * list string :=
  let errors := [] in
  let errors :=
    if negb (truthy (password (database self)))
    then errors ++ ["Database password not set"] else errors in
  let errors :=
    if negb (openai_validate (openai self))
    then errors ++ ["OpenAI API key not set"] else errors in
  ((List.length errors =? 0)%nat, errors).

End Config.

(* ------------------------------------------------------------------ *)
(** ** main.py: the start of the application *)

Module Main.

(** The calls of [lifespan] to the database manager. *)
Inductive event : Type :=
| ev_initialize_pool (minconn maxconn : Z)
| ev_table_exists (table_name : string)
| ev_get_table_count (table_name : string)
| ev_close_pool.

Record Manager : Type := {
  initialize_pool : list event -> Z -> Z -> result unit;
  table_exists : list event -> string -> result bool;
  get_table_count : list event -> string -> result Z;
  close_pool : list event -> result unit
}.

(** What the start can raise: its own [RuntimeError], or what a call
    raised. *)
Inductive failure : Type :=
| RuntimeError (msg : string)
| Raised (e : exn).

Definition step {A : Type} (ev : event) (oracle : list event -> result A)
    (k : A -> list event -> (failure + unit) * list event)
  : list event -> (failure + unit) * list event :=
  fun t =>
    match oracle t with
    | inl e => (inl (Raised e), t ++ [ev])
    | inr a => k a (t ++ [ev])
    end.

Definition not_initialized : string :=
  "Database not initialized. Run initialize.py first.".

(** The part of [lifespan] before [yield]. *)
Definition startup (config : Config.t) (db_manager : Manager)
  : list event -> (failure + unit) * list event :=
  fun t =>
    let '(valid, errors) := Config.validate config in
    if negb valid then (inl (RuntimeError "Invalid configuration"), t)
    else
      step (ev_initialize_pool 2 10)
        (fun l => initialize_pool db_manager l 2 10)
        (fun _ =>
           step (ev_table_exists "faqs")
             (fun l => table_exists db_manager l "faqs")
             (fun faqs =>
                if negb faqs
                then fun t => (inl (RuntimeError not_initialized), t)
                else
                  step (ev_table_exists "faq_variants")
                    (fun l => table_exists db_manager l "faq_variants")
                    (fun variants =>
                       if negb variants
                       then fun t => (inl (RuntimeError not_initialized), t)
                       else
                         step (ev_get_table_count "faqs")
                           (fun l => get_table_count db_manager l "faqs")
                           (fun faq_count =>
                              step (ev_get_table_count "faq_variants")
                                (fun l => get_table_count db_manager l
                                            "faq_variants")
                                (fun variant_count t => (inr tt, t))))))
      t.

(** A manager made of constant answers, for runs. *)
Definition constant (faqs variants : result bool) (count : result Z)
  : Manager := {|
  initialize_pool := fun _ _ _ => inr tt;
  table_exists := fun _ name => if String.eqb name "faqs" then faqs
                                else variants;
  get_table_count := fun _ _ => count;
  close_pool := fun _ => inr tt
|}.

Definition secrets (password api_key : option string) : Config.t := {|
  Config.database := {| Config.host := "localhost"; Config.port := "5432";
                        Config.database_name := "faq_db";
                        Config.user := "user";
                        Config.password := password |};
  Config.openai := {| Config.api_key := api_key;
                      Config.embedding_model := "text-embedding-3-small";
                      Config.embedding_dimensions := 1536;
                      Config.llm_model := "gpt-4o" |};
  Config.app := {| Config.similarity_threshold := 3 # 4 |}
|}.

End Main.

(** The model answers with a paraphrase inside quotes that protect two
    blanks, and with the same paraphrase bare. *)
Definition quoted_twice : string :=
  ("{" ++ Scenario.dq ++ "paraphrases" ++ Scenario.dq ++ ": ["
       ++ Scenario.dq ++ "' How? '" ++ Scenario.dq ++ ", "
       ++ Scenario.dq ++ "How?" ++ Scenario.dq ++ "]}")%string.

Definition quoted_twice_world : World :=
  Scenario.world (inr "IT") (inr quoted_twice) (inr Scenario.unit_vector)
    (inr [Scenario.stored]) (inr []) (inr "Use the security page.").




(* ================================================================== *)
(** * Properties *)

(** ** Comparisons of floats *)

Lemma gt_true (a b : Q) : Py.gt a b = true <-> (b < a)%Q.
Proof.
  unfold Py.gt. rewrite negb_true_iff.
  split; intro H.
  - apply Qnot_le_lt. intro L. apply Qle_bool_iff in L. congruence.
  - destruct (Qle_bool a b) eqn:E; [|reflexivity].
    apply Qle_bool_iff in E. exfalso. exact (Qlt_not_le _ _ H E).
Qed.

Lemma gt_false (a b : Q) : Py.gt a b = false <-> (a <= b)%Q.
Proof.
  unfold Py.gt. rewrite negb_false_iff. apply Qle_bool_iff.
Qed.

Lemma ge_true (a b : Q) : Py.ge a b = true <-> (b <= a)%Q.
Proof. unfold Py.ge. apply Qle_bool_iff. Qed.

Lemma ge_false (a b : Q) : Py.ge a b = false <-> (a < b)%Q.
Proof.
  unfold Py.ge. split; intro H.
  - apply Qnot_le_lt. intro L. apply Qle_bool_iff in L. congruence.
  - destruct (Qle_bool b a) eqn:E; [|reflexivity].
    apply Qle_bool_iff in E. exfalso. exact (Qlt_not_le _ _ H E).
Qed.

(** ** The dictionary of [_deduplicate_matches] *)

Section FaqDict.

Import Retrieval.

Lemma dict_get_none (d : faq_dict) (k : Z) :
  dict_get d k = None <-> ~ In k (map fst d).
Proof.
  induction d as [|[k' v'] d IH]; simpl.
  - tauto.
  - destruct (Z.eqb_spec k k') as [->|N].
    + split; [discriminate | intro H; exfalso; apply H; now left].
    + rewrite IH. split; intro H.
      * intros [E|I]; [congruence | tauto].
      * intro I. apply H. now right.
Qed.

Lemma dict_get_some (d : faq_dict) (k : Z) (v : Match.t) :
  dict_get d k = Some v -> In (k, v) d.
Proof.
  induction d as [|[k' v'] d IH]; simpl; [discriminate|].
  destruct (Z.eqb_spec k k') as [->|N].
  - intros [= ->]. now left.
  - intro H. right. auto.
Qed.

Lemma dict_set_keys_present (d : faq_dict) (k : Z) (v : Match.t) :
  In k (map fst d) -> map fst (dict_set d k v) = map fst d.
Proof.
  induction d as [|[k' v'] d IH]; simpl; [tauto|].
  destruct (Z.eqb_spec k k') as [->|N]; simpl; [reflexivity|].
  intros [E|I]; [congruence|]. now rewrite IH.
Qed.

Lemma dict_set_keys_absent (d : faq_dict) (k : Z) (v : Match.t) :
  ~ In k (map fst d) -> map fst (dict_set d k v) = map fst d ++ [k].
Proof.
  induction d as [|[k' v'] d IH]; simpl; [reflexivity|].
  destruct (Z.eqb_spec k k') as [->|N]; simpl.
  - intro H. exfalso. apply H. now left.
  - intro H. rewrite IH; [reflexivity|]. intro I. apply H. now right.
Qed.

Lemma dict_set_in (d : faq_dict) (k : Z) (v : Match.t) :
  In (k, v) (dict_set d k v).
Proof.
  induction d as [|[k' v'] d IH]; simpl; [now left|].
  destruct (Z.eqb_spec k k') as [->|N]; simpl; [now left | now right].
Qed.

Lemma dict_set_other (d : faq_dict) (k k' : Z) (v v' : Match.t) :
  k' <> k -> In (k', v') d -> In (k', v') (dict_set d k v).
Proof.
  intro N. induction d as [|[k0 v0] d IH]; simpl; [tauto|].
  destruct (Z.eqb_spec k k0) as [->|N0]; simpl.
  - intros [[= -> ->]|I]; [congruence | now right].
  - intros [E|I]; [now left | right; auto].
Qed.

Lemma dict_set_inv (d : faq_dict) (k k' : Z) (v v' : Match.t) :
  NoDup (map fst d) -> In (k', v') (dict_set d k v) ->
  (k' = k /\ v' = v) \/ (k' <> k /\ In (k', v') d).
Proof.
  induction d as [|[k0 v0] d IH]; simpl.
  - intros _ [[= <- <-]|[]]. now left.
  - intro ND. inversion ND as [|? ? NI ND']; subst.
    destruct (Z.eqb_spec k k0) as [->|N0]; simpl.
    + intros [[= <- <-]|I]; [now left|].
      right. split; [|now right].
      intros ->. apply NI. change k0 with (fst (k0, v')). now apply in_map.
    + intros [[= <- <-]|I].
      * right. split; [congruence | now left].
      * destruct (IH ND' I) as [L|[NE I']]; [now left|].
        right. split; [assumption | now right].
Qed.

Lemma dict_functional (d : faq_dict) (k : Z) (v v' : Match.t) :
  NoDup (map fst d) -> In (k, v) d -> In (k, v') d -> v = v'.
Proof.
  induction d as [|[k0 v0] d IH]; simpl; [tauto|].
  intro ND. inversion ND as [|? ? NI ND']; subst.
  intros [E|I] [E'|I'].
  - congruence.
  - exfalso. apply NI. injection E as -> _.
    change k with (fst (k, v')). now apply in_map.
  - exfalso. apply NI. injection E' as -> _.
    change k with (fst (k, v)). now apply in_map.
  - now apply IH.
Qed.

Lemma dedup_inv_nil : dedup_inv [] [].
Proof.
  split; [constructor|split].
  - intros k v [].
  - intro id. simpl. tauto.
Qed.

Lemma dedup_step_inv (d : faq_dict) (seen : list Match.t) (m : Match.t) :
  dedup_inv d seen -> dedup_inv (dedup_step d m) (seen ++ [m]).
Proof.
  intros (ND & VAL & KEYS). unfold dedup_step.
  destruct (dict_get d (Match.faq_id m)) as [old|] eqn:G.
  - (* the id has a candidate already *)
    pose proof (dict_get_some _ _ _ G) as Iold.
    assert (Ik : In (Match.faq_id m) (map fst d)).
    { change (Match.faq_id m) with (fst (Match.faq_id m, old)).
      now apply in_map. }
    destruct (VAL _ _ Iold) as (_ & _ & MAXold).
    destruct (Py.gt (Match.similarity m) (Match.similarity old)) eqn:C.
    + apply gt_true in C. repeat split.
      * now rewrite dict_set_keys_present.
      * destruct (dict_set_inv _ _ _ _ _ ND H) as [[-> ->]|[NE I]];
          [reflexivity | apply (VAL _ _ I)].
      * apply in_or_app.
        destruct (dict_set_inv _ _ _ _ _ ND H) as [[-> ->]|[NE I]];
          [right; now left | left; apply (VAL _ _ I)].
      * intros m' I' E.
        destruct (dict_set_inv _ _ _ _ _ ND H) as [[-> ->]|[NE I]].
        -- apply in_app_or in I'. destruct I' as [I'|[<-|[]]].
           ++ apply Qle_trans with (Match.similarity old);
                [now apply MAXold | now apply Qlt_le_weak].
           ++ apply Qle_refl.
        -- apply in_app_or in I'. destruct I' as [I'|[<-|[]]].
           ++ now apply (VAL _ _ I).
           ++ congruence.
      * rewrite dict_set_keys_present by assumption.
        rewrite map_app, in_app_iff. intro I. left. now apply KEYS.
      * rewrite dict_set_keys_present by assumption.
        rewrite map_app, in_app_iff. intros [I|[<-|[]]];
          [now apply KEYS | assumption].
    + apply gt_false in C. repeat split.
      * assumption.
      * apply (VAL _ _ H).
      * apply in_or_app. left. apply (VAL _ _ H).
      * intros m' I' E.
        apply in_app_or in I'. destruct I' as [I'|[<-|[]]].
        -- now apply (VAL _ _ H).
        -- assert (v = old) as ->; [|assumption].
           subst k. apply dict_get_some in G.
           exact (dict_functional _ _ _ _ ND H G).
      * rewrite map_app, in_app_iff. intro I. left. now apply KEYS.
      * rewrite map_app, in_app_iff. intros [I|[<-|[]]];
          [now apply KEYS | assumption].
  - (* a new id *)
    apply dict_get_none in G.
    assert (Fresh : forall m', In m' seen -> Match.faq_id m' <> Match.faq_id m).
    { intros m' I' E. apply G. apply KEYS. rewrite <- E. now apply in_map. }
    repeat split.
    + rewrite dict_set_keys_absent by assumption.
      apply NoDup_app; [assumption | repeat constructor; simpl; tauto |].
      intros x Ix [<-|[]]. contradiction.
    + destruct (dict_set_inv _ _ _ _ _ ND H) as [[-> ->]|[NE I]];
        [reflexivity | apply (VAL _ _ I)].
    + apply in_or_app.
      destruct (dict_set_inv _ _ _ _ _ ND H) as [[-> ->]|[NE I]];
        [right; now left | left; apply (VAL _ _ I)].
    + intros m' I' E.
      destruct (dict_set_inv _ _ _ _ _ ND H) as [[-> ->]|[NE I]].
      * apply in_app_or in I'. destruct I' as [I'|[<-|[]]].
        -- exfalso. now apply (Fresh m').
        -- apply Qle_refl.
      * apply in_app_or in I'. destruct I' as [I'|[<-|[]]].
        -- now apply (VAL _ _ I).
        -- congruence.
    + rewrite dict_set_keys_absent by assumption.
      rewrite map_app, !in_app_iff. simpl. intros [I|I]; [left; now apply KEYS | now right].
    + rewrite dict_set_keys_absent by assumption.
      rewrite map_app, !in_app_iff. simpl. intros [I|I]; [left; now apply KEYS | now right].
Qed.

Lemma dedup_fold_inv (l : list Match.t) :
  forall d seen, dedup_inv d seen ->
                 dedup_inv (fold_left dedup_step l d) (seen ++ l).
Proof.
  induction l as [|m l IH]; intros d seen I; simpl.
  - now rewrite app_nil_r.
  - replace (seen ++ m :: l) with ((seen ++ [m]) ++ l)
      by (now rewrite <- app_assoc).
    apply IH. now apply dedup_step_inv.
Qed.

Lemma dict_values_ids (d : faq_dict) :
  (forall k v, In (k, v) d -> Match.faq_id v = k) ->
  map Match.faq_id (dict_values d) = map fst d.
Proof.
  unfold dict_values. induction d as [|[k v] d IH]; simpl; intro H.
  - reflexivity.
  - rewrite (H k v) by now left. f_equal. apply IH.
    intros k' v' I. apply H. now right.
Qed.

End FaqDict.

(** The ids of the result are distinct and come from the input. *)
Lemma deduplicate_matches_ids (matches : list Match.t) :
  NoDup (map Match.faq_id (Retrieval._deduplicate_matches matches)) /\
  (forall id, In id (map Match.faq_id (Retrieval._deduplicate_matches matches))
              -> In id (map Match.faq_id matches)).
Proof.
  destruct (dedup_fold_inv matches [] [] dedup_inv_nil) as (ND & VAL & KEYS).
  simpl in *. unfold Retrieval._deduplicate_matches.
  rewrite dict_values_ids by (intros k v I; apply (VAL _ _ I)).
  split; [exact ND | intros id I; now apply KEYS].
Qed.

(** C1.  [_deduplicate_matches] keeps exactly one candidate per id that
    occurs in its input: the ids of the result are pairwise distinct and
    are the ids of the input.  The kept candidate is one of the input, and
    no input candidate with the same id has a greater similarity. *)
Theorem deduplicate_matches_keeps_best (matches : list Match.t) :
  let deduplicated := Retrieval._deduplicate_matches matches in
  NoDup (map Match.faq_id deduplicated) /\
  (forall id, In id (map Match.faq_id deduplicated) <->
              In id (map Match.faq_id matches)) /\
  (forall m, In m deduplicated ->
     In m matches /\
     forall m', In m' matches -> Match.faq_id m' = Match.faq_id m ->
                (Match.similarity m' <= Match.similarity m)%Q).
Proof.
  intro deduplicated.
  destruct (dedup_fold_inv matches [] [] dedup_inv_nil) as (ND & VAL & KEYS).
  simpl in *.
  assert (IDS : map Match.faq_id deduplicated =
                map fst (fold_left Retrieval.dedup_step matches [])).
  { apply dict_values_ids. intros k v I. apply (VAL _ _ I). }
  split; [|split].
  - now rewrite IDS.
  - intro id. rewrite IDS. apply KEYS.
  - intros m I. unfold deduplicated, Retrieval._deduplicate_matches,
      Retrieval.dict_values in I.
    apply in_map_iff in I. destruct I as ([k v] & <- & I). simpl.
    destruct (VAL _ _ I) as (E & S & MAX). split; [assumption|].
    intros m' I' E'. apply MAX; congruence.
Qed.

(** ** Running the monad *)

Lemma run_bind {A B : Type} (m : M A) (k : A -> M B) (t : trace) :
  bind m k t =
  match m t with
  | (inl e, t') => (inl e, t')
  | (inr a, t') => k a t'
  end.
Proof. reflexivity. Qed.

Lemma run_try_except {A : Type} (body : M A) (h : exn -> M A) (t : trace) :
  try_except body h t =
  match body t with
  | (inl e, t') => h e t'
  | (inr a, t') => (inr a, t')
  end.
Proof. reflexivity. Qed.

(** ** Sorting and slicing *)

Lemma insert_desc_perm (x : Match.t) (l : list Match.t) :
  Permutation (x :: l) (Retrieval.insert_desc x l).
Proof.
  induction l as [|y l IH]; simpl; [reflexivity|].
  destruct (Py.gt (Match.similarity y) (Match.similarity x)).
  - rewrite perm_swap. now constructor.
  - reflexivity.
Qed.

Lemma sort_desc_perm (l : list Match.t) :
  Permutation l (Retrieval.sort_desc l).
Proof.
  induction l as [|x l IH]; simpl; [constructor|].
  rewrite <- insert_desc_perm. now constructor.
Qed.

Lemma insert_desc_sorted (x : Match.t) (l : list Match.t) :
  StronglySorted by_similarity_desc l ->
  StronglySorted by_similarity_desc (Retrieval.insert_desc x l).
Proof.
  induction l as [|y l IH]; simpl; intro S.
  - repeat constructor.
  - inversion S as [|? ? S' F]; subst.
    destruct (Py.gt (Match.similarity y) (Match.similarity x)) eqn:C.
    + apply gt_true in C. constructor; [now apply IH|].
      apply Forall_forall. intros z Iz.
      apply (Permutation_in _ (Permutation_sym (insert_desc_perm x l))) in Iz.
      destruct Iz as [<-|Iz].
      * now apply Qlt_le_weak.
      * rewrite Forall_forall in F. now apply F.
    + apply gt_false in C. constructor; [assumption|].
      constructor; [exact C|].
      rewrite Forall_forall in F |- *. intros z Iz.
      apply Qle_trans with (Match.similarity y); [now apply F | exact C].
Qed.

Lemma sort_desc_sorted (l : list Match.t) :
  StronglySorted by_similarity_desc (Retrieval.sort_desc l).
Proof.
  induction l as [|x l IH]; simpl; [constructor | now apply insert_desc_sorted].
Qed.

Lemma firstn_sorted {A : Type} (R : A -> A -> Prop) (n : nat) (l : list A) :
  StronglySorted R l -> StronglySorted R (firstn n l).
Proof.
  intro S. revert n. induction S as [|x l S IH F]; intro n.
  - rewrite firstn_nil. constructor.
  - destruct n; simpl; constructor; [apply IH|].
    rewrite Forall_forall in F |- *. intros y Iy. apply F.
    rewrite <- (firstn_skipn n l). apply in_or_app. now left.
Qed.

Lemma slice_to_sorted {A : Type} (R : A -> A -> Prop) (l : list A) (k : Z) :
  StronglySorted R l -> StronglySorted R (Py.slice_to l k).
Proof.
  intro S. unfold Py.slice_to. destruct (0 <=? k); now apply firstn_sorted.
Qed.

Lemma slice_to_length {A : Type} (l : list A) (k : Z) :
  (List.length (Py.slice_to l k) <= List.length l)%nat.
Proof.
  unfold Py.slice_to. destruct (0 <=? k); rewrite length_firstn; lia.
Qed.

Lemma slice_to_bound {A : Type} (l : list A) (k : Z) :
  0 <= k -> Z.of_nat (List.length (Py.slice_to l k)) <= k.
Proof.
  intro H. unfold Py.slice_to.
  destruct (Z.leb_spec 0 k); [|lia]. rewrite length_firstn. lia.
Qed.

(** ** The sub-searches never raise *)

Lemma search_faqs_table_returns (w : World) (e : vector) (k : Z) (t : trace) :
  exists l, Retrieval._search_faqs_table w e k t
            = (inr l, t ++ [ev_query_faqs e k]).
Proof.
  unfold Retrieval._search_faqs_table.
  rewrite run_try_except, run_bind. unfold call, lift, ret.
  destruct (query_faqs w t e k) as [x|rows]; [now exists []|].
  destruct (Retrieval.append_rows Retrieval.faq_match rows []) as [x|l];
    [now exists [] | now exists l].
Qed.

Lemma search_variants_table_returns (w : World) (e : vector) (k : Z) (t : trace) :
  exists l, Retrieval._search_variants_table w e k t
            = (inr l, t ++ [ev_query_variants e k]).
Proof.
  unfold Retrieval._search_variants_table.
  rewrite run_try_except, run_bind. unfold call, lift, ret.
  destruct (query_variants w t e k) as [x|rows]; [now exists []|].
  destruct (Retrieval.append_rows Retrieval.variant_match rows []) as [x|l];
    [now exists [] | now exists l].
Qed.

Lemma collect_matches_returns (w : World) (k : Z) (embs : list vector) :
  forall acc t, exists all t',
    Retrieval.collect_matches w embs k acc t = (inr all, t').
Proof.
  induction embs as [|e embs IH]; intros acc t; simpl.
  - now exists acc, t.
  - rewrite run_bind.
    destruct (search_faqs_table_returns w e k t) as (l1 & ->).
    rewrite run_bind.
    destruct (search_variants_table_returns w e k
                (t ++ [ev_query_faqs e k])) as (l2 & ->).
    apply IH.
Qed.

(** C4.  [search_similar_faqs] returns a list
    (it never raises) that is sorted by non-increasing similarity and is
    no longer than the number of distinct ids among the candidates its
    loop accumulated; when [top_k] is not negative the list has at most
    [top_k] entries. *)
Theorem search_similar_faqs_ranked (w : World) (query_embeddings : list vector)
    (top_k : Z) (t : trace) :
  exists all_matches matches t',
    Retrieval.collect_matches w query_embeddings top_k [] t
      = (inr all_matches, t') /\
    Retrieval.search_similar_faqs w query_embeddings top_k t
      = (inr matches, t') /\
    StronglySorted by_similarity_desc matches /\
    (List.length matches
       <= List.length (nodup Z.eq_dec (map Match.faq_id all_matches)))%nat /\
    (0 <= top_k -> Z.of_nat (List.length matches) <= top_k).
Proof.
  destruct (collect_matches_returns w top_k query_embeddings [] t)
    as (all & t' & C).
  exists all, (Py.slice_to
                 (Retrieval.sort_desc (Retrieval._deduplicate_matches all))
                 top_k), t'.
  split; [exact C|]. split.
  { unfold Retrieval.search_similar_faqs. rewrite run_bind, C. reflexivity. }
  split; [apply slice_to_sorted, sort_desc_sorted|]. split.
  - eapply Nat.le_trans; [apply slice_to_length|].
    rewrite <- (Permutation_length (sort_desc_perm _)).
    destruct (deduplicate_matches_ids all) as (ND & IDS).
    rewrite <- (length_map Match.faq_id).
    apply NoDup_incl_length; [exact ND|].
    intros id I. apply nodup_In. now apply IDS.
  - apply slice_to_bound.
Qed.

(** ** A failing sub-search *)




(** The primary table is down, the alias table answers: the search returns
    the alias candidate. *)
Example search_with_primary_table_down :
  Retrieval.search_similar_faqs Scenario.faqs_down_world
    [Scenario.unit_vector] 5 []
  = (inr [Match.mk 1 "How do I reset my password?"
            "Go to Settings > Security." (8 # 10) "variant"
            (Some "How to change a password")],
     [ev_query_faqs Scenario.unit_vector 5;
      ev_query_variants Scenario.unit_vector 5]).
Proof. vm_compute. reflexivity. Qed.

(** ** Cleaning of the generated variants *)

Lemma mem_In (x : string) (seen : list string) :
  Variant.mem x seen = true <-> In x seen.
Proof.
  unfold Variant.mem. rewrite existsb_exists. split.
  - intros (y & Hy & E). apply String.eqb_eq in E. now subst.
  - intros H. exists x. split; [assumption | apply String.eqb_refl].
Qed.

(** The invariant of the loop of [_clean_variants]: [cleaned] holds normal
    forms of candidates read so far, [seen] holds their lower-case forms,
    which are pairwise distinct, and [cleaned] is short of the bound. *)
Lemma clean_loop_inv (expected_count : Z) (variants : list string) :
  forall seen cleaned candidates,
    cleaned = map Variant.normalize candidates ->
    (forall x, In x seen <-> In x (map Py.lower cleaned)) ->
    NoDup (map Py.lower cleaned) ->
    Forall (fun v => v <> "") cleaned ->
    Z.of_nat (List.length cleaned) < Z.max expected_count 1 ->
    let result := Variant.clean_loop variants expected_count seen cleaned in
    (exists candidates',
       result = map Variant.normalize candidates' /\
       incl candidates' (candidates ++ variants)) /\
    NoDup (map Py.lower result) /\
    Forall (fun v => v <> "") result /\
    Z.of_nat (List.length result) <= Z.max expected_count 1.
Proof.
  induction variants as [|raw rest IH]; intros seen cleaned candidates
    CAND SEEN ND NE LEN; simpl.
  - repeat split; try assumption; [|lia].
    exists candidates. split; [assumption|]. rewrite app_nil_r. apply incl_refl.
  - destruct (String.eqb_spec (Variant.normalize raw) "") as [EMPTY|FULL];
      simpl.
    { destruct (IH seen cleaned candidates CAND SEEN ND NE LEN)
        as ((c' & E & I) & R).
      split; [|exact R]. exists c'. split; [exact E|].
      intros x Hx. apply I in Hx. apply in_app_or in Hx.
      apply in_or_app. destruct Hx; [now left | right; now right]. }
    destruct (Variant.mem (Py.lower (Variant.normalize raw)) seen) eqn:MEM.
    { destruct (IH seen cleaned candidates CAND SEEN ND NE LEN)
        as ((c' & E & I) & R).
      split; [|exact R]. exists c'. split; [exact E|].
      intros x Hx. apply I in Hx. apply in_app_or in Hx.
      apply in_or_app. destruct Hx; [now left | right; now right]. }
    assert (FRESH : ~ In (Py.lower (Variant.normalize raw))
                      (map Py.lower cleaned)).
    { intros I. apply SEEN, mem_In in I. congruence. }
    assert (CAND' : cleaned ++ [Variant.normalize raw]
                    = map Variant.normalize (candidates ++ [raw])).
    { now rewrite map_app, CAND. }
    assert (ND' : NoDup (map Py.lower (cleaned ++ [Variant.normalize raw]))).
    { rewrite map_app. apply NoDup_app; [assumption| |].
      - simpl. constructor; [intros []|constructor].
      - intros a Ia [<-|[]]. contradiction. }
    assert (NE' : Forall (fun v => v <> "")
                    (cleaned ++ [Variant.normalize raw])).
    { apply Forall_app. split; [assumption|]. now constructor. }
    assert (LEN' : List.length (cleaned ++ [Variant.normalize raw])
                   = S (List.length cleaned)).
    { rewrite length_app. simpl. lia. }
    destruct (Z.geb_spec
                (Z.of_nat (List.length (cleaned ++ [Variant.normalize raw])))
                expected_count) as [STOP|GO].
    + repeat split; try assumption; [|lia].
      exists (candidates ++ [raw]). split; [assumption|].
      intros x Hx. apply in_app_or in Hx. apply in_or_app.
      destruct Hx as [Hx|[<-|[]]]; [now left | right; now left].
    + destruct (IH (Py.lower (Variant.normalize raw) :: seen)
                  (cleaned ++ [Variant.normalize raw]) (candidates ++ [raw]))
        as ((c' & E & I) & R); try assumption; [|lia|].
      { intros x. rewrite map_app, in_app_iff. simpl. rewrite SEEN. tauto. }
      split; [|exact R]. exists c'. split; [exact E|].
      intros x Hx. apply I in Hx. rewrite <- app_assoc in Hx. exact Hx.
Qed.

Lemma clean_variants_spec (variants : list string) (expected_count : Z) :
  let result := Variant._clean_variants variants expected_count in
  (exists candidates,
     result = map Variant.normalize candidates /\ incl candidates variants) /\
  NoDup (map Py.lower result) /\
  Forall (fun v => v <> "") result /\
  Z.of_nat (List.length result) <= Z.max expected_count 1.
Proof.
  unfold Variant._clean_variants.
  apply (clean_loop_inv expected_count variants [] [] []);
    simpl; try reflexivity; try constructor; try tauto; lia.
Qed.

(** Whatever [_parse_response] returns went through [_clean_variants]. *)
Lemma parse_response_cleaned (response : string) (expected_count : Z)
    (variants : list string) :
  Variant._parse_response response expected_count = inr variants ->
  exists raw, variants = Variant._clean_variants raw expected_count.
Proof.
  unfold Variant._parse_response.
  destruct (Variant.parse_object response) as [[| | | |msg]|raw];
    intros E; inversion E; eauto.
Qed.

(** C5.  [generate_variants] returns a list for every text, [n] and
    temperature (it never raises); the list has at most
    [min(max(n,1),10)] entries; the entries are normal forms (white space
    collapsed, trimmed, quotes stripped) of candidates, none of them empty
    and no two of them equal up to case as they are returned; the model,
    if it is called at all, is called once, with [n] and the temperature
    clamped. *)
Theorem generate_variants_bounded (w : World) (text : string) (n : Z)
    (temperature : Q) (t : trace) :
  exists variants candidates t',
    Variant.generate_variants w text n temperature t = (inr variants, t') /\
    (t' = t \/
     t' = t ++ [ev_variant_chain text (Z.max 1 (Z.min n 10))
                  (Py.max 0 (Py.min temperature 1))]) /\
    Z.of_nat (List.length variants) <= Z.min (Z.max n 1) 10 /\
    variants = map Variant.normalize candidates /\
    NoDup (map Py.lower variants) /\
    Forall (fun v => v <> "") variants.
Proof.
  assert (NIL : forall t' : trace,
            t' = t \/
            t' = t ++ [ev_variant_chain text (Z.max 1 (Z.min n 10))
                         (Py.max 0 (Py.min temperature 1))] ->
            exists variants candidates t'',
              (@inr exn (list string) [], t') = (inr variants, t'') /\
              (t'' = t \/
               t'' = t ++ [ev_variant_chain text (Z.max 1 (Z.min n 10))
                             (Py.max 0 (Py.min temperature 1))]) /\
              Z.of_nat (List.length variants) <= Z.min (Z.max n 1) 10 /\
              variants = map Variant.normalize candidates /\
              NoDup (map Py.lower variants) /\
              Forall (fun v => v <> "") variants).
  { intros t' Ht. exists [], [], t'. simpl.
    repeat split; try assumption; try constructor; lia. }
  unfold Variant.generate_variants.
  destruct (String.eqb text "" || String.eqb (Py.strip text) "")%bool.
  - apply NIL. now left.
  - rewrite run_try_except, run_bind. unfold call, lift, ret.
    destruct (chain_invoke w t text (Z.max 1 (Z.min n 10))
                (Py.max 0 (Py.min temperature 1))) as [e|response];
      [apply NIL; now right|].
    destruct (Variant._parse_response response (Z.max 1 (Z.min n 10)))
      as [e|variants] eqn:PARSE; [apply NIL; now right|].
    destruct (parse_response_cleaned _ _ _ PARSE) as (raw & ->).
    destruct (clean_variants_spec raw (Z.max 1 (Z.min n 10)))
      as ((candidates & E & _) & ND & NE & LEN).
    exists (Variant._clean_variants raw (Z.max 1 (Z.min n 10))), candidates.
    eexists. split; [reflexivity|]. split; [now right|].
    repeat split; try assumption. lia.
Qed.

(** The answer the prompt asks for, with a repetition and stray quotes:
    three candidates, two variants. *)
Example generate_variants_run :
  Variant._clean_variants
    ["  How   to reset it? "; "how to RESET it?"; "'Where do I change it?'"] 3
  = ["How to reset it?"; "Where do I change it?"].
Proof. vm_compute. reflexivity. Qed.

(** The normal form is computed in one pass: quotes are stripped after the
    blanks, so blanks that the quotes protected stay, and the two entries
    below differ as the loop compares them. *)
Example clean_variants_single_pass :
  Variant._clean_variants ["' a '"; "a"] 3 = [" a "; "a"].
Proof. vm_compute. reflexivity. Qed.

(** ** A bare array as the answer of the model *)

Lemma parse_response_bare_array (response : string) (expected_count : Z)
    (items : list Json.value) :
  Json.loads response = inr (Json.Arr items) ->
  Variant._parse_response response expected_count = inl Py.TypeError.
Proof.
  intros LOADS. unfold Variant._parse_response, Variant.parse_object.
  now rewrite LOADS.
Qed.

(** C8, as the code behaves.  When the answer of the model is a valid JSON
    array, [json.loads] succeeds and the subscript [parsed["paraphrases"]]
    raises [TypeError]; the handler of [_parse_response] only catches
    [JSONDecodeError], so the error leaves [_parse_response] and
    [generate_variants] turns it into the empty list: the variants in the
    array are lost. *)
Theorem generate_variants_drops_bare_array (w : World) (text : string)
    (n : Z) (temperature : Q) (t : trace) (response : string)
    (items : list Json.value) :
  (String.eqb text "" || String.eqb (Py.strip text) "")%bool = false ->
  chain_invoke w t text (Z.max 1 (Z.min n 10))
    (Py.max 0 (Py.min temperature 1)) = inr response ->
  Json.loads response = inr (Json.Arr items) ->
  Variant._parse_response response (Z.max 1 (Z.min n 10)) = inl Py.TypeError /\
  Variant.generate_variants w text n temperature t
  = (inr [], t ++ [ev_variant_chain text (Z.max 1 (Z.min n 10))
                     (Py.max 0 (Py.min temperature 1))]).
Proof.
  intros TEXT CHAIN LOADS.
  pose proof (parse_response_bare_array response (Z.max 1 (Z.min n 10))
                items LOADS) as PARSE.
  split; [exact PARSE|].
  unfold Variant.generate_variants. rewrite TEXT.
  rewrite run_try_except, run_bind. unfold call, lift, ret.
  now rewrite CHAIN, PARSE.
Qed.

(** The run of the service on a bare array of two paraphrases. *)
Lemma generate_variants_drops_bare_array_witness :
  Variant._parse_response Scenario.bare_array 3 = inl Py.TypeError /\
  Variant.generate_variants Scenario.bare_array_world Scenario.question 3
    (7 # 10) []
  = (inr [], [ev_variant_chain Scenario.question 3 (7 # 10)]).
Proof.
  refine (generate_variants_drops_bare_array Scenario.bare_array_world
            Scenario.question 3 (7 # 10) [] Scenario.bare_array
            [Json.Str "How to reset it?"; Json.Str "Where do I change it?"]
            _ _ _); vm_compute; reflexivity.
Defined.

(** The same two paraphrases in the three shapes: under the key and inside
    a sentence they are found, alone they are not; cleaning the items of
    the bare array would have given both. *)
Example parse_response_shapes :
  Variant._parse_response Scenario.wrapped_array 3
  = inr ["How to reset it?"; "Where do I change it?"] /\
  Variant._parse_response Scenario.array_in_prose 3
  = inr ["How to reset it?"; "Where do I change it?"] /\
  Variant._parse_response Scenario.bare_array 3 = inl Py.TypeError /\
  Variant._clean_variants
    (map Json.str
       [Json.Str "How to reset it?"; Json.Str "Where do I change it?"]) 3
  = ["How to reset it?"; "Where do I change it?"].
Proof. vm_compute. repeat split. Qed.

(** ** The top level of [answer_question] *)

Lemma on_error_returns (w : World) (start_time : Q) (e : exn) (t : trace) :
  QA.on_error w start_time e t
  = (inr (QA.error_response
            (Py.round2 ((time_time w t - start_time) * 1000)%Q)),
     t ++ [ev_time]).
Proof. reflexivity. Qed.

Lemma answer_question_run (w : World) (self : QA.QuestionAnsweringService)
    (q : string) (gv : bool) (nv : Z) (t : trace) :
  QA.answer_question w self q gv nv t
  = match QA.answer_body w self q gv nv (time_time w t) (t ++ [ev_time]) with
    | (inl e, t1) =>
        (inr (QA.error_response
                (Py.round2 ((time_time w t1 - time_time w t) * 1000)%Q)),
         t1 ++ [ev_time])
    | (inr r, t1) => (inr r, t1)
    end.
Proof.
  unfold QA.answer_question. rewrite run_bind. unfold now.
  rewrite run_try_except.
  destruct (QA.answer_body w self q gv nv (time_time w t) (t ++ [ev_time]))
    as [[e|r] t1]; [apply on_error_returns | reflexivity].
Qed.

Lemma answer_body_classifier_raises (w : World)
    (self : QA.QuestionAnsweringService) (q : string) (gv : bool) (nv : Z)
    (start_time : Q) (t : trace) (e : exn) :
  llm_router_invoke w t q = inl e ->
  QA.answer_body w self q gv nv start_time t = (inl e, t ++ [ev_router q]).
Proof.
  intros ROUTER. unfold QA.answer_body. rewrite run_bind. unfold call.
  now rewrite ROUTER.
Qed.

Lemma answer_body_general (w : World) (self : QA.QuestionAnsweringService)
    (q : string) (gv : bool) (nv : Z) (start_time : Q) (t : trace)
    (category : string) :
  llm_router_invoke w t q = inr category ->
  Py.contains "general" (Py.lower category) = true ->
  QA.answer_body w self q gv nv start_time t
  = (inr (QA.general_response
            (Py.round2
               ((time_time w (t ++ [ev_router q]) - start_time) * 1000)%Q)),
     (t ++ [ev_router q]) ++ [ev_time]).
Proof.
  intros ROUTER GENERAL. unfold QA.answer_body. rewrite run_bind.
  unfold call. rewrite ROUTER, GENERAL. reflexivity.
Qed.

Lemma answer_body_continues (w : World) (self : QA.QuestionAnsweringService)
    (q : string) (gv : bool) (nv : Z) (start_time : Q) (t : trace)
    (category : string) :
  llm_router_invoke w t q = inr category ->
  Py.contains "general" (Py.lower category) = false ->
  QA.answer_body w self q gv nv start_time t
  = (variants <-
       (if gv then QA.variant_service self q nv (7 # 10) else ret []) ;;
     ' (matches, embeddings) <- QA.retrieval_service self q variants 5 ;;
     QA.decide w q gv variants matches start_time) (t ++ [ev_router q]).
Proof.
  intros ROUTER OTHER. unfold QA.answer_body. rewrite run_bind.
  unfold call. rewrite ROUTER, OTHER. reflexivity.
Qed.

(** C3.  When the classifier returns a label that contains [general] in
    any case, [answer_question] returns the canned refusal with source
    [llm], confidence 1, no matched entry, no candidates and no variants;
    the only calls on record are the two readings of the clock and the
    call to the classifier, whatever the variant and retrieval services
    are: neither is invoked, nothing is embedded, nothing is searched. *)
Theorem general_question_short_circuits (w : World)
    (self : QA.QuestionAnsweringService) (q : string) (gv : bool) (nv : Z)
    (t : trace) (category : string) :
  llm_router_invoke w (t ++ [ev_time]) q = inr category ->
  Py.contains "general" (Py.lower category) = true ->
  exists r,
    QA.answer_question w self q gv nv t
    = (inr r, t ++ [ev_time; ev_router q; ev_time]) /\
    QuestionResponse.answer r = QA.default_general_answer /\
    QuestionResponse.source r = "llm" /\
    QuestionResponse.confidence r = 1%Q /\
    QuestionResponse.matched_faq r = None /\
    QuestionResponse.all_matches r = [] /\
    QuestionResponse.generated_variants r = None /\
    QuestionResponse.processing_time_ms r
    = Py.round2
        ((time_time w (t ++ [ev_time; ev_router q]) - time_time w t) * 1000)%Q.
Proof.
  intros ROUTER GENERAL. eexists. split.
  - rewrite answer_question_run.
    rewrite (answer_body_general _ _ _ _ _ _ _ _ ROUTER GENERAL).
    rewrite <- !app_assoc. simpl. reflexivity.
  - repeat split.
Qed.

(** The deployed service on a question the classifier labels General. *)
Lemma general_question_short_circuits_witness :
  exists r,
    QA.answer_question Scenario.general_world
      (QA.qa_service Scenario.general_world) Scenario.question true 3 []
    = (inr r, [ev_time; ev_router Scenario.question; ev_time]) /\
    QuestionResponse.answer r = QA.default_general_answer /\
    QuestionResponse.source r = "llm" /\
    QuestionResponse.confidence r = 1%Q /\
    QuestionResponse.matched_faq r = None /\
    QuestionResponse.all_matches r = [] /\
    QuestionResponse.generated_variants r = None /\
    QuestionResponse.processing_time_ms r = 200 # 100.
Proof.
  exact (general_question_short_circuits Scenario.general_world
           (QA.qa_service Scenario.general_world) Scenario.question true 3 []
           "General" eq_refl eq_refl).
Defined.

(** C6.  [answer_question] returns a response for every input, world and
    pair of services: it never raises.  Whenever the body of its [try]
    raises, the response is the error response (source [error],
    confidence 0, the fixed apology, nothing else) with the time measured
    when the handler runs.  The body raises when the classifier raises,
    when variant generation raises, when the retrieval service (which
    embeds and searches) raises, and when the decision or the assembly of
    the response raises. *)
Theorem answer_question_never_raises (w : World)
    (self : QA.QuestionAnsweringService) (q : string) (gv : bool) (nv : Z)
    (t : trace) :
  (exists r t', QA.answer_question w self q gv nv t = (inr r, t')) /\
  (forall e t1,
     QA.answer_body w self q gv nv (time_time w t) (t ++ [ev_time])
     = (inl e, t1) ->
     exists r,
       QA.answer_question w self q gv nv t = (inr r, t1 ++ [ev_time]) /\
       QuestionResponse.source r = "error" /\
       QuestionResponse.confidence r = 0%Q /\
       QuestionResponse.answer r = QA.error_answer /\
       QuestionResponse.matched_faq r = None /\
       QuestionResponse.all_matches r = [] /\
       QuestionResponse.generated_variants r = None /\
       QuestionResponse.processing_time_ms r
       = Py.round2 ((time_time w t1 - time_time w t) * 1000)%Q) /\
  (forall e,
     llm_router_invoke w (t ++ [ev_time]) q = inl e ->
     QA.answer_body w self q gv nv (time_time w t) (t ++ [ev_time])
     = (inl e, t ++ [ev_time; ev_router q])) /\
  (forall category e t1,
     llm_router_invoke w (t ++ [ev_time]) q = inr category ->
     Py.contains "general" (Py.lower category) = false ->
     (if gv then QA.variant_service self q nv (7 # 10) else ret [])
       (t ++ [ev_time; ev_router q]) = (inl e, t1) ->
     QA.answer_body w self q gv nv (time_time w t) (t ++ [ev_time])
     = (inl e, t1)) /\
  (forall category variants t1 e t2,
     llm_router_invoke w (t ++ [ev_time]) q = inr category ->
     Py.contains "general" (Py.lower category) = false ->
     (if gv then QA.variant_service self q nv (7 # 10) else ret [])
       (t ++ [ev_time; ev_router q]) = (inr variants, t1) ->
     QA.retrieval_service self q variants 5 t1 = (inl e, t2) ->
     QA.answer_body w self q gv nv (time_time w t) (t ++ [ev_time])
     = (inl e, t2)) /\
  (forall category variants t1 matches embeddings t2 e t3,
     llm_router_invoke w (t ++ [ev_time]) q = inr category ->
     Py.contains "general" (Py.lower category) = false ->
     (if gv then QA.variant_service self q nv (7 # 10) else ret [])
       (t ++ [ev_time; ev_router q]) = (inr variants, t1) ->
     QA.retrieval_service self q variants 5 t1
     = (inr (matches, embeddings), t2) ->
     QA.decide w q gv variants matches (time_time w t) t2 = (inl e, t3) ->
     QA.answer_body w self q gv nv (time_time w t) (t ++ [ev_time])
     = (inl e, t3)).
Proof.
  assert (TR : (t ++ [ev_time]) ++ [ev_router q]
               = t ++ [ev_time; ev_router q])
    by now rewrite <- app_assoc.
  split; [|split; [|split; [|split; [|split]]]].
  - rewrite answer_question_run.
    destruct (QA.answer_body w self q gv nv (time_time w t) (t ++ [ev_time]))
      as [[e|r] t1]; eexists; eexists; reflexivity.
  - intros e t1 BODY. rewrite answer_question_run, BODY.
    eexists. split; [reflexivity|]. repeat split.
  - intros e ROUTER. rewrite <- TR.
    now apply answer_body_classifier_raises.
  - intros category e t1 ROUTER OTHER VARIANTS.
    rewrite (answer_body_continues _ _ _ _ _ _ _ _ ROUTER OTHER), TR.
    rewrite run_bind. now rewrite VARIANTS.
  - intros category variants t1 e t2 ROUTER OTHER VARIANTS SEARCH.
    rewrite (answer_body_continues _ _ _ _ _ _ _ _ ROUTER OTHER), TR.
    rewrite run_bind, VARIANTS, run_bind. now rewrite SEARCH.
  - intros category variants t1 matches embeddings t2 e t3 ROUTER OTHER
      VARIANTS SEARCH DECIDE.
    rewrite (answer_body_continues _ _ _ _ _ _ _ _ ROUTER OTHER), TR.
    rewrite run_bind, VARIANTS, run_bind. now rewrite SEARCH.
Qed.

(** The embedding endpoint is down: the deployed service answers with the
    error response, after one attempt to embed the question. *)
Example answer_question_embedding_down :
  QA.answer_question Scenario.embed_down_world
    (QA.qa_service Scenario.embed_down_world) Scenario.question false 3 []
  = (inr (QA.error_response (300 # 100)),
     [ev_time; ev_router Scenario.question; ev_embed Scenario.question;
      ev_time]).
Proof. vm_compute. reflexivity. Qed.

(** C9, on a run.  The classifier is down: the question is not treated as
    another category, the response is the error response, and neither
    variant generation nor retrieval has been called. *)
Lemma classifier_failure_aborts :
  QA.answer_question Scenario.router_down_world
    (QA.qa_service Scenario.router_down_world) Scenario.question true 3 []
  = (inr (QA.error_response (200 # 100)),
     [ev_time; ev_router Scenario.question; ev_time]) /\
  QuestionResponse.source (QA.error_response (200 # 100)) = "error".
Proof. split; vm_compute; reflexivity. Qed.

(** C9, as the code behaves.  The call to the classifier stands inside the
    [try] of [answer_question] with no handler of its own: when it raises,
    the request ends with the error response; the services for variants
    and retrieval are not called, whatever they are. *)
Theorem classifier_failure_gives_error_response (w : World)
    (self : QA.QuestionAnsweringService) (q : string) (gv : bool) (nv : Z)
    (t : trace) (e : exn) :
  llm_router_invoke w (t ++ [ev_time]) q = inl e ->
  QA.answer_question w self q gv nv t
  = (inr (QA.error_response
            (Py.round2
               ((time_time w (t ++ [ev_time; ev_router q]) - time_time w t)
                * 1000)%Q)),
     t ++ [ev_time; ev_router q; ev_time]).
Proof.
  intros ROUTER. rewrite answer_question_run.
  rewrite (answer_body_classifier_raises _ _ _ _ _ _ _ _ ROUTER).
  rewrite <- !app_assoc. reflexivity.
Qed.

(** The deployed service with the classifier down. *)
Lemma classifier_failure_gives_error_response_witness :
  QA.answer_question Scenario.router_down_world
    (QA.qa_service Scenario.router_down_world) Scenario.question true 3 []
  = (inr (QA.error_response (200 # 100)),
     [ev_time; ev_router Scenario.question; ev_time]).
Proof.
  exact (classifier_failure_gives_error_response Scenario.router_down_world
           (QA.qa_service Scenario.router_down_world) Scenario.question true
           3 [] (Py.ExternalError "unavailable") eq_refl).
Defined.

(** ** The decision and the assembly of the response *)

Lemma build_similar_match_valid (m : Match.t) :
  valid_similarity m ->
  QA._build_similar_match m = inr (similar_match_of m).
Proof.
  unfold valid_similarity, QA._build_similar_match, SimilarMatch.create.
  now intros ->.
Qed.


Lemma build_best_valid (matches : list Match.t) :
  Forall valid_similarity matches ->
  QA.build_best (hd_error matches)
  = inr (option_map similar_match_of (hd_error matches)).
Proof.
  intros [|m rest VALID _]; simpl; [reflexivity|].
  now rewrite (build_similar_match_valid m VALID).
Qed.

Lemma confidence_valid (matches : list Match.t) :
  Forall valid_similarity matches ->
  in_unit_interval (QA.confidence_of (hd_error matches)) = true.
Proof. intros [|m rest VALID _]; simpl; [reflexivity | exact VALID]. Qed.




(** [_generate_llm_answer] always returns a string. *)
Lemma generate_llm_answer_returns (w : World) (q : string)
    (matches : list Match.t) (t : trace) :
  exists answer t1,
    QA._generate_llm_answer w q matches t = (inr answer, t1).
Proof.
  unfold QA._generate_llm_answer. rewrite run_try_except, run_bind.
  destruct (QA.invoke_chain w q matches t) as [[e|a] t1];
    eexists; eexists; reflexivity.
Qed.


(** The body of [answer_question] once the classifier, the variants and
    the search have returned. *)
Lemma answer_body_decides (w : World) (self : QA.QuestionAnsweringService)
    (q : string) (gv : bool) (nv : Z) (start_time : Q) (t : trace)
    (category : string) (variants : list string) (t1 : trace)
    (matches : list Match.t) (embeddings : list vector) (t2 : trace) :
  llm_router_invoke w t q = inr category ->
  Py.contains "general" (Py.lower category) = false ->
  (if gv then QA.variant_service self q nv (7 # 10) else ret [])
    (t ++ [ev_router q]) = (inr variants, t1) ->
  QA.retrieval_service self q variants 5 t1
  = (inr (matches, embeddings), t2) ->
  QA.answer_body w self q gv nv start_time t
  = QA.decide w q gv variants matches start_time t2.
Proof.
  intros ROUTER OTHER VARIANTS SEARCH.
  rewrite (answer_body_continues _ _ _ _ _ _ _ _ ROUTER OTHER).
  rewrite run_bind, VARIANTS, run_bind. now rewrite SEARCH.
Qed.




(** The two sides of the threshold: at 0.75 the stored answer, at 0.7499 a
    generated one. *)
Example threshold_boundary :
  (let w := Scenario.near_world (75 # 100) (inr " Use the security page. ") in
   option_map (fun r => (QuestionResponse.source r, QuestionResponse.answer r))
     (match fst (QA.answer_question w (QA.qa_service w) Scenario.question
                   false 3 []) with inr r => Some r | inl _ => None end))
  = Some ("database", "Go to Settings > Security.") /\
  (let w :=
     Scenario.near_world (7499 # 10000) (inr " Use the security page. ") in
   option_map (fun r => (QuestionResponse.source r, QuestionResponse.answer r))
     (match fst (QA.answer_question w (QA.qa_service w) Scenario.question
                   false 3 []) with inr r => Some r | inl _ => None end))
  = Some ("llm", "Use the security page.").
Proof. split; vm_compute; reflexivity. Qed.




(* ------------------------------------------------------------------ *)
(** ** More on [variant_service.py] *)

Lemma clean_loop_as_pipeline (expected_count : Z) (variants : list string) :
  forall seen cleaned,
    Z.of_nat (List.length cleaned) < Z.max expected_count 1 ->
    Variant.clean_loop variants expected_count seen cleaned
    = firstn (Z.to_nat (Z.max expected_count 1))
        (cleaned ++
         first_by String.eqb Py.lower seen
           (filter (fun v => negb (String.eqb v ""))
              (map Variant.normalize variants))).
Proof.
  induction variants as [|raw rest IH]; intros seen cleaned LEN.
  - simpl. rewrite app_nil_r. symmetry. apply firstn_all2. lia.
  - cbn [Variant.clean_loop map filter].
    destruct (String.eqb_spec (Variant.normalize raw) "") as [EMPTY|FULL];
      cbn [orb negb]; [now apply IH|].
    cbn [first_by]. fold (Variant.mem (Py.lower (Variant.normalize raw)) seen).
    destruct (Variant.mem (Py.lower (Variant.normalize raw)) seen);
      [now apply IH|].
    assert (LEN' : List.length (cleaned ++ [Variant.normalize raw])
                   = S (List.length cleaned))
      by (rewrite length_app; simpl; lia).
    destruct (Z.geb_spec
                (Z.of_nat (List.length (cleaned ++ [Variant.normalize raw])))
                expected_count) as [STOP|GO].
    + match goal with
      | |- _ = firstn _ (cleaned ++ ?v :: ?X) =>
          change (cleaned ++ v :: X) with (cleaned ++ [v] ++ X)
      end.
      rewrite app_assoc.
      replace (Z.to_nat (Z.max expected_count 1))
        with (List.length (cleaned ++ [Variant.normalize raw]) + 0)%nat
        by lia.
      rewrite firstn_app_2. simpl. now rewrite app_nil_r.
    + rewrite IH by lia. now rewrite <- app_assoc.
Qed.

(** X1.  [_clean_variants] computes, with its loop and its early exit, the
    first [max(expected_count, 1)] entries of the list of distinct normal
    forms: candidates are normalised, empty ones dropped, later
    repetitions up to case dropped, order kept. *)
Theorem clean_variants_as_pipeline (variants : list string)
    (expected_count : Z) :
  Variant._clean_variants variants expected_count
  = firstn (Z.to_nat (Z.max expected_count 1))
      (distinct_normal_forms variants).
Proof.
  unfold Variant._clean_variants, distinct_normal_forms.
  rewrite clean_loop_as_pipeline by (simpl; lia). reflexivity.
Qed.

Lemma first_by_nil {A K : Type} (eqb : K -> K -> bool) (key : A -> K)
    (l : list A) :
  first_by eqb key [] l = [] <-> l = [].
Proof. destruct l; simpl; split; congruence. Qed.

Lemma filter_nil_iff {A : Type} (f : A -> bool) (l : list A) :
  filter f l = [] <-> Forall (fun x => f x = false) l.
Proof.
  induction l as [|x l IH]; simpl.
  - split; [constructor | reflexivity].
  - destruct (f x) eqn:E; split.
    + discriminate.
    + intros H. inversion H. congruence.
    + intros H. constructor; [assumption | now apply IH].
    + intros H. inversion H. now apply IH.
Qed.

(** X2.  [_clean_variants] returns the empty list exactly when every
    candidate has an empty normal form; this holds for every bound, so a
    bound of zero or below still lets the first proper candidate
    through. *)
Theorem clean_variants_empty_iff (variants : list string)
    (expected_count : Z) :
  Variant._clean_variants variants expected_count = [] <->
  Forall (fun v => Variant.normalize v = "") variants.
Proof.
  unfold Variant._clean_variants.
  rewrite clean_loop_as_pipeline by (simpl; lia). simpl app.
  assert (POS : exists n, Z.to_nat (Z.max expected_count 1) = S n)
    by (exists (Z.to_nat (Z.max expected_count 1) - 1)%nat; lia).
  destruct POS as (n & ->).
  transitivity
    (first_by String.eqb Py.lower []
       (filter (fun v => negb (String.eqb v ""))
          (map Variant.normalize variants)) = []).
  { destruct (first_by _ _ _ _); simpl; split; congruence. }
  rewrite first_by_nil, filter_nil_iff, Forall_map.
  split; apply Forall_impl; intros v;
    destruct (String.eqb_spec (Variant.normalize v) ""); simpl; congruence.
Qed.

(** The bound at zero: one variant comes back. *)
Example clean_variants_zero_bound :
  Variant._clean_variants ["  "; "First?"; "Second?"] 0 = ["First?"].
Proof. vm_compute. reflexivity. Qed.

(** X3.  [_parse_response] never lets a [JSONDecodeError] out: when
    [json.loads] raises it, the result is the cleaned salvage of the first
    bracketed span.  An exception that leaves [_parse_response] is either
    one that [json.loads] raised, and then not [JSONDecodeError], or the
    [TypeError] or [KeyError] of the subscript or of the iteration on a
    text that [json.loads] accepted. *)
Theorem parse_response_escapes (response : string) (expected_count : Z) :
  (Json.loads response = inl Py.JSONDecodeError ->
   Variant._parse_response response expected_count
   = inr (Variant._clean_variants (Variant.salvage response)
            expected_count)) /\
  (forall e,
     Variant._parse_response response expected_count = inl e ->
     e <> Py.JSONDecodeError /\
     (Json.loads response = inl e \/
      (exists parsed, Json.loads response = inr parsed) /\
      (e = Py.TypeError \/ e = Py.KeyError))).
Proof.
  unfold Variant._parse_response, Variant.parse_object. split.
  - intros LOADS. now rewrite LOADS.
  - intros e. destruct (Json.loads response) as [e0|parsed] eqn:LOADS.
    + destruct e0; try discriminate;
        (intros [= <-]; split; [discriminate | now left]).
    + intros RAISED.
      assert (KIND : e = Py.TypeError \/ e = Py.KeyError).
      { destruct parsed as [| | | | |items|members]; simpl in RAISED;
          try (injection RAISED as <-; now left).
        destruct (Json.get_member members "paraphrases") as [v|];
          [|injection RAISED as <-; now right].
        unfold Variant.strs_of in RAISED.
        destruct v; simpl in RAISED; try discriminate;
          injection RAISED as <-; now left. }
      split; [destruct KIND as [->| ->]; discriminate|].
      right. split; [now exists parsed | exact KIND].
Qed.

(** ** The pattern of the salvage *)

Lemma has_char_app (c : ascii) (a b : string) :
  Json.has_char c (a ++ b)%string
  = (Json.has_char c a || Json.has_char c b)%bool.
Proof.
  unfold Json.has_char. induction a as [|x a IH]; simpl; [reflexivity|].
  now rewrite IH, orb_assoc.
Qed.

Lemma has_char_cons_false (c a : ascii) (s : string) :
  Json.has_char c (String a s) = false <->
  a <> c /\ Json.has_char c s = false.
Proof.
  change (Json.has_char c (String a s))
    with (Ascii.eqb c a || Json.has_char c s)%bool.
  rewrite orb_false_iff. destruct (Ascii.eqb_spec c a) as [->|NE].
  - split; [intros (H & _); discriminate | intros (H & _); congruence].
  - split; intros (_ & H); split; congruence.
Qed.

Lemma has_char_found (c : ascii) (a b : string) :
  Json.has_char c (a ++ String c b)%string = true.
Proof.
  rewrite has_char_app.
  change (Json.has_char c (String c b))
    with (Ascii.eqb c c || Json.has_char c b)%bool.
  rewrite Ascii.eqb_refl. apply orb_true_r.
Qed.

Lemma upto_close_spec (r m : string) :
  Variant.upto_close r = Some m <->
  exists body post,
    r = (body ++ String "]" post)%string /\
    Json.has_char "]" body = false /\
    m = (body ++ "]")%string.
Proof.
  revert m. induction r as [|c r IH]; intros m; cbn [Variant.upto_close].
  - split; [discriminate|]. intros (body & post & E & _).
    destruct body; discriminate.
  - destruct (Ascii.eqb_spec c "]") as [->|NE].
    + split.
      * intros [= <-]. now exists EmptyString, r.
      * intros (body & post & E & NO & ->).
        destruct body as [|b body]; [reflexivity|].
        cbn [String.append] in E. injection E as <- _.
        apply has_char_cons_false in NO. now destruct NO.
    + split.
      * destruct (Variant.upto_close r) as [m'|] eqn:U; [|discriminate].
        intros [= <-].
        destruct (proj1 (IH m') eq_refl) as (body & post & -> & NO & ->).
        exists (String c body), post. repeat split.
        apply has_char_cons_false. now split.
      * intros (body & post & E & NO & ->).
        destruct body as [|b body].
        { cbn [String.append] in E. injection E as -> _. congruence. }
        cbn [String.append] in E. injection E as <- ->.
        apply has_char_cons_false in NO. destruct NO as (_ & NO).
        rewrite (proj2 (IH (body ++ "]")%string)); [reflexivity|].
        now exists body, post.
Qed.

Lemma upto_close_none (r : string) :
  Variant.upto_close r = None <-> Json.has_char "]" r = false.
Proof.
  induction r as [|c r IH]; cbn [Variant.upto_close]; [now split|].
  rewrite has_char_cons_false.
  destruct (Ascii.eqb_spec c "]") as [->|NE].
  - split; [discriminate | intros (H & _); congruence].
  - destruct (Variant.upto_close r); cbn [option_map].
    + split; [discriminate|]. intros (_ & H). apply IH in H. discriminate.
    + split; [|reflexivity]. intros _. split; [assumption | now apply IH].
Qed.

(** X4.  The pattern of the salvage, an opening bracket, as little as
    possible, a closing bracket, matches the span from the first opening
    bracket of the response to the first closing bracket after it, and
    nothing when no closing bracket follows an opening one. *)
Theorem re_search_array_spec (s m : string) :
  Variant.re_search_array s = Some m <->
  exists pre body post,
    s = (pre ++ String "[" (body ++ String "]" post))%string /\
    Json.has_char "[" pre = false /\
    Json.has_char "]" body = false /\
    m = String "[" (body ++ "]")%string.
Proof.
  revert m. induction s as [|c s IH]; intros m;
    cbn [Variant.re_search_array].
  - split; [discriminate|]. intros (pre & body & post & E & _).
    destruct pre; discriminate.
  - destruct (Ascii.eqb_spec c "[") as [->|NE].
    + destruct (Variant.upto_close s) as [m'|] eqn:U.
      * split.
        -- intros [= <-].
           apply upto_close_spec in U.
           destruct U as (body & post & -> & NO & ->).
           now exists EmptyString, body, post.
        -- intros (pre & body & post & E & NOPRE & NO & ->).
           destruct pre as [|p pre].
           ++ cbn [String.append] in E. injection E as ->.
              assert (U' : Variant.upto_close (body ++ String "]" post)
                           = Some (body ++ "]")%string)
                by (apply upto_close_spec; now exists body, post).
              congruence.
           ++ cbn [String.append] in E. injection E as <- _.
              apply has_char_cons_false in NOPRE. now destruct NOPRE.
      * apply upto_close_none in U. split.
        -- intros FOUND. apply IH in FOUND.
           destruct FOUND as (pre & body & post & -> & _).
           change (pre ++ String "[" (body ++ String "]" post))%string
             with (pre ++ (String "[" body ++ String "]" post))%string in U.
           rewrite has_char_app, has_char_found, orb_true_r in U.
           discriminate.
        -- intros (pre & body & post & E & NOPRE & NO & ->).
           destruct pre as [|p pre].
           ++ cbn [String.append] in E. injection E as ->.
              rewrite has_char_found in U. discriminate.
           ++ cbn [String.append] in E. injection E as <- _.
              apply has_char_cons_false in NOPRE. now destruct NOPRE.
    + split.
      * intros FOUND. apply IH in FOUND.
        destruct FOUND as (pre & body & post & -> & NOPRE & NO & ->).
        exists (String c pre), body, post. repeat split; try assumption.
        apply has_char_cons_false. now split.
      * intros (pre & body & post & E & NOPRE & NO & ->).
        destruct pre as [|p pre].
        { cbn [String.append] in E. injection E as -> _. congruence. }
        cbn [String.append] in E. injection E as <- ->.
        apply has_char_cons_false in NOPRE. destruct NOPRE as (_ & NOPRE).
        apply IH. now exists pre, body, post.
Qed.

(** A paraphrase that holds a closing bracket cuts the span short: the
    salvage finds nothing to parse. *)
Example salvage_cut_short :
  Variant.re_search_array
    ("Sure: [" ++ Scenario.dq ++ "Is [beta] on?" ++ Scenario.dq ++ "]")%string
  = Some ("[" ++ Scenario.dq ++ "Is [beta]")%string /\
  Variant.salvage
    ("Sure: [" ++ Scenario.dq ++ "Is [beta] on?" ++ Scenario.dq ++ "]")%string
  = [].
Proof. split; vm_compute; reflexivity. Qed.

(* ------------------------------------------------------------------ *)
(** ** More on [retrieval_service.py] *)

Lemma existsb_eqb_In (k : Z) (l : list Z) :
  existsb (Z.eqb k) l = true <-> In k l.
Proof.
  rewrite existsb_exists. split.
  - intros (x & I & E). apply Z.eqb_eq in E. now subst.
  - intros I. exists k. split; [assumption | apply Z.eqb_refl].
Qed.

Lemma first_by_seen_ext {A K : Type} (eqb : K -> K -> bool) (key : A -> K)
    (l : list A) :
  forall seen seen',
    (forall k, existsb (eqb k) seen = existsb (eqb k) seen') ->
    first_by eqb key seen l = first_by eqb key seen' l.
Proof.
  induction l as [|x l IH]; intros seen seen' EXT; simpl; [reflexivity|].
  rewrite (EXT (key x)). destruct (existsb (eqb (key x)) seen').
  - now apply IH.
  - f_equal. apply IH. intros k. simpl. now rewrite EXT.
Qed.

Lemma dedup_step_keys (d : Retrieval.faq_dict) (m : Match.t) :
  map fst (Retrieval.dedup_step d m)
  = if existsb (Z.eqb (Match.faq_id m)) (map fst d)
    then map fst d else map fst d ++ [Match.faq_id m].
Proof.
  unfold Retrieval.dedup_step.
  destruct (Retrieval.dict_get d (Match.faq_id m)) as [old|] eqn:G.
  - assert (I : In (Match.faq_id m) (map fst d)).
    { apply dict_get_some in G.
      change (Match.faq_id m) with (fst (Match.faq_id m, old)).
      now apply in_map. }
    rewrite (proj2 (existsb_eqb_In _ _) I).
    destruct (Py.gt _ _); [now apply dict_set_keys_present | reflexivity].
  - apply dict_get_none in G.
    destruct (existsb (Z.eqb (Match.faq_id m)) (map fst d)) eqn:E.
    + apply existsb_eqb_In in E. contradiction.
    + now apply dict_set_keys_absent.
Qed.

Lemma dedup_fold_keys (matches : list Match.t) :
  forall d,
    map fst (fold_left Retrieval.dedup_step matches d)
    = map fst d ++
      first_by Z.eqb (fun id => id) (map fst d) (map Match.faq_id matches).
Proof.
  induction matches as [|m rest IH]; intros d; simpl.
  - now rewrite app_nil_r.
  - rewrite IH, dedup_step_keys.
    destruct (existsb (Z.eqb (Match.faq_id m)) (map fst d)); [reflexivity|].
    rewrite <- app_assoc. simpl. do 2 f_equal.
    apply first_by_seen_ext. intros k. rewrite existsb_app. simpl.
    rewrite orb_false_r. apply orb_comm.
Qed.

(** X5.  The ids of the result of [_deduplicate_matches] are the ids of the
    input in the order of their first occurrence: a better candidate met
    later replaces the kept one in place, it does not move its id. *)
Theorem deduplicate_matches_order (matches : list Match.t) :
  map Match.faq_id (Retrieval._deduplicate_matches matches)
  = first_by Z.eqb (fun id => id) [] (map Match.faq_id matches).
Proof.
  destruct (dedup_fold_inv matches [] [] dedup_inv_nil) as (_ & VAL & _).
  unfold Retrieval._deduplicate_matches.
  rewrite dict_values_ids by (intros k v I; apply (VAL _ _ I)).
  now rewrite dedup_fold_keys.
Qed.

Lemma earliest_best_snoc (seen : list Match.t) (v m : Match.t) :
  earliest_best seen v ->
  (Match.faq_id m = Match.faq_id v ->
   (Match.similarity m <= Match.similarity v)%Q) ->
  earliest_best (seen ++ [m]) v.
Proof.
  intros (pre & post & -> & BEFORE & AFTER) LE.
  exists pre, (post ++ [m]). split; [now rewrite <- app_assoc|].
  split; [exact BEFORE|].
  intros m' I E. apply in_app_or in I.
  destruct I as [I|[<-|[]]]; [now apply AFTER | now apply LE].
Qed.

Lemma earliest_best_last (seen : list Match.t) (m : Match.t) :
  (forall m', In m' seen -> Match.faq_id m' = Match.faq_id m ->
              (Match.similarity m' < Match.similarity m)%Q) ->
  earliest_best (seen ++ [m]) m.
Proof.
  intros LT. exists seen, []. split; [reflexivity|].
  split; [exact LT | intros m' []].
Qed.

Lemma dedup_step_earliest (d : Retrieval.faq_dict) (seen : list Match.t)
    (m : Match.t) :
  dedup_inv d seen ->
  (forall k v, In (k, v) d -> earliest_best seen v) ->
  forall k v, In (k, v) (Retrieval.dedup_step d m) ->
              earliest_best (seen ++ [m]) v.
Proof.
  intros (ND & VAL & KEYS) EB k v I. unfold Retrieval.dedup_step in I.
  destruct (Retrieval.dict_get d (Match.faq_id m)) as [old|] eqn:G.
  - apply dict_get_some in G. destruct (VAL _ _ G) as (_ & _ & MAXOLD).
    destruct (Py.gt (Match.similarity m) (Match.similarity old)) eqn:GT.
    + apply dict_set_inv in I; [|exact ND].
      destruct I as [(-> & ->)|(NE & I)].
      * apply earliest_best_last. intros m' I' E. apply gt_true in GT.
        eapply Qle_lt_trans; [now apply MAXOLD | exact GT].
      * apply earliest_best_snoc; [now apply (EB k)|].
        intros E. destruct (VAL _ _ I) as (IDV & _). congruence.
    + apply earliest_best_snoc; [now apply (EB k)|].
      intros E. destruct (VAL _ _ I) as (IDV & _).
      assert (v = old) as ->.
      { apply (dict_functional d k); [exact ND | exact I|]. congruence. }
      now apply gt_false in GT.
  - apply dict_get_none in G.
    apply dict_set_inv in I; [|exact ND].
    destruct I as [(-> & ->)|(NE & I)].
    + apply earliest_best_last. intros m' I' E. exfalso. apply G.
      apply KEYS. rewrite <- E. now apply in_map.
    + apply earliest_best_snoc; [now apply (EB k)|].
      intros E. destruct (VAL _ _ I) as (IDV & _). congruence.
Qed.

Lemma dedup_fold_earliest (l : list Match.t) :
  forall d seen,
    dedup_inv d seen ->
    (forall k v, In (k, v) d -> earliest_best seen v) ->
    forall k v, In (k, v) (fold_left Retrieval.dedup_step l d) ->
                earliest_best (seen ++ l) v.
Proof.
  induction l as [|m l IH]; intros d seen INV EB k v I; simpl in I.
  - rewrite app_nil_r. now apply (EB k).
  - change (seen ++ m :: l) with (seen ++ [m] ++ l). rewrite app_assoc.
    apply (IH (Retrieval.dedup_step d m) (seen ++ [m])) with (k := k).
    + now apply dedup_step_inv.
    + now apply dedup_step_earliest.
    + exact I.
Qed.

(** X6.  Among candidates of one id [_deduplicate_matches] keeps the first
    one that reaches the greatest similarity: every candidate of that id
    before it is strictly less similar, every one after it is at most as
    similar (the comparison of the loop is strict, so a later tie does not
    replace the kept candidate). *)
Theorem deduplicate_matches_keeps_earliest_best (matches : list Match.t) :
  Forall (earliest_best matches) (Retrieval._deduplicate_matches matches).
Proof.
  apply Forall_forall. intros v I.
  unfold Retrieval._deduplicate_matches, Retrieval.dict_values in I.
  apply in_map_iff in I. destruct I as ((k & v') & E & I). simpl in E. subst v'.
  apply (dedup_fold_earliest matches [] [] dedup_inv_nil) with (k := k);
    [intros ? ? [] | exact I].
Qed.

(** A tie: the first of two equally similar candidates stays. *)
Example deduplicate_matches_tie :
  Retrieval._deduplicate_matches
    [Match.mk 7 "Q" "A" (1 # 2) "faq" None;
     Match.mk 7 "Q" "A" (2 # 4) "variant" (Some "q")]
  = [Match.mk 7 "Q" "A" (1 # 2) "faq" None].
Proof. vm_compute. reflexivity. Qed.

Lemma dict_set_absent (d : Retrieval.faq_dict) (k : Z) (v : Match.t) :
  ~ In k (map fst d) -> Retrieval.dict_set d k v = d ++ [(k, v)].
Proof.
  induction d as [|(k' & v') d IH]; simpl; intros NI; [reflexivity|].
  destruct (Z.eqb_spec k k') as [->|NE]; [tauto|].
  rewrite IH; [reflexivity | tauto].
Qed.

Lemma dedup_fold_distinct (l : list Match.t) :
  forall d,
    NoDup (map fst d ++ map Match.faq_id l) ->
    fold_left Retrieval.dedup_step l d
    = d ++ map (fun m => (Match.faq_id m, m)) l.
Proof.
  induction l as [|m l IH]; intros d ND; simpl.
  - now rewrite app_nil_r.
  - simpl in ND.
    assert (NI : ~ In (Match.faq_id m) (map fst d)).
    { intros I. apply NoDup_remove_2 in ND. apply ND, in_or_app. now left. }
    assert (STEP : Retrieval.dedup_step d m = d ++ [(Match.faq_id m, m)]).
    { unfold Retrieval.dedup_step.
      rewrite (proj2 (dict_get_none _ _) NI). now apply dict_set_absent. }
    rewrite STEP, IH.
    + now rewrite <- app_assoc.
    + rewrite map_app. simpl. now rewrite <- app_assoc.
Qed.

(** X7.  [_deduplicate_matches] leaves a list with pairwise distinct ids
    as it is, order included; so applying it twice is the same as applying
    it once. *)
Theorem deduplicate_matches_idempotent (matches : list Match.t) :
  (NoDup (map Match.faq_id matches) ->
   Retrieval._deduplicate_matches matches = matches) /\
  Retrieval._deduplicate_matches (Retrieval._deduplicate_matches matches)
  = Retrieval._deduplicate_matches matches.
Proof.
  assert (FIX : forall l, NoDup (map Match.faq_id l) ->
                          Retrieval._deduplicate_matches l = l).
  { intros l ND. unfold Retrieval._deduplicate_matches.
    rewrite dedup_fold_distinct by exact ND.
    unfold Retrieval.dict_values. simpl. rewrite map_map. simpl.
    apply map_id. }
  split; [apply FIX|].
  apply FIX. apply (deduplicate_matches_ids matches).
Qed.

Lemma NoDup_firstn {A : Type} (n : nat) (l : list A) :
  NoDup l -> NoDup (firstn n l).
Proof.
  intros ND. rewrite <- (firstn_skipn n l) in ND.
  now apply NoDup_app_remove_r in ND.
Qed.

Lemma in_firstn {A : Type} (n : nat) (l : list A) (x : A) :
  In x (firstn n l) -> In x l.
Proof.
  intros I. rewrite <- (firstn_skipn n l). apply in_or_app. now left.
Qed.

Lemma slice_to_firstn {A : Type} (l : list A) (k : Z) :
  exists n, Py.slice_to l k = firstn n l.
Proof. unfold Py.slice_to. destruct (0 <=? k); eexists; reflexivity. Qed.

(** X8.  No entry of the store occurs twice in the result of
    [search_similar_faqs], and every result is, among all candidates the
    sub-searches returned for its id, one of greatest similarity. *)
Theorem search_similar_faqs_distinct_best (w : World)
    (query_embeddings : list vector) (top_k : Z) (t : trace) :
  exists all_matches matches t',
    Retrieval.collect_matches w query_embeddings top_k [] t
      = (inr all_matches, t') /\
    Retrieval.search_similar_faqs w query_embeddings top_k t
      = (inr matches, t') /\
    NoDup (map Match.faq_id matches) /\
    Forall (fun m =>
              In m all_matches /\
              forall m', In m' all_matches ->
                         Match.faq_id m' = Match.faq_id m ->
                         (Match.similarity m' <= Match.similarity m)%Q)
      matches.
Proof.
  destruct (collect_matches_returns w top_k query_embeddings [] t)
    as (all & t' & C).
  exists all, (Py.slice_to
                 (Retrieval.sort_desc (Retrieval._deduplicate_matches all))
                 top_k), t'.
  split; [exact C|]. split.
  { unfold Retrieval.search_similar_faqs. rewrite run_bind, C. reflexivity. }
  destruct (slice_to_firstn
              (Retrieval.sort_desc (Retrieval._deduplicate_matches all))
              top_k) as (n & ->).
  split.
  - rewrite <- firstn_map. apply NoDup_firstn.
    apply (Permutation_NoDup
             (Permutation_map Match.faq_id (sort_desc_perm _))).
    apply (deduplicate_matches_ids all).
  - apply Forall_forall. intros m I. apply in_firstn in I.
    apply (Permutation_in _ (Permutation_sym (sort_desc_perm _))) in I.
    unfold Retrieval._deduplicate_matches, Retrieval.dict_values in I.
    apply in_map_iff in I. destruct I as ((k & v) & E & I). simpl in E. subst v.
    destruct (dedup_fold_inv all [] [] dedup_inv_nil) as (_ & VAL & _).
    destruct (VAL _ _ I) as (ID & SEEN & MAX). simpl in SEEN, MAX.
    split; [exact SEEN|]. intros m' I' E. apply MAX; congruence.
Qed.

Lemma collect_matches_trace (w : World) (k : Z) (embs : list vector) :
  forall acc t,
    snd (Retrieval.collect_matches w embs k acc t)
    = t ++ flat_map (queries_of k) embs.
Proof.
  induction embs as [|e embs IH]; intros acc t; simpl.
  - now rewrite app_nil_r.
  - rewrite run_bind.
    destruct (search_faqs_table_returns w e k t) as (l1 & ->).
    rewrite run_bind.
    destruct (search_variants_table_returns w e k
                (t ++ [ev_query_faqs e k])) as (l2 & ->).
    rewrite IH. now rewrite <- !app_assoc.
Qed.

(** X9.  [search_similar_faqs] sends exactly two queries per embedding, the
    primary table first, in the order of the embeddings and with the given
    bound, whether or not queries fail; it calls nothing else. *)
Theorem search_similar_faqs_queries (w : World)
    (query_embeddings : list vector) (top_k : Z) (t : trace) :
  snd (Retrieval.search_similar_faqs w query_embeddings top_k t)
  = t ++ flat_map (queries_of top_k) query_embeddings.
Proof.
  unfold Retrieval.search_similar_faqs. rewrite run_bind.
  pose proof (collect_matches_trace w top_k query_embeddings [] t) as T.
  destruct (Retrieval.collect_matches w query_embeddings top_k [] t)
    as [[e|all] t']; simpl in *; exact T.
Qed.

Lemma embed_all_run (w : World) (queries : list string) :
  forall embeddings t,
    match Retrieval.embed_all w queries embeddings t with
    | (inl e, t') =>
        exists n, (n < List.length queries)%nat /\
                  t' = t ++ map ev_embed (firstn (S n) queries)
    | (inr out, t') =>
        t' = t ++ map ev_embed queries /\
        List.length out = (List.length embeddings + List.length queries)%nat
    end.
Proof.
  induction queries as [|q rest IH]; intros embeddings t.
  - simpl. unfold ret. rewrite app_nil_r. split; [reflexivity | lia].
  - cbn [Retrieval.embed_all]. rewrite run_bind.
    unfold Retrieval.generate_embedding, call.
    destruct (embeddings_create w t q) as [e|embedding].
    + exists 0%nat. simpl. split; [lia | reflexivity].
    + specialize (IH (embeddings ++ [Retrieval.embedding_to_vector embedding])
                     (t ++ [ev_embed q])).
      destruct (Retrieval.embed_all w rest _ _) as [[e|out] t'].
      * destruct IH as (n & LT & ->). exists (S n). split; [simpl; lia|].
        rewrite <- app_assoc. reflexivity.
      * destruct IH as (-> & LEN). split.
        -- rewrite <- app_assoc. reflexivity.
        -- rewrite LEN, length_app. simpl. lia.
Qed.

(** X10.  [search_with_metadata] embeds the question and then every
    variant, in this order, before it searches.  When an embedding fails
    the error is raised and the store has not been queried; otherwise
    there is one embedding per query text and the matches are those of
    [search_similar_faqs] on these embeddings. *)
Theorem search_with_metadata_embeds_first (w : World) (user_query : string)
    (query_variants : list string) (top_k : Z) (t : trace) :
  match Retrieval.search_with_metadata w user_query query_variants top_k t
  with
  | (inl e, t') =>
      exists n, (n <= List.length query_variants)%nat /\
                t' = t ++ map ev_embed
                            (firstn (S n) (user_query :: query_variants))
  | (inr (matches, embeddings), t') =>
      List.length embeddings = S (List.length query_variants) /\
      Retrieval.search_similar_faqs w embeddings top_k
        (t ++ map ev_embed (user_query :: query_variants))
      = (inr matches, t')
  end.
Proof.
  unfold Retrieval.search_with_metadata. rewrite run_bind.
  pose proof (embed_all_run w (user_query :: query_variants) [] t) as E.
  destruct (Retrieval.embed_all w (user_query :: query_variants) [] t)
    as [[e|embeddings] t1].
  - destruct E as (n & LT & ->). exists n. split; [simpl in LT; lia|].
    reflexivity.
  - destruct E as (-> & LEN). rewrite run_bind.
    destruct (collect_matches_returns w top_k embeddings []
                (t ++ map ev_embed (user_query :: query_variants)))
      as (all & t' & C).
    assert (S : Retrieval.search_similar_faqs w embeddings top_k
                  (t ++ map ev_embed (user_query :: query_variants))
                = (inr (Py.slice_to
                          (Retrieval.sort_desc
                             (Retrieval._deduplicate_matches all)) top_k),
                   t')).
    { unfold Retrieval.search_similar_faqs. now rewrite run_bind, C. }
    rewrite S. unfold ret. split; [exact LEN | exact S].
Qed.

(* ------------------------------------------------------------------ *)
(** ** More on [qa_service.py] *)

Lemma context_faqs_firstn (matches : list Match.t) :
  QA.context_faqs matches
  = firstn 3 (filter (fun m => Py.ge (Match.similarity m) (1 # 2)) matches).
Proof. reflexivity. Qed.

(** X11.  [_generate_llm_answer] asks the general chain exactly when no
    candidate reaches the similarity 0.5.  Otherwise it asks the grounded
    chain, with a context built from the first candidates that reach 0.5,
    three at most, in the order of the search. *)
Theorem answer_chain_choice (w : World) (q : string)
    (matches : list Match.t) (t : trace) :
  (Forall (fun m => (Match.similarity m < 1 # 2)%Q) matches ->
   QA.invoke_chain w q matches t
   = (general_chain_invoke w t q, t ++ [ev_general_chain q])) /\
  (Exists (fun m => (1 # 2 <= Match.similarity m)%Q) matches ->
   exists context,
     context
     = firstn 3
         (filter (fun m => Py.ge (Match.similarity m) (1 # 2)) matches) /\
     context <> [] /\
     (List.length context <= 3)%nat /\
     Forall (fun m => In m matches /\ (1 # 2 <= Match.similarity m)%Q)
       context /\
     QA.invoke_chain w q matches t
     = (rag_chain_invoke w t (QA._build_context context) q,
        t ++ [ev_rag_chain (QA._build_context context) q])).
Proof.
  unfold QA.invoke_chain. rewrite context_faqs_firstn. split.
  - intros LOW.
    assert (E : filter (fun m => Py.ge (Match.similarity m) (1 # 2)) matches
                = []).
    { apply filter_nil_iff. revert LOW. apply Forall_impl.
      intros m. apply ge_false. }
    rewrite E. reflexivity.
  - intros HIGH.
    exists (firstn 3
              (filter (fun m => Py.ge (Match.similarity m) (1 # 2)) matches)).
    split; [reflexivity|].
    assert (NE : firstn 3
                   (filter (fun m => Py.ge (Match.similarity m) (1 # 2))
                      matches) <> []).
    { apply Exists_exists in HIGH. destruct HIGH as (m & I & H).
      assert (I' : In m (filter (fun m => Py.ge (Match.similarity m) (1 # 2))
                           matches))
        by (apply filter_In; split; [assumption | now apply ge_true]).
      destruct (filter _ matches); [destruct I' | simpl; discriminate]. }
    split; [exact NE|]. split; [apply firstn_le_length|]. split.
    + apply Forall_forall. intros m I. apply in_firstn, filter_In in I.
      destruct I as (I & H). split; [assumption | now apply ge_true].
    + destruct (firstn 3 _) as [|c cs]; [congruence | reflexivity].
Qed.

(** X12.  [_generate_llm_answer] never raises and calls one chain, once:
    it returns the answer of the chain without surrounding white space,
    or the fallback apology when the chain raises. *)
Theorem generate_llm_answer_total (w : World) (q : string)
    (matches : list Match.t) (t : trace) :
  exists answer ev,
    QA._generate_llm_answer w q matches t = (inr answer, t ++ [ev]) /\
    (ev = ev_general_chain q \/ exists context, ev = ev_rag_chain context q) /\
    match fst (QA.invoke_chain w q matches t) with
    | inr raw => answer = Py.strip raw
    | inl _ => answer = QA.llm_fallback_answer
    end.
Proof.
  unfold QA._generate_llm_answer. rewrite run_try_except, run_bind.
  assert (CALL : exists r ev,
             QA.invoke_chain w q matches t = (r, t ++ [ev]) /\
             (ev = ev_general_chain q \/
              exists context, ev = ev_rag_chain context q)).
  { unfold QA.invoke_chain, call.
    destruct (QA.context_faqs matches); eexists; eexists;
      (split; [reflexivity|]); [now left | right; eexists; reflexivity]. }
  destruct CALL as (r & ev & -> & EV).
  destruct r as [e|raw]; eexists; exists ev; simpl; repeat split;
    assumption.
Qed.

Lemma build_all_inv (matches : list Match.t) (xs : list SimilarMatch.t) :
  QA.build_all matches = inr xs ->
  Forall valid_similarity matches /\ xs = map similar_match_of matches.
Proof.
  revert xs. induction matches as [|m rest IH]; intros xs; simpl.
  - intros [= <-]. split; [constructor | reflexivity].
  - unfold QA._build_similar_match, SimilarMatch.create.
    destruct (in_unit_interval (Match.similarity m)) eqn:V; [|discriminate].
    destruct (QA.build_all rest) as [e|ys]; [discriminate|].
    intros [= <-]. destruct (IH ys eq_refl) as (F & ->).
    split; [now constructor | reflexivity].
Qed.

(** What a response of [decide] looks like. *)
Lemma decide_inv (w : World) (q : string) (gv : bool)
    (variants : list string) (matches : list Match.t) (start_time : Q)
    (t : trace) (r : QuestionResponse.t) (t' : trace) :
  QA.decide w q gv variants matches start_time t = (inr r, t') ->
  Forall valid_similarity matches /\
  QuestionResponse.confidence r = QA.confidence_of (hd_error matches) /\
  QuestionResponse.matched_faq r
  = option_map similar_match_of (hd_error matches) /\
  QuestionResponse.all_matches r = map similar_match_of matches /\
  QuestionResponse.generated_variants r
  = (if gv then Some variants else None) /\
  ((QuestionResponse.source r = "database" /\
    exists best rest,
      matches = best :: rest /\
      (QA.confidence_threshold <= Match.similarity best)%Q /\
      QuestionResponse.answer r = Match.answer best) \/
   (QuestionResponse.source r = "llm" /\
    (QA.confidence_of (hd_error matches) < QA.confidence_threshold)%Q)).
Proof.
  unfold QA.decide. rewrite run_bind.
  set (choice := if Py.ge (QA.confidence_of (hd_error matches))
                      QA.confidence_threshold
                 then hd_error matches else None).
  assert (TAIL : forall answer source t1,
            (processing_time <- QA.elapsed_ms w start_time ;;
             matched_faq <- lift (QA.build_best (hd_error matches)) ;;
             all_matches <- lift (QA.build_all matches) ;;
             lift (QuestionResponse.create answer source
                     (QA.confidence_of (hd_error matches)) matched_faq
                     all_matches (if gv then Some variants else None)
                     (Py.round2 processing_time))) t1 = (inr r, t') ->
            Forall valid_similarity matches /\
            QuestionResponse.answer r = answer /\
            QuestionResponse.source r = source /\
            QuestionResponse.confidence r
            = QA.confidence_of (hd_error matches) /\
            QuestionResponse.matched_faq r
            = option_map similar_match_of (hd_error matches) /\
            QuestionResponse.all_matches r = map similar_match_of matches /\
            QuestionResponse.generated_variants r
            = (if gv then Some variants else None)).
  { intros answer source t1. unfold QA.elapsed_ms.
    rewrite !run_bind. unfold now, ret. rewrite run_bind. unfold lift at 1.
    destruct (QA.build_best (hd_error matches)) as [e|mf] eqn:BEST;
      [discriminate|].
    rewrite run_bind. unfold lift at 1.
    destruct (QA.build_all matches) as [e|all] eqn:ALL; [discriminate|].
    destruct (build_all_inv _ _ ALL) as (VALID & ->).
    rewrite (build_best_valid _ VALID) in BEST. injection BEST as <-.
    unfold lift, QuestionResponse.create.
    destruct (in_unit_interval (QA.confidence_of (hd_error matches)));
      [|discriminate].
    intros [= <- _]. repeat split. exact VALID. }
  destruct choice as [best|] eqn:CHOICE; subst choice.
  - unfold ret at 1. intros RUN.
    destruct (TAIL _ _ _ RUN) as (VALID & ANS & SRC & CONF & MF & ALL & GV).
    repeat (split; [assumption|]). left. split; [exact SRC|].
    destruct (Py.ge (QA.confidence_of (hd_error matches))
                QA.confidence_threshold) eqn:GE; [|discriminate].
    destruct matches as [|b rest]; [discriminate|].
    simpl in CHOICE. injection CHOICE as ->.
    exists best, rest. split; [reflexivity|].
    split; [now apply ge_true in GE | exact ANS].
  - rewrite run_bind.
    destruct (generate_llm_answer_returns w q matches t) as (a & t1 & ->).
    unfold ret at 1. intros RUN.
    destruct (TAIL _ _ _ RUN) as (VALID & ANS & SRC & CONF & MF & ALL & GV).
    repeat (split; [assumption|]). right. split; [exact SRC|].
    destruct (Py.ge (QA.confidence_of (hd_error matches))
                QA.confidence_threshold) eqn:GE.
    + destruct matches; [|discriminate]. reflexivity.
    + now apply ge_false in GE.
Qed.

(** What a response of the body of [answer_question] is: the canned one,
    or one of [decide] on what the two services returned. *)
Lemma answer_body_inv (w : World) (self : QA.QuestionAnsweringService)
    (q : string) (gv : bool) (nv : Z) (start_time : Q) (t : trace)
    (r : QuestionResponse.t) (t' : trace) :
  QA.answer_body w self q gv nv start_time t = (inr r, t') ->
  (exists ms, r = QA.general_response ms) \/
  (exists variants t1 matches embeddings t2,
     (if gv then QA.variant_service self q nv (7 # 10) else ret [])
       (t ++ [ev_router q]) = (inr variants, t1) /\
     QA.retrieval_service self q variants 5 t1
     = (inr (matches, embeddings), t2) /\
     QA.decide w q gv variants matches start_time t2 = (inr r, t')).
Proof.
  destruct (llm_router_invoke w t q) as [e|category] eqn:ROUTER.
  { rewrite (answer_body_classifier_raises _ _ _ _ _ _ _ _ ROUTER).
    discriminate. }
  destruct (Py.contains "general" (Py.lower category)) eqn:GENERAL.
  - rewrite (answer_body_general _ _ _ _ _ _ _ _ ROUTER GENERAL).
    intros [= <- _]. left. eexists. reflexivity.
  - rewrite (answer_body_continues _ _ _ _ _ _ _ _ ROUTER GENERAL).
    rewrite run_bind.
    destruct ((if gv then QA.variant_service self q nv (7 # 10) else ret [])
                (t ++ [ev_router q])) as [[e|variants] t1] eqn:VARIANTS;
      [discriminate|].
    rewrite run_bind.
    destruct (QA.retrieval_service self q variants 5 t1)
      as [[e|(matches & embeddings)] t2] eqn:SEARCH; [discriminate|].
    intros RUN. right. exists variants, t1, matches, embeddings, t2.
    repeat split; assumption.
Qed.

(** X13.  Whatever the world and the two services do, the response of
    [answer_question] is well formed: its confidence and the similarity of
    each listed candidate lie between 0 and 1, the matched entry is the
    first listed candidate, the source is one of [database], [llm] and
    [error]; a response from the database carries the answer of its
    matched entry, whose similarity is the confidence and is at least
    0.75; variants are reported only when they were asked for. *)
Theorem answer_question_well_formed (w : World)
    (self : QA.QuestionAnsweringService) (q : string) (gv : bool) (nv : Z)
    (t : trace) :
  exists r t',
    QA.answer_question w self q gv nv t = (inr r, t') /\
    in_unit_interval (QuestionResponse.confidence r) = true /\
    Forall (fun x => in_unit_interval (SimilarMatch.similarity x) = true)
      (QuestionResponse.all_matches r) /\
    QuestionResponse.matched_faq r
    = hd_error (QuestionResponse.all_matches r) /\
    (QuestionResponse.source r = "database" \/
     QuestionResponse.source r = "llm" \/
     QuestionResponse.source r = "error") /\
    (QuestionResponse.source r = "database" ->
     exists best,
       QuestionResponse.matched_faq r = Some best /\
       QuestionResponse.answer r = SimilarMatch.answer best /\
       QuestionResponse.confidence r = SimilarMatch.similarity best /\
       (3 # 4 <= QuestionResponse.confidence r)%Q) /\
    (QuestionResponse.generated_variants r <> None -> gv = true).
Proof.
  rewrite answer_question_run.
  destruct (QA.answer_body w self q gv nv (time_time w t) (t ++ [ev_time]))
    as [[e|r] t1] eqn:BODY.
  { eexists. eexists. split; [reflexivity|]. cbn.
    split; [reflexivity|]. split; [constructor|]. split; [reflexivity|].
    split; [right; now right|]. split; [discriminate | congruence]. }
  exists r, t1. split; [reflexivity|].
  apply answer_body_inv in BODY.
  destruct BODY as [(ms & ->)|(variants & t2 & matches & embeddings & t3
                               & _ & _ & DECIDE)].
  { cbn.
    split; [reflexivity|]. split; [constructor|]. split; [reflexivity|].
    split; [right; now left|]. split; [discriminate | congruence]. }
  apply decide_inv in DECIDE.
  destruct DECIDE as (VALID & CONF & MF & ALL & GV & ROUTE).
  split; [rewrite CONF; now apply confidence_valid|].
  split.
  { rewrite ALL. apply Forall_map. revert VALID. apply Forall_impl.
    intros m V. exact V. }
  split; [rewrite MF, ALL; now destruct matches|].
  split; [destruct ROUTE as [(S & _)|(S & _)]; tauto|].
  split.
  - intros DB.
    destruct ROUTE as [(_ & best & rest & -> & HIGH & ANS)|(S & _)];
      [|congruence].
    exists (similar_match_of best). rewrite CONF. simpl.
    repeat split; assumption.
  - rewrite GV. destruct gv; congruence.
Qed.

(** ** The deployed service *)

Lemma search_with_metadata_matches (w : World) (q : string)
    (variants : list string) (k : Z) (t : trace) (matches : list Match.t)
    (embeddings : list vector) (t' : trace) :
  Retrieval.search_with_metadata w q variants k t
  = (inr (matches, embeddings), t') ->
  exists all_matches,
    matches
    = Py.slice_to
        (Retrieval.sort_desc (Retrieval._deduplicate_matches all_matches)) k.
Proof.
  unfold Retrieval.search_with_metadata. rewrite run_bind.
  destruct (Retrieval.embed_all w (q :: variants) [] t) as [[e|embs] t1];
    [discriminate|].
  rewrite run_bind. unfold Retrieval.search_similar_faqs. rewrite run_bind.
  destruct (collect_matches_returns w k embs [] t1) as (all & t2 & ->).
  unfold ret. intros [= <- _ _]. now exists all.
Qed.

Lemma generate_variants_result (w : World) (text : string) (n : Z)
    (temperature : Q) (t : trace) (variants : list string) (t' : trace) :
  Variant.generate_variants w text n temperature t = (inr variants, t') ->
  variants = [] \/
  exists raw,
    variants = Variant._clean_variants raw (Z.max 1 (Z.min n 10)).
Proof.
  unfold Variant.generate_variants.
  destruct (String.eqb text "" || String.eqb (Py.strip text) "")%bool.
  { unfold ret. intros [= <- _]. now left. }
  rewrite run_try_except, run_bind. unfold call, lift, ret.
  destruct (chain_invoke w t text _ _) as [e|response];
    [intros [= <- _]; now left|].
  destruct (Variant._parse_response response (Z.max 1 (Z.min n 10)))
    as [e|l] eqn:PARSE; [intros [= <- _]; now left|].
  intros [= <- _]. right. now apply (parse_response_cleaned response).
Qed.

Lemma StronglySorted_map {A B : Type} (R : A -> A -> Prop)
    (R' : B -> B -> Prop) (f : A -> B) (l : list A) :
  (forall a b, R a b -> R' (f a) (f b)) ->
  StronglySorted R l -> StronglySorted R' (map f l).
Proof.
  intros MONO S. induction S as [|x l S IH F]; simpl; constructor;
    [assumption|].
  apply Forall_map. revert F. apply Forall_impl. intros b. apply MONO.
Qed.

(** X14.  The service as deployed, whose retrieval asks for five results:
    every response lists at most five candidates, in the order of
    non-increasing similarity and with pairwise distinct ids, and the
    variants it reports are at most [min(max(num_variants,1),10)] and
    differ up to case. *)
Theorem deployed_response_ranked (w : World) (q : string) (gv : bool)
    (nv : Z) (t : trace) :
  exists r t',
    QA.answer_question w (QA.qa_service w) q gv nv t = (inr r, t') /\
    (List.length (QuestionResponse.all_matches r) <= 5)%nat /\
    StronglySorted
      (fun a b => (SimilarMatch.similarity b <= SimilarMatch.similarity a)%Q)
      (QuestionResponse.all_matches r) /\
    NoDup (map SimilarMatch.faq_id (QuestionResponse.all_matches r)) /\
    (forall variants,
       QuestionResponse.generated_variants r = Some variants ->
       Z.of_nat (List.length variants) <= Z.min (Z.max nv 1) 10 /\
       NoDup (map Py.lower variants)).
Proof.
  rewrite answer_question_run.
  destruct (QA.answer_body w (QA.qa_service w) q gv nv (time_time w t)
              (t ++ [ev_time])) as [[e|r] t1] eqn:BODY.
  { eexists. eexists. split; [reflexivity|]. cbn.
    split; [lia|]. split; [constructor|]. split; [constructor|].
    discriminate. }
  exists r, t1. split; [reflexivity|].
  apply answer_body_inv in BODY.
  destruct BODY as [(ms & ->)|(variants & t2 & matches & embeddings & t3
                               & VARIANTS & SEARCH & DECIDE)].
  { cbn. split; [lia|]. split; [constructor|]. split; [constructor|].
    discriminate. }
  apply decide_inv in DECIDE.
  destruct DECIDE as (_ & _ & _ & ALL & GV & _).
  cbn [QA.qa_service QA.retrieval_service QA.variant_service] in *.
  apply search_with_metadata_matches in SEARCH.
  destruct SEARCH as (all & ->). rewrite ALL.
  destruct (slice_to_firstn
              (Retrieval.sort_desc (Retrieval._deduplicate_matches all)) 5)
    as (n & SLICE).
  split.
  { rewrite length_map.
    pose proof (slice_to_bound
                  (Retrieval.sort_desc (Retrieval._deduplicate_matches all))
                  5 ltac:(lia)). lia. }
  split.
  { apply (StronglySorted_map by_similarity_desc).
    - intros a b H. exact H.
    - apply slice_to_sorted, sort_desc_sorted. }
  split.
  { rewrite map_map. simpl. rewrite SLICE, <- firstn_map.
    apply NoDup_firstn.
    apply (Permutation_NoDup
             (Permutation_map Match.faq_id (sort_desc_perm _))).
    apply (deduplicate_matches_ids all). }
  intros vs. rewrite GV. destruct gv; [|discriminate]. intros [= <-].
  apply generate_variants_result in VARIANTS.
  destruct VARIANTS as [->|(raw & ->)].
  - simpl. split; [lia | constructor].
  - destruct (clean_variants_spec raw (Z.max 1 (Z.min nv 10)))
      as (_ & ND & _ & LEN).
    split; [lia | exact ND].
Qed.

(** ** The context of the grounded chain *)

Lemma string_app_assoc (a b c : string) :
  ((a ++ b) ++ c = a ++ (b ++ c))%string.
Proof. induction a as [|x a IH]; simpl; [reflexivity | now rewrite IH]. Qed.

Lemma string_app_nil_r (a : string) : (a ++ "" = a)%string.
Proof. induction a as [|x a IH]; simpl; [reflexivity | now rewrite IH]. Qed.

Lemma prefix_app (a post : string) : String.prefix a (a ++ post) = true.
Proof.
  induction a as [|x a IH]; simpl; [now destruct post|].
  destruct (ascii_dec x x); [exact IH | congruence].
Qed.

Lemma contains_unfold (sub s : string) :
  Py.contains sub s
  = (String.prefix sub s ||
     match s with
     | EmptyString => false
     | String _ r => Py.contains sub r
     end)%bool.
Proof. destruct s; reflexivity. Qed.

Lemma contains_app (sub pre post : string) :
  Py.contains sub (pre ++ sub ++ post) = true.
Proof.
  induction pre as [|x pre IH]; cbn [String.append];
    rewrite contains_unfold.
  - now rewrite prefix_app.
  - rewrite IH. apply orb_true_r.
Qed.

Lemma concat_in (sep p : string) (l : list string) :
  In p l ->
  exists pre post, String.concat sep l = (pre ++ p ++ post)%string.
Proof.
  induction l as [|x l IH]; intros I; [destruct I|].
  destruct l as [|y l].
  - destruct I as [->|[]]. exists EmptyString, EmptyString. simpl.
    now rewrite string_app_nil_r.
  - change (String.concat sep (x :: y :: l))
      with (x ++ sep ++ String.concat sep (y :: l))%string.
    destruct I as [->|I].
    + exists EmptyString, (sep ++ String.concat sep (y :: l))%string.
      reflexivity.
    + destruct (IH I) as (pre & post & ->).
      exists (x ++ sep ++ pre)%string, post.
      now rewrite !string_app_assoc.
Qed.

Lemma context_parts_in (m : Match.t) (matches : list Match.t) :
  forall i, In m matches ->
  exists n,
    In ("FAQ " ++ Py.str_of_nat n ++ ":" ++ QA.nl ++
        "Q: " ++ Match.question m ++ QA.nl ++
        "A: " ++ Match.answer m ++ QA.nl)%string
       (QA.context_parts i matches).
Proof.
  induction matches as [|x rest IH]; intros i I; [destruct I|].
  destruct I as [->|I].
  - exists i. left. reflexivity.
  - destruct (IH (S i) I) as (n & IN). exists n. right. exact IN.
Qed.

(** X15.  The context [_build_context] writes for the grounded chain holds
    the question and the answer of each of the candidates it is given. *)
Theorem build_context_holds_entries (matches : list Match.t) :
  Forall (fun m =>
            Py.contains (Match.question m) (QA._build_context matches) = true /\
            Py.contains (Match.answer m) (QA._build_context matches) = true)
    matches.
Proof.
  apply Forall_forall. intros m I.
  destruct (context_parts_in m matches 1 I) as (n & IN).
  destruct (concat_in QA.nl _ _ IN) as (a & b & E).
  unfold QA._build_context. rewrite E. split.
  - replace (a ++ ("FAQ " ++ Py.str_of_nat n ++ ":" ++ QA.nl ++
                   "Q: " ++ Match.question m ++ QA.nl ++
                   "A: " ++ Match.answer m ++ QA.nl) ++ b)%string
      with ((a ++ "FAQ " ++ Py.str_of_nat n ++ ":" ++ QA.nl ++ "Q: ") ++
            Match.question m ++
            (QA.nl ++ "A: " ++ Match.answer m ++ QA.nl ++ b))%string
      by (now rewrite !string_app_assoc).
    apply contains_app.
  - replace (a ++ ("FAQ " ++ Py.str_of_nat n ++ ":" ++ QA.nl ++
                   "Q: " ++ Match.question m ++ QA.nl ++
                   "A: " ++ Match.answer m ++ QA.nl) ++ b)%string
      with ((a ++ "FAQ " ++ Py.str_of_nat n ++ ":" ++ QA.nl ++
             "Q: " ++ Match.question m ++ QA.nl ++ "A: ") ++
            Match.answer m ++ (QA.nl ++ b))%string
      by (now rewrite !string_app_assoc).
    apply contains_app.
Qed.

(* ------------------------------------------------------------------ *)
(** ** [services/auth.py] *)

Lemma existsb_string_In (x : string) (l : list string) :
  existsb (String.eqb x) l = true <-> In x l.
Proof.
  rewrite existsb_exists. split.
  - intros (y & I & E). apply String.eqb_eq in E. now subst.
  - intros I. exists x. split; [assumption | apply String.eqb_refl].
Qed.

Lemma valid_keys_In (keys_str x : string) :
  keys_str <> "" ->
  In x (Auth._load_api_keys (Some keys_str)) <->
  x <> "" /\
  exists piece, In piece (Auth.split "," keys_str) /\ Py.strip piece = x.
Proof.
  intros SET. unfold Auth._load_api_keys.
  destruct (String.eqb_spec keys_str ""); [contradiction|].
  rewrite nodup_In, in_map_iff. split.
  - intros (piece & <- & I). apply filter_In in I. destruct I as (I & NE).
    split; [|now exists piece].
    destruct (String.eqb_spec (Py.strip piece) ""); [discriminate | assumption].
  - intros (NE & piece & I & <-). exists piece. split; [reflexivity|].
    apply filter_In. split; [assumption|].
    now destruct (String.eqb_spec (Py.strip piece) "").
Qed.

(** X16.  Which keys [APIKeyAuth] accepts.  When [API_KEYS] is unset or
    empty, the demo key and nothing else.  Otherwise the pieces of
    [API_KEYS] between commas, without their surrounding white space, and
    never the empty string.  Every other key is refused with status 401. *)
Theorem api_key_accepted_iff (API_KEYS : option string) (x_api_key : string) :
  let keys_str := match API_KEYS with Some s => s | None => "" end in
  ((exists p, Auth.__call__ (Auth._load_api_keys API_KEYS) x_api_key = inr p)
   <->
   (keys_str = "" /\ x_api_key = Auth.demo_key) \/
   (keys_str <> "" /\ x_api_key <> "" /\
    exists piece,
      In piece (Auth.split "," keys_str) /\ Py.strip piece = x_api_key)) /\
  (forall e,
     Auth.__call__ (Auth._load_api_keys API_KEYS) x_api_key = inl e ->
     HTTPException.status_code e = 401).
Proof.
  intros keys_str. split.
  - unfold Auth.__call__.
    destruct (existsb (String.eqb x_api_key) (Auth._load_api_keys API_KEYS))
      eqn:MEM.
    + split; [intros _ | intros _; eexists; reflexivity].
      apply existsb_string_In in MEM.
      destruct (String.eqb_spec keys_str "") as [EMPTY|SET].
      * left. split; [assumption|].
        unfold Auth._load_api_keys in MEM. fold keys_str in MEM.
        rewrite EMPTY in MEM. simpl in MEM. now destruct MEM.
      * right. split; [assumption|].
        assert (E : Auth._load_api_keys API_KEYS
                    = Auth._load_api_keys (Some keys_str))
          by (subst keys_str; destruct API_KEYS; [reflexivity | congruence]).
        rewrite E in MEM. now apply valid_keys_In in MEM.
    + split; [intros (p & H); discriminate|].
      intros H. exfalso.
      assert (I : In x_api_key (Auth._load_api_keys API_KEYS)).
      { destruct H as [(EMPTY & ->)|(SET & NE & PIECE)].
        - unfold Auth._load_api_keys. fold keys_str. rewrite EMPTY.
          now left.
        - assert (E : Auth._load_api_keys API_KEYS
                      = Auth._load_api_keys (Some keys_str))
            by (subst keys_str; destruct API_KEYS;
                [reflexivity | congruence]).
          rewrite E. apply valid_keys_In; [assumption | now split]. }
      apply existsb_string_In in I. congruence.
  - intros e. unfold Auth.__call__.
    destruct (existsb _ _); [discriminate|]. now intros [= <-].
Qed.

(** X17.  A value of [API_KEYS] that is not empty but holds only commas and
    white space leaves no valid key: the demo key is not used, and every
    request is refused with status 401. *)
Theorem api_keys_blank_locks_out (keys_str x_api_key : string) :
  keys_str <> "" ->
  Forall (fun piece => Py.strip piece = "") (Auth.split "," keys_str) ->
  Auth._load_api_keys (Some keys_str) = [] /\
  exists e,
    Auth.__call__ (Auth._load_api_keys (Some keys_str)) x_api_key = inl e /\
    HTTPException.status_code e = 401.
Proof.
  intros SET BLANK.
  assert (EMPTY : Auth._load_api_keys (Some keys_str) = []).
  { unfold Auth._load_api_keys.
    destruct (String.eqb_spec keys_str ""); [contradiction|].
    replace (filter _ (Auth.split "," keys_str)) with (@nil string);
      [reflexivity|].
    symmetry. apply filter_nil_iff. revert BLANK. apply Forall_impl.
    intros piece ->. reflexivity. }
  split; [exact EMPTY|]. rewrite EMPTY. eexists. split; reflexivity.
Qed.

(** A blank, a comma, a blank: not even the demo key gets in. *)
Lemma api_keys_blank_locks_out_witness :
  Auth._load_api_keys (Some " , ") = [] /\
  exists e,
    Auth.__call__ (Auth._load_api_keys (Some " , ")) Auth.demo_key = inl e /\
    HTTPException.status_code e = 401.
Proof.
  apply (api_keys_blank_locks_out " , " Auth.demo_key);
    [discriminate | repeat constructor].
Defined.

(* ------------------------------------------------------------------ *)
(** ** [routes/faq.py] *)

Lemma answer_question_returns (w : World)
    (self : QA.QuestionAnsweringService) (q : string) (gv : bool) (nv : Z)
    (t : trace) :
  exists r t', QA.answer_question w self q gv nv t = (inr r, t').
Proof.
  rewrite answer_question_run.
  destruct (QA.answer_body w self q gv nv (time_time w t) (t ++ [ev_time]))
    as [[e|r] t1]; eexists; eexists; reflexivity.
Qed.

(** X18.  The two routes never answer with status 500: [ask_question]
    returns the response of [answer_question], and so does [search_faqs]
    unless the query is empty or blank; then it raises status 400 and the
    service is not called. *)
Theorem routes_never_fail (exn_str : exn -> string) (w : World)
    (self : QA.QuestionAnsweringService) (request : QuestionRequest.t)
    (q : string) (gv : bool) (nv : Z) (t : trace) :
  (exists r t',
     Routes.ask_question exn_str w self request t = (inr r, t') /\
     QA.answer_question w self (QuestionRequest.question request)
       (QuestionRequest.generate_variants request)
       (QuestionRequest.num_variants request) t = (inr r, t')) /\
  ((String.eqb q "" || String.eqb (Py.strip q) "")%bool = true ->
   exists e,
     Routes.search_faqs exn_str w self q gv nv t = (inl e, t) /\
     HTTPException.status_code e = 400) /\
  ((String.eqb q "" || String.eqb (Py.strip q) "")%bool = false ->
   exists r t',
     Routes.search_faqs exn_str w self q gv nv t = (inr r, t') /\
     QA.answer_question w self q gv nv t = (inr r, t')).
Proof.
  split; [|split].
  - destruct (answer_question_returns w self
                (QuestionRequest.question request)
                (QuestionRequest.generate_variants request)
                (QuestionRequest.num_variants request) t) as (r & t' & RUN).
    exists r, t'. unfold Routes.ask_question. now rewrite RUN.
  - intros BLANK. unfold Routes.search_faqs. rewrite BLANK.
    eexists. split; reflexivity.
  - intros FULL. unfold Routes.search_faqs. rewrite FULL.
    destruct (answer_question_returns w self q gv nv t) as (r & t' & RUN).
    exists r, t'. now rewrite RUN.
Qed.

Lemma question_request_valid (question : string) (gv : option bool)
    (nv : option Z) (request : QuestionRequest.t) :
  QuestionRequest.create question gv nv = inr request ->
  QuestionRequest.question request = question /\
  (1 <= String.length question <= 500)%nat /\
  1 <= QuestionRequest.num_variants request <= 5.
Proof.
  unfold QuestionRequest.create.
  destruct (_ && _ && _ && _)%bool eqn:OK; [|discriminate].
  intros [= <-]. simpl.
  apply andb_prop in OK. destruct OK as (OK & H4).
  apply andb_prop in OK. destruct OK as (OK & H3).
  apply andb_prop in OK. destruct OK as (H1 & H2).
  apply Nat.leb_le in H1, H2. apply Z.leb_le in H3, H4.
  repeat split; assumption.
Qed.

(** X19.  For a request that passed the validation of [QuestionRequest],
    the deployed [ask_question] returns a response whose reported
    variants, if any, are at most [num_variants], hence at most five. *)
Theorem ask_question_variant_bound (exn_str : exn -> string) (w : World)
    (question : string) (gv : option bool) (nv : option Z)
    (request : QuestionRequest.t) (t : trace) :
  QuestionRequest.create question gv nv = inr request ->
  exists r t',
    Routes.ask_question exn_str w (QA.qa_service w) request t = (inr r, t') /\
    forall variants,
      QuestionResponse.generated_variants r = Some variants ->
      Z.of_nat (List.length variants) <= QuestionRequest.num_variants request
      /\ QuestionRequest.num_variants request <= 5.
Proof.
  intros VALID. apply question_request_valid in VALID.
  destruct VALID as (_ & _ & NV).
  unfold Routes.ask_question. rewrite answer_question_run.
  destruct (QA.answer_body w (QA.qa_service w)
              (QuestionRequest.question request)
              (QuestionRequest.generate_variants request)
              (QuestionRequest.num_variants request) (time_time w t)
              (t ++ [ev_time])) as [[e|r] t1] eqn:BODY.
  { eexists. eexists. split; [reflexivity|]. discriminate. }
  exists r, t1. split; [reflexivity|].
  apply answer_body_inv in BODY.
  destruct BODY as [(ms & ->)|(variants & t2 & matches & embeddings & t3
                               & VARIANTS & _ & DECIDE)];
    [discriminate|].
  apply decide_inv in DECIDE. destruct DECIDE as (_ & _ & _ & _ & GV & _).
  intros vs. rewrite GV.
  destruct (QuestionRequest.generate_variants request); [|discriminate].
  intros [= <-]. cbn [QA.qa_service QA.variant_service] in VARIANTS.
  apply generate_variants_result in VARIANTS.
  destruct VARIANTS as [->|(raw & ->)]; [simpl; lia|].
  destruct (clean_variants_spec raw
              (Z.max 1 (Z.min (QuestionRequest.num_variants request) 10)))
    as (_ & _ & _ & LEN).
  lia.
Qed.

(** A request for two variants on an ordinary day. *)
Lemma ask_question_variant_bound_witness :
  exists r t',
    Routes.ask_question (fun _ => "") Scenario.it_world
      (QA.qa_service Scenario.it_world)
      (QuestionRequest.mk Scenario.question true 2) [] = (inr r, t') /\
    forall variants,
      QuestionResponse.generated_variants r = Some variants ->
      Z.of_nat (List.length variants) <= 2 /\ 2 <= 5.
Proof.
  apply (ask_question_variant_bound (fun _ => "") Scenario.it_world
           Scenario.question (Some true) (Some 2)
           (QuestionRequest.mk Scenario.question true 2) []).
  reflexivity.
Defined.

(* ------------------------------------------------------------------ *)
(** ** [core/database.py] *)

Ltac unfold_manager :=
  unfold Database.execute_query, Database.execute_update,
    Database.batch_insert, Database.execute_query_with_batch,
    Database.get_cursor, Database.get_connection, Database.initialize_pool,
    Database.close_pool, St.bind, St.try_finally, St.try_except, St.ret,
    St.raise, Database.call.

(** The courses of [execute_query]. *)
Lemma execute_query_courses (d : Database.Driver) (query : string)
    (params : Sql.params) (self : Database.DatabaseManager) :
  Database._pool self = true ->
  exists evs,
    Database.log (snd (Database.execute_query d query params self))
    = Database.log self ++ evs /\
    Database._pool (snd (Database.execute_query d query params self))
    = true /\
    In evs
      [[Database.ev_getconn];
       [Database.ev_getconn; Database.ev_cursor; Database.ev_putconn];
       [Database.ev_getconn; Database.ev_cursor;
        Database.ev_execute query params; Database.ev_rollback;
        Database.ev_cursor_close; Database.ev_putconn];
       [Database.ev_getconn; Database.ev_cursor;
        Database.ev_execute query params; Database.ev_fetchall;
        Database.ev_rollback; Database.ev_cursor_close;
        Database.ev_putconn];
       [Database.ev_getconn; Database.ev_cursor;
        Database.ev_execute query params; Database.ev_fetchall;
        Database.ev_cursor_close; Database.ev_putconn]] /\
    (Database.pool_getconn d (Database.log self) = inr tt ->
     exists between,
       evs = Database.ev_getconn :: between ++ [Database.ev_putconn]) /\
    (forall rows,
       fst (Database.execute_query d query params self) = inr rows ->
       evs = [Database.ev_getconn; Database.ev_cursor;
              Database.ev_execute query params; Database.ev_fetchall;
              Database.ev_cursor_close; Database.ev_putconn] /\
       Database.cursor_fetchall d
         (Database.log self ++
          [Database.ev_getconn; Database.ev_cursor;
           Database.ev_execute query params]) = inr rows).
Proof.
  intros POOL. unfold_manager. rewrite POOL. cbn.
  destruct (Database.pool_getconn d (Database.log self)) as [e|[]] eqn:GET;
    cbn.
  { exists [Database.ev_getconn]. cbn. rewrite POOL.
    repeat split; [now left | discriminate | discriminate | discriminate]. }
  rewrite <- !app_assoc. cbn [app].
  destruct (Database.conn_cursor d (Database.log self ++ [Database.ev_getconn]))
    as [e|[]] eqn:CUR; cbn; rewrite <- ?app_assoc; cbn [app].
  { destruct (Database.pool_putconn d _);
      (eexists; cbn; rewrite <- ?app_assoc; cbn [app];
       split; [reflexivity|]; split; [exact POOL|];
       split; [right; now left|];
       split; [intros _; now exists [Database.ev_cursor] | discriminate]). }
  destruct (Database.cursor_execute d
              (Database.log self ++ [Database.ev_getconn; Database.ev_cursor])
              query params) as [e|[]] eqn:EXE; cbn;
    rewrite <- ?app_assoc; cbn [app].
  { destruct (Database.conn_rollback d _); cbn;
      rewrite <- ?app_assoc; cbn [app];
      destruct (Database.cursor_close d _); cbn;
      rewrite <- ?app_assoc; cbn [app];
      destruct (Database.pool_putconn d _); cbn;
      (eexists; split; [reflexivity|]; split; [exact POOL|];
       split; [right; right; now left|];
       split; [intros _;
              now exists [Database.ev_cursor; Database.ev_execute query params;
                          Database.ev_rollback; Database.ev_cursor_close] | discriminate]). }
  destruct (Database.cursor_fetchall d
              (Database.log self ++
               [Database.ev_getconn; Database.ev_cursor;
                Database.ev_execute query params])) as [e|rows] eqn:FETCH;
    cbn; rewrite <- ?app_assoc; cbn [app].
  { destruct (Database.conn_rollback d _); cbn;
      rewrite <- ?app_assoc; cbn [app];
      destruct (Database.cursor_close d _); cbn;
      rewrite <- ?app_assoc; cbn [app];
      destruct (Database.pool_putconn d _); cbn;
      (eexists; split; [reflexivity|]; split; [exact POOL|];
       split; [right; right; right; now left|];
       split; [intros _;
              now exists [Database.ev_cursor; Database.ev_execute query params;
                          Database.ev_fetchall; Database.ev_rollback;
                          Database.ev_cursor_close] | discriminate]). }
  destruct (Database.cursor_close d _); cbn;
    rewrite <- ?app_assoc; cbn [app];
    destruct (Database.pool_putconn d _); cbn;
    (eexists; split; [reflexivity|]; split; [exact POOL|];
     split; [right; right; right; right; now left|];
     split; [intros _;
            now exists [Database.ev_cursor; Database.ev_execute query params;
                        Database.ev_fetchall; Database.ev_cursor_close]|]);
    try discriminate.
  intros rows' [= <-]. now split.
Qed.

(** X20.  [execute_query] on a manager whose pool is set.  The calls it
    makes follow one of five courses; it never commits; when a statement
    or the fetch raises it rolls back; a cursor it opened is closed and a
    connection it obtained goes back to the pool, last of all, whatever
    happened in between.  It returns rows only on the course without
    failure, and they are the rows the fetch returned. *)
Theorem execute_query_protocol (d : Database.Driver) (query : string)
    (params : Sql.params) (self : Database.DatabaseManager) :
  Database._pool self = true ->
  exists evs,
    Database.log (snd (Database.execute_query d query params self))
    = Database.log self ++ evs /\
    Database._pool (snd (Database.execute_query d query params self))
    = true /\
    In evs
      [[Database.ev_getconn];
       [Database.ev_getconn; Database.ev_cursor; Database.ev_putconn];
       [Database.ev_getconn; Database.ev_cursor;
        Database.ev_execute query params; Database.ev_rollback;
        Database.ev_cursor_close; Database.ev_putconn];
       [Database.ev_getconn; Database.ev_cursor;
        Database.ev_execute query params; Database.ev_fetchall;
        Database.ev_rollback; Database.ev_cursor_close;
        Database.ev_putconn];
       [Database.ev_getconn; Database.ev_cursor;
        Database.ev_execute query params; Database.ev_fetchall;
        Database.ev_cursor_close; Database.ev_putconn]] /\
    (Database.pool_getconn d (Database.log self) = inr tt ->
     exists between,
       evs = Database.ev_getconn :: between ++ [Database.ev_putconn]) /\
    (forall rows,
       fst (Database.execute_query d query params self) = inr rows ->
       evs = [Database.ev_getconn; Database.ev_cursor;
              Database.ev_execute query params; Database.ev_fetchall;
              Database.ev_cursor_close; Database.ev_putconn] /\
       Database.cursor_fetchall d
         (Database.log self ++
          [Database.ev_getconn; Database.ev_cursor;
           Database.ev_execute query params]) = inr rows).
Proof.
  intros POOL.
  destruct (execute_query_courses d query params self POOL)
    as (evs & LOG & SET & COURSE & RETURNED & ROWS).
  exists evs. split; [exact LOG|]. split; [exact SET|].
  split; [exact COURSE|]. split; [exact RETURNED | exact ROWS].
Qed.

(** A query that the server rejects: rolled back, cursor closed,
    connection returned. *)
Lemma execute_query_protocol_witness :
  exists evs,
    Database.log
      (snd (Database.execute_query
              (DbScenario.driver DbScenario.ok DbScenario.ok Scenario.down
                 DbScenario.ok DbScenario.ok DbScenario.ok DbScenario.ok
                 (inr []))
              "SELECT 1" None DbScenario.ready))
    = [] ++ evs /\
    evs = [Database.ev_getconn; Database.ev_cursor;
           Database.ev_execute "SELECT 1" None; Database.ev_rollback;
           Database.ev_cursor_close; Database.ev_putconn].
Proof.
  destruct (execute_query_protocol
              (DbScenario.driver DbScenario.ok DbScenario.ok Scenario.down
                 DbScenario.ok DbScenario.ok DbScenario.ok DbScenario.ok
                 (inr []))
              "SELECT 1" None DbScenario.ready eq_refl)
    as (evs & LOG & _).
  exists evs. split; [exact LOG|].
  cbn in LOG. now rewrite <- LOG.
Defined.

(** X21.  [get_cursor], for any body, on a manager whose pool is set and
    whose pool and connection hand out a connection and a cursor.  After
    the body: a commit if and only if the body returned and a commit was
    asked for; a rollback if and only if the body raised or the commit
    raised; then the cursor is closed and the connection returned, in this
    order, on every course.  A value comes back only if the body returned
    it and the commit, if any, succeeded. *)
Theorem get_cursor_protocol {A : Type} (d : Database.Driver) (commit : bool)
    (body : Database.M A) (self : Database.DatabaseManager)
    (r : result A) (after : Database.DatabaseManager) :
  Database._pool self = true ->
  Database.pool_getconn d (Database.log self) = inr tt ->
  Database.conn_cursor d (Database.log self ++ [Database.ev_getconn])
  = inr tt ->
  body {| Database._pool := Database._pool self;
          Database.log := Database.log self ++
                          [Database.ev_getconn; Database.ev_cursor] |}
  = (r, after) ->
  exists outcome,
    Database.get_cursor d commit body self
    = (outcome,
       {| Database._pool := Database._pool after;
          Database.log :=
            Database.log after ++
            match r with
            | inl _ => [Database.ev_rollback]
            | inr _ =>
                if commit
                then match Database.conn_commit d (Database.log after) with
                     | inr _ => [Database.ev_commit]
                     | inl _ => [Database.ev_commit; Database.ev_rollback]
                     end
                else []
            end ++ [Database.ev_cursor_close; Database.ev_putconn] |}) /\
    (forall a,
       outcome = inr a ->
       r = inr a /\
       (commit = true ->
        Database.conn_commit d (Database.log after) = inr tt)).
Proof.
  intros POOL GET CUR BODY. unfold_manager. rewrite POOL. cbn.
  rewrite GET. cbn. rewrite CUR. cbn. rewrite <- !app_assoc. cbn [app].
  rewrite BODY.
  destruct r as [e|a]; cbn.
  - destruct (Database.conn_rollback d (Database.log after)); cbn;
      destruct (Database.cursor_close d _); cbn;
      destruct (Database.pool_putconn d _); cbn;
      rewrite <- ?app_assoc; cbn [app];
      (eexists; split; [reflexivity | discriminate]).
  - destruct commit; cbn.
    + destruct (Database.conn_commit d (Database.log after)) as [e|[]]; cbn.
      * destruct (Database.conn_rollback d _); cbn;
          destruct (Database.cursor_close d _); cbn;
          destruct (Database.pool_putconn d _); cbn;
          rewrite <- ?app_assoc; cbn [app];
          (eexists; split; [reflexivity | discriminate]).
      * destruct (Database.cursor_close d _); cbn;
          destruct (Database.pool_putconn d _); cbn;
          rewrite <- ?app_assoc; cbn [app];
          (eexists; split; [reflexivity|]); try discriminate.
        intros a' [= <-]. now split.
    + destruct (Database.cursor_close d _); cbn;
        destruct (Database.pool_putconn d _); cbn;
        rewrite <- ?app_assoc; cbn [app];
        (eexists; split; [reflexivity|]); try discriminate.
      intros a' [= <-]. split; [reflexivity | discriminate].
Qed.

(** An update whose commit fails: committed, rolled back, closed,
    returned; no count comes back. *)
Lemma get_cursor_protocol_witness :
  exists outcome,
    Database.execute_update
      (DbScenario.driver DbScenario.ok DbScenario.ok DbScenario.ok
         Scenario.down DbScenario.ok DbScenario.ok DbScenario.ok (inr []))
      "TRUNCATE TABLE faqs" None DbScenario.ready
    = (outcome,
       {| Database._pool := true;
          Database.log :=
            [Database.ev_getconn; Database.ev_cursor;
             Database.ev_execute "TRUNCATE TABLE faqs" None;
             Database.ev_commit; Database.ev_rollback;
             Database.ev_cursor_close; Database.ev_putconn] |}) /\
    forall count, outcome <> inr count.
Proof.
  destruct (get_cursor_protocol
              (DbScenario.driver DbScenario.ok DbScenario.ok DbScenario.ok
                 Scenario.down DbScenario.ok DbScenario.ok DbScenario.ok
                 (inr []))
              true
              (St.bind
                 (Database.call
                    (Database.ev_execute "TRUNCATE TABLE faqs" None)
                    (fun _ => DbScenario.ok))
                 (fun _ self => (inr 1, self)))
              DbScenario.ready (inr 1)
              {| Database._pool := true;
                 Database.log :=
                   [Database.ev_getconn; Database.ev_cursor;
                    Database.ev_execute "TRUNCATE TABLE faqs" None] |}
              eq_refl eq_refl eq_refl eq_refl) as (outcome & RUN & COMMITTED).
  exists outcome. split; [exact RUN|].
  intros count RETURNED. destruct (COMMITTED count RETURNED) as (_ & OK).
  specialize (OK eq_refl). discriminate.
Defined.

(** X22.  The pool is created lazily and once.  On a manager without a
    pool a query first creates one with one to five connections; when
    that fails the error is raised, nothing else is called and the manager
    still has no pool.  On a manager with a pool no pool is created.
    [close_pool] closes the connections but leaves the pool set, so that a
    later query asks the closed pool and does not create a new one. *)
Theorem pool_lifecycle (d : Database.Driver) (query : string)
    (params : Sql.params) (self : Database.DatabaseManager) :
  (Database._pool self = false ->
   forall e,
     Database.SimpleConnectionPool d (Database.log self) 1 5 = inl e ->
     Database.execute_query d query params self
     = (inl e,
        {| Database._pool := false;
           Database.log := Database.log self ++
                           [Database.ev_pool_create 1 5] |})) /\
  (Database._pool self = false ->
   Database.SimpleConnectionPool d (Database.log self) 1 5 = inr tt ->
   Database.execute_query d query params self
   = Database.execute_query d query params
       {| Database._pool := true;
          Database.log := Database.log self ++
                          [Database.ev_pool_create 1 5] |}) /\
  (Database._pool self = true ->
   Database.initialize_pool d 2 10 self = (inr tt, self) /\
   forall ev,
     In ev (Database.log (snd (Database.execute_query d query params self)))
     -> In ev (Database.log self) \/
        forall minconn maxconn, ev <> Database.ev_pool_create minconn maxconn)
  /\
  (Database._pool self = true ->
   exists closed,
     snd (Database.close_pool d self) = closed /\
     Database._pool closed = true /\
     Database.log closed = Database.log self ++ [Database.ev_closeall] /\
     exists evs,
       Database.log (snd (Database.execute_query d query params closed))
       = Database.log closed ++ Database.ev_getconn :: evs).
Proof.
  split; [|split; [|split]].
  - intros POOL e FAIL. unfold_manager. rewrite POOL. cbn.
    now rewrite FAIL.
  - intros POOL OK. unfold_manager. rewrite POOL. cbn. now rewrite OK.
  - intros POOL. split.
    { unfold Database.initialize_pool. now rewrite POOL. }
    destruct (execute_query_courses d query params self POOL)
      as (evs & -> & _ & SHAPE & _).
    intros ev I. apply in_app_or in I. destruct I as [I|I]; [now left|].
    right. intros minconn maxconn ->.
    repeat (destruct SHAPE as [<-|SHAPE];
            [cbn in I; intuition discriminate|]).
    destruct SHAPE.
  - intros POOL.
    exists (snd (Database.close_pool d self)). split; [reflexivity|].
    assert (CLOSED : snd (Database.close_pool d self)
                     = {| Database._pool := true;
                          Database.log := Database.log self ++
                                          [Database.ev_closeall] |}).
    { unfold Database.close_pool, Database.call. rewrite POOL. reflexivity. }
    rewrite CLOSED. split; [reflexivity|]. split; [reflexivity|].
    destruct (execute_query_courses d query params
                {| Database._pool := true;
                   Database.log := Database.log self ++
                                   [Database.ev_closeall] |} eq_refl)
      as (evs & LOG & _ & SHAPE & _).
    rewrite LOG. cbn [Database.log].
    repeat (destruct SHAPE as [<-|SHAPE]; [eexists; reflexivity|]).
    destruct SHAPE.
Qed.

(* ------------------------------------------------------------------ *)
(** ** [db_init/scripts/llm.py] and [db_init/scripts/seed_database.py] *)

Lemma st_bind_run {S A B : Type} (m : St.M S A) (k : A -> St.M S B) (s : S) :
  St.bind m k s
  = match m s with
    | (inl e, s') => (inl e, s')
    | (inr a, s') => k a s'
    end.
Proof. reflexivity. Qed.

Lemma st_try_except_run {S A : Type} (body : St.M S A)
    (h : exn -> St.M S A) (s : S) :
  St.try_except body h s
  = match body s with
    | (inl e, s') => h e s'
    | (inr a, s') => (inr a, s')
    end.
Proof. reflexivity. Qed.

Lemma seeding_clean_loop_pipeline (paraphrases : list string) :
  forall seen cleaned,
    Seeding.clean_loop paraphrases seen cleaned
    = cleaned ++
      first_by String.eqb Py.lower seen
        (filter (fun p => negb (String.eqb p ""))
           (map (fun p => Py.strip (Py.collapse_ws p)) paraphrases)).
Proof.
  induction paraphrases as [|p rest IH]; intros seen cleaned;
    cbn [Seeding.clean_loop map filter].
  - simpl. now rewrite app_nil_r.
  - destruct (String.eqb_spec (Py.strip (Py.collapse_ws p)) "");
      cbn [negb andb]; [apply IH|].
    cbn [first_by].
    fold (Variant.mem (Py.lower (Py.strip (Py.collapse_ws p))) seen).
    destruct (Variant.mem _ seen); cbn [negb]; [apply IH|].
    rewrite IH, <- app_assoc. reflexivity.
Qed.

Lemma truncate_firstn {A : Type} (l : list A) (n : Z) :
  0 <= n ->
  (if Z.of_nat (List.length l) >? n then Py.slice_to l n else l)
  = firstn (Z.to_nat n) l.
Proof.
  intros POS. destruct (Z.gtb_spec (Z.of_nat (List.length l)) n).
  - unfold Py.slice_to. now destruct (Z.leb_spec 0 n); [|lia].
  - symmetry. apply firstn_all2. lia.
Qed.

(** X23.  [generate_paraphrases] of the seeding script.  On an empty or
    blank text it returns the empty list without calling the model.
    Otherwise it calls the model once, with [n] clamped to 1..10; an error
    of the call is raised to the caller; an answer never makes it raise:
    the result is the first [n] of the distinct non-empty candidates,
    white space collapsed and trimmed, repetitions up to case dropped.
    Unlike the parser of the service, this one takes the candidates from a
    bare JSON array as well. *)
Theorem generate_paraphrases_characterised (s : Seeding.Services)
    (text : string) (n : Z) (temperature : option Q) (seed : option Z)
    (max_tokens : option Z) (t : list Seeding.seed_event) :
  let blank := (String.eqb text "" || String.eqb (Py.strip text) "")%bool in
  let n' := Z.max 1 (Z.min n 10) in
  let temperature' := match temperature with None => 7 # 10 | Some x => x end in
  let max_tokens' := match max_tokens with None => 300 | Some m => m end in
  let ev := Seeding.ev_chat text n' temperature' max_tokens' seed in
  (blank = true ->
   Seeding.generate_paraphrases s text n temperature seed max_tokens t
   = (inr [], t)) /\
  (blank = false ->
   forall e,
     Seeding.chat_completions_create s t text n' temperature' max_tokens' seed
     = inl e ->
     Seeding.generate_paraphrases s text n temperature seed max_tokens t
     = (inl e, t ++ [ev])) /\
  (blank = false ->
   forall resp,
     Seeding.chat_completions_create s t text n' temperature' max_tokens' seed
     = inr resp ->
     Seeding.generate_paraphrases s text n temperature seed max_tokens t
     = (inr (firstn (Z.to_nat n')
               (first_by String.eqb Py.lower []
                  (filter (fun p => negb (String.eqb p ""))
                     (map (fun p => Py.strip (Py.collapse_ws p))
                        (Seeding.extract
                           (match resp with
                            | [] => Some "[]"
                            | content :: _ => content
                            end)))))),
        t ++ [ev])) /\
  (forall raw items,
     Json.loads raw = inr (Json.Arr items) ->
     Seeding.extract (Some raw) = map Json.str items).
Proof.
  intros blank n' temperature' max_tokens' ev.
  unfold Seeding.generate_paraphrases. fold blank.
  split; [|split; [|split]].
  - intros ->. reflexivity.
  - intros -> e FAIL. rewrite st_bind_run. unfold Seeding.call.
    fold n' temperature' max_tokens'. now rewrite FAIL.
  - intros -> resp OK. rewrite st_bind_run. unfold Seeding.call.
    fold n' temperature' max_tokens'. rewrite OK. unfold St.ret.
    rewrite truncate_firstn by (subst n'; lia).
    now rewrite seeding_clean_loop_pipeline.
  - intros raw items LOADS. unfold Seeding.extract. now rewrite LOADS.
Qed.

(** The bare array that the service drops is read here. *)
Example generate_paraphrases_bare_array :
  Seeding.generate_paraphrases
    (Seeding.constant (inr [Some Scenario.bare_array])
       (inr Scenario.unit_vector) (inr 2))
    Scenario.question 3 None None None []
  = (inr ["How to reset it?"; "Where do I change it?"],
     [Seeding.ev_chat Scenario.question 3 (7 # 10) 300 None]).
Proof. vm_compute. reflexivity. Qed.

Lemma prepare_faq_data_run (s : Seeding.Services)
    (faqs : list (string * string)) :
  forall values t,
    match Seeding.prepare_faq_data s faqs values t with
    | (inr out, t') =>
        t' = t ++ map (fun faq => Seeding.ev_embedding (fst faq)) faqs /\
        map fst out = map fst values ++ faqs
    | (inl e, t') =>
        exists n,
          (n < List.length faqs)%nat /\
          t' = t ++ map (fun faq => Seeding.ev_embedding (fst faq))
                      (firstn (S n) faqs)
    end.
Proof.
  induction faqs as [|(question & answer) rest IH]; intros values t.
  - cbn. rewrite !app_nil_r. now split.
  - cbn [Seeding.prepare_faq_data]. rewrite st_bind_run.
    unfold Seeding.generate_embedding, Seeding.call.
    destruct (Seeding.embeddings_create s t question) as [e|embedding].
    + exists 0%nat. cbn. split; [lia | reflexivity].
    + specialize (IH (values ++
                      [(question, answer,
                        Retrieval.embedding_to_vector embedding)])
                     (t ++ [Seeding.ev_embedding question])).
      destruct (Seeding.prepare_faq_data s rest _ _) as [[e|out] t'].
      * destruct IH as (n & LT & ->). exists (S n). split; [cbn; lia|].
        rewrite <- app_assoc. reflexivity.
      * destruct IH as (-> & OUT). split.
        -- rewrite <- app_assoc. reflexivity.
        -- rewrite OUT, map_app, <- app_assoc. reflexivity.
Qed.

(** X24.  [prepare_faq_data] is all or nothing.  It embeds the questions
    in order; the first failure is raised and later entries are not
    embedded; when every embedding succeeds it returns one row per entry,
    in order, with the question and the answer of the entry. *)
Theorem prepare_faq_data_all_or_nothing (s : Seeding.Services)
    (faqs : list (string * string)) (t : list Seeding.seed_event) :
  match Seeding.prepare_faq_data s faqs [] t with
  | (inr values, t') =>
      t' = t ++ map (fun faq => Seeding.ev_embedding (fst faq)) faqs /\
      map fst values = faqs
  | (inl e, t') =>
      exists n,
        (n < List.length faqs)%nat /\
        t' = t ++ map (fun faq => Seeding.ev_embedding (fst faq))
                    (firstn (S n) faqs)
  end.
Proof.
  pose proof (prepare_faq_data_run s faqs [] t) as RUN.
  destruct (Seeding.prepare_faq_data s faqs [] t) as [[e|values] t'].
  - exact RUN.
  - destruct RUN as (T & V). split; [exact T | exact V].
Qed.

Lemma generate_paraphrases_events (s : Seeding.Services) (text : string)
    (t : list Seeding.seed_event) :
  exists r,
    Seeding.generate_paraphrases s text 3 (Some (7 # 10)) None None t
    = (r, t ++ (if (String.eqb text "" || String.eqb (Py.strip text) "")%bool
                then []
                else [Seeding.ev_chat text 3 (7 # 10) 300 None])).
Proof.
  unfold Seeding.generate_paraphrases.
  destruct (String.eqb text "" || String.eqb (Py.strip text) "")%bool.
  - exists (inr []). unfold St.ret. now rewrite app_nil_r.
  - rewrite st_bind_run. unfold Seeding.call. cbn.
    destruct (Seeding.chat_completions_create s t text 3 (7 # 10) 300 None);
      eexists; reflexivity.
Qed.

Lemma embed_variants_run (s : Seeding.Services) (faq_id : Z)
    (variants : list string) :
  forall variant_values t,
  exists out,
    Seeding.embed_variants s faq_id variants variant_values t
    = (inr out, t ++ map Seeding.ev_embedding variants).
Proof.
  induction variants as [|v rest IH]; intros variant_values t.
  - exists variant_values. cbn. unfold St.ret. now rewrite app_nil_r.
  - cbn [Seeding.embed_variants]. rewrite st_bind_run, st_try_except_run,
      st_bind_run.
    unfold Seeding.generate_embedding, Seeding.call.
    destruct (Seeding.embeddings_create s t v) as [e|embedding];
      unfold St.ret;
      match goal with
      | |- exists out, Seeding.embed_variants _ _ _ ?acc ?t1 = _ =>
          destruct (IH acc t1) as (out & ->)
      end;
      exists out; cbn; now rewrite <- app_assoc.
Qed.

Lemma filter_chat_embeddings (texts : list string) :
  filter is_chat (map Seeding.ev_embedding texts) = [].
Proof. induction texts; simpl; [reflexivity | assumption]. Qed.

Lemma proper_embeddings (texts : list string) :
  Forall proper_insert (map Seeding.ev_embedding texts).
Proof. apply Forall_map, Forall_forall. intros x _. exact I. Qed.

Lemma process_record_run (s : Seeding.Services) (faq_record : Z * string)
    (total : Z) (t : list Seeding.seed_event) :
  exists total' evs,
    Seeding.process_record s faq_record total t = (inr total', t ++ evs) /\
    filter is_chat evs
    = (if has_text faq_record
       then [Seeding.ev_chat (snd faq_record) 3 (7 # 10) 300 None]
       else []) /\
    Forall proper_insert evs.
Proof.
  destruct faq_record as (faq_id & question).
  unfold Seeding.process_record, has_text. cbn [snd].
  rewrite st_try_except_run, st_bind_run.
  destruct (generate_paraphrases_events s question t) as (r & ->).
  set (chat := if (String.eqb question "" ||
                   String.eqb (Py.strip question) "")%bool
               then []
               else [Seeding.ev_chat question 3 (7 # 10) 300 None]).
  assert (CHAT : filter is_chat chat
                 = (if negb (String.eqb question "" ||
                             String.eqb (Py.strip question) "")%bool
                    then [Seeding.ev_chat question 3 (7 # 10) 300 None]
                    else [])
                 /\ Forall proper_insert chat).
  { subst chat.
    destruct (String.eqb question "" || String.eqb (Py.strip question) "")%bool;
      cbn; split; repeat constructor. }
  destruct CHAT as (FILTER & PROPER).
  destruct r as [e|[|v variants]].
  - exists total, chat. unfold St.ret. now repeat split.
  - exists total, chat. unfold St.ret. now repeat split.
  - rewrite st_bind_run.
    destruct (embed_variants_run s faq_id (v :: variants) [] (t ++ chat))
      as (out & ->).
    destruct out as [|row rows].
    + exists total, (chat ++ map Seeding.ev_embedding (v :: variants)).
      unfold St.ret. rewrite app_assoc. split; [reflexivity|]. split.
      * now rewrite filter_app, filter_chat_embeddings, app_nil_r.
      * apply Forall_app. split; [exact PROPER | apply proper_embeddings].
    + rewrite st_bind_run.
      unfold Seeding._insert_variants_batch, Seeding.call.
      assert (EVS : filter is_chat
                      (chat ++ map Seeding.ev_embedding (v :: variants) ++
                       [Seeding.ev_insert_variants (row :: rows)])
                    = (if negb (String.eqb question "" ||
                                String.eqb (Py.strip question) "")%bool
                       then [Seeding.ev_chat question 3 (7 # 10) 300 None]
                       else [])
                    /\ Forall proper_insert
                         (chat ++ map Seeding.ev_embedding (v :: variants) ++
                          [Seeding.ev_insert_variants (row :: rows)])).
      { split.
        - rewrite !filter_app, filter_chat_embeddings. cbn.
          now rewrite app_nil_r.
        - apply Forall_app. split; [exact PROPER|]. apply Forall_app.
          split; [apply proper_embeddings|]. constructor; [|constructor].
          cbn. discriminate. }
      destruct EVS as (F & P).
      destruct (Seeding.batch_insert s _ (row :: rows)) as [e|count];
        unfold St.ret;
        eexists; exists (chat ++ map Seeding.ev_embedding (v :: variants) ++
                         [Seeding.ev_insert_variants (row :: rows)]);
        (split; [now rewrite <- !app_assoc | now split]).
Qed.

Lemma insert_variants_loop_run (s : Seeding.Services)
    (faq_records : list (Z * string)) :
  forall total t,
  exists total' evs,
    Seeding.insert_variants_loop s faq_records total t
    = (inr total', t ++ evs) /\
    filter is_chat evs
    = map (fun r => Seeding.ev_chat (snd r) 3 (7 # 10) 300 None)
        (filter has_text faq_records) /\
    Forall proper_insert evs.
Proof.
  induction faq_records as [|record rest IH]; intros total t.
  - exists total, []. cbn. unfold St.ret. rewrite app_nil_r.
    repeat split. constructor.
  - cbn [Seeding.insert_variants_loop]. rewrite st_bind_run.
    destruct (process_record_run s record total t)
      as (total1 & evs1 & -> & F1 & P1).
    destruct (IH total1 (t ++ evs1)) as (total2 & evs2 & -> & F2 & P2).
    exists total2, (evs1 ++ evs2). split; [now rewrite app_assoc|]. split.
    + rewrite filter_app, F1, F2. cbn [filter].
      destruct (has_text record); reflexivity.
    + apply Forall_app. now split.
Qed.

(** X25.  [generate_and_insert_variants] never raises: a failure of the
    model, of an embedding or of an insertion costs the variants of one
    entry at most and the loop goes on.  The model is asked once for every
    entry whose question is not blank, in order, for three paraphrases;
    and no insertion is sent with an empty batch. *)
Theorem generate_and_insert_variants_total (s : Seeding.Services)
    (faq_records : list (Z * string)) (t : list Seeding.seed_event) :
  exists total evs,
    Seeding.generate_and_insert_variants s faq_records t
    = (inr total, t ++ evs) /\
    filter is_chat evs
    = map (fun r => Seeding.ev_chat (snd r) 3 (7 # 10) 300 None)
        (filter has_text faq_records) /\
    Forall proper_insert evs.
Proof.
  unfold Seeding.generate_and_insert_variants.
  destruct (insert_variants_loop_run s faq_records 0 t)
    as (total & evs & RUN & CHAT & PROPER).
  exists total, evs. split; [exact RUN|]. split; [exact CHAT | exact PROPER].
Qed.

(** The model is down: every entry is tried, nothing is inserted. *)
Example generate_and_insert_variants_model_down :
  Seeding.generate_and_insert_variants
    (Seeding.constant Scenario.down (inr Scenario.unit_vector) (inr 2))
    [(1, "How?"); (2, " "); (3, "Why?")] []
  = (inr 0,
     [Seeding.ev_chat "How?" 3 (7 # 10) 300 None;
      Seeding.ev_chat "Why?" 3 (7 # 10) 300 None]).
Proof. vm_compute. reflexivity. Qed.

(* ------------------------------------------------------------------ *)
(** ** [core/config.py] and the start of [main.py] *)

Lemma config_valid_iff (config : Config.t) :
  fst (Config.validate config) = true <->
  Config.truthy (Config.password (Config.database config)) = true /\
  Config.truthy (Config.api_key (Config.openai config)) = true.
Proof.
  unfold Config.validate, Config.openai_validate.
  destruct (Config.truthy (Config.password (Config.database config)));
    destruct (Config.truthy (Config.api_key (Config.openai config)));
    cbn; split; try tauto; try discriminate; intros (A & B); discriminate.
Qed.

Lemma step_run {A : Type} (ev : Main.event)
    (oracle : list Main.event -> result A)
    (k : A -> list Main.event -> (Main.failure + unit) * list Main.event)
    (t : list Main.event) :
  Main.step ev oracle k t
  = match oracle t with
    | inl e => (inl (Main.Raised e), t ++ [ev])
    | inr a => k a (t ++ [ev])
    end.
Proof. reflexivity. Qed.

(** X26.  The start of the application.  The configuration is valid exactly
    when the database password and the API key are set and not empty; an
    invalid one stops the start with [RuntimeError] before the database is
    touched.  A missing table stops it with the error that names
    [initialize.py], and the tables are not counted.  The start succeeds
    exactly on one course: the pool was set up with two to ten
    connections, both tables were found and both counts were read, in this
    order.  The counts themselves play no part: with any counts, zero
    included, the start succeeds. *)
Theorem startup_contract (config : Config.t) (db_manager : Main.Manager)
    (t : list Main.event) :
  (fst (Config.validate config) = true <->
   Config.truthy (Config.password (Config.database config)) = true /\
   Config.truthy (Config.api_key (Config.openai config)) = true) /\
  (fst (Config.validate config) = false ->
   Main.startup config db_manager t
   = (inl (Main.RuntimeError "Invalid configuration"), t)) /\
  (fst (Config.validate config) = true ->
   Main.initialize_pool db_manager t 2 10 = inr tt ->
   (Main.table_exists db_manager (t ++ [Main.ev_initialize_pool 2 10]) "faqs"
    = inr false ->
    Main.startup config db_manager t
    = (inl (Main.RuntimeError Main.not_initialized),
       t ++ [Main.ev_initialize_pool 2 10; Main.ev_table_exists "faqs"])) /\
   (Main.table_exists db_manager (t ++ [Main.ev_initialize_pool 2 10]) "faqs"
    = inr true ->
    Main.table_exists db_manager
      (t ++ [Main.ev_initialize_pool 2 10; Main.ev_table_exists "faqs"])
      "faq_variants" = inr false ->
    Main.startup config db_manager t
    = (inl (Main.RuntimeError Main.not_initialized),
       t ++ [Main.ev_initialize_pool 2 10; Main.ev_table_exists "faqs";
             Main.ev_table_exists "faq_variants"]))) /\
  (forall t',
     Main.startup config db_manager t = (inr tt, t') ->
     fst (Config.validate config) = true /\
     t' = t ++ [Main.ev_initialize_pool 2 10; Main.ev_table_exists "faqs";
                Main.ev_table_exists "faq_variants";
                Main.ev_get_table_count "faqs";
                Main.ev_get_table_count "faq_variants"] /\
     Main.table_exists db_manager (t ++ [Main.ev_initialize_pool 2 10]) "faqs"
     = inr true /\
     Main.table_exists db_manager
       (t ++ [Main.ev_initialize_pool 2 10; Main.ev_table_exists "faqs"])
       "faq_variants" = inr true) /\
  (forall faq_count variant_count,
     fst (Config.validate config) = true ->
     Main.initialize_pool db_manager t 2 10 = inr tt ->
     Main.table_exists db_manager (t ++ [Main.ev_initialize_pool 2 10]) "faqs"
     = inr true ->
     Main.table_exists db_manager
       (t ++ [Main.ev_initialize_pool 2 10; Main.ev_table_exists "faqs"])
       "faq_variants" = inr true ->
     Main.get_table_count db_manager
       (t ++ [Main.ev_initialize_pool 2 10; Main.ev_table_exists "faqs";
              Main.ev_table_exists "faq_variants"]) "faqs"
     = inr faq_count ->
     Main.get_table_count db_manager
       (t ++ [Main.ev_initialize_pool 2 10; Main.ev_table_exists "faqs";
              Main.ev_table_exists "faq_variants";
              Main.ev_get_table_count "faqs"]) "faq_variants"
     = inr variant_count ->
     Main.startup config db_manager t
     = (inr tt,
        t ++ [Main.ev_initialize_pool 2 10; Main.ev_table_exists "faqs";
              Main.ev_table_exists "faq_variants";
              Main.ev_get_table_count "faqs";
              Main.ev_get_table_count "faq_variants"])).
Proof.
  split; [apply config_valid_iff|].
  unfold Main.startup.
  destruct (Config.validate config) as (valid & errors). cbn [fst].
  split; [|split; [|split]].
  - intros ->. reflexivity.
  - intros -> POOL. cbn [negb]. rewrite step_run. rewrite POOL. split.
    + intros MISSING. rewrite step_run. rewrite MISSING. cbn.
      now rewrite <- app_assoc.
    + intros FOUND MISSING. rewrite step_run. rewrite FOUND.
      cbn [negb]. rewrite step_run. rewrite <- app_assoc. cbn [app].
      rewrite MISSING. cbn. now rewrite <- app_assoc.
  - intros t'. destruct valid; cbn [negb]; [|discriminate].
    rewrite step_run.
    destruct (Main.initialize_pool db_manager t 2 10) as [e|[]];
      [discriminate|].
    rewrite step_run.
    destruct (Main.table_exists db_manager
                (t ++ [Main.ev_initialize_pool 2 10]) "faqs")
      as [e|[|]] eqn:FAQS; [discriminate| |discriminate].
    cbn [negb]. rewrite step_run. rewrite <- app_assoc. cbn [app].
    destruct (Main.table_exists db_manager _ "faq_variants")
      as [e|[|]] eqn:VARIANTS; [discriminate| |discriminate].
    cbn [negb]. rewrite step_run. rewrite <- app_assoc. cbn [app].
    destruct (Main.get_table_count db_manager _ "faqs") as [e|c1];
      [discriminate|].
    rewrite step_run, <- app_assoc. cbn [app].
    destruct (Main.get_table_count db_manager _ "faq_variants") as [e|c2];
      [discriminate|].
    rewrite <- app_assoc. cbn [app]. intros [= <-].
    repeat split; assumption.
  - intros faq_count variant_count -> POOL FAQS VARIANTS C1 C2.
    cbn [negb]. rewrite step_run, POOL, step_run, FAQS. cbn [negb].
    rewrite step_run, <- app_assoc. cbn [app]. rewrite VARIANTS.
    cbn [negb]. rewrite step_run, <- app_assoc. cbn [app]. rewrite C1.
    rewrite step_run, <- app_assoc. cbn [app]. rewrite C2.
    now rewrite <- app_assoc.
Qed.

(** Empty tables: the application starts. *)
Example startup_with_empty_tables :
  Main.startup (Main.secrets (Some "secret") (Some "sk-test"))
    (Main.constant (inr true) (inr true) (inr 0)) []
  = (inr tt,
     [Main.ev_initialize_pool 2 10; Main.ev_table_exists "faqs";
      Main.ev_table_exists "faq_variants"; Main.ev_get_table_count "faqs";
      Main.ev_get_table_count "faq_variants"]).
Proof. vm_compute. reflexivity. Qed.

(** An empty password is no password. *)
Example startup_with_empty_password :
  Main.startup (Main.secrets (Some "") (Some "sk-test"))
    (Main.constant (inr true) (inr true) (inr 0)) []
  = (inl (Main.RuntimeError "Invalid configuration"), []).
Proof. vm_compute. reflexivity. Qed.

(* ------------------------------------------------------------------ *)
(** ** The rows of a sub-search and the order of ties *)

Lemma append_rows_ok {R : Type} (conv : R -> result Match.t)
    (rows : list R) :
  forall acc matches,
    map conv rows = map inr matches ->
    Retrieval.append_rows conv rows acc = inr (acc ++ matches).
Proof.
  induction rows as [|row rows IH]; intros acc matches E;
    destruct matches as [|m matches]; try discriminate; simpl.
  - now rewrite app_nil_r.
  - simpl in E. injection E as -> E. rewrite (IH _ _ E).
    now rewrite <- app_assoc.
Qed.

Lemma append_rows_fail {R : Type} (conv : R -> result Match.t)
    (rows : list R) :
  forall acc,
    Exists (fun row => exists e, conv row = inl e) rows ->
    exists e, Retrieval.append_rows conv rows acc = inl e.
Proof.
  induction rows as [|row rows IH]; intros acc BAD; simpl.
  - inversion BAD.
  - destruct (conv row) as [e|m] eqn:C; [now exists e|].
    apply IH. inversion BAD as [? ? (e & E)|]; [congruence | assumption].
Qed.

(** X27.  The rows of a sub-search are converted all or none.  When every
    row of the answer of the store converts, the sub-search returns the
    converted rows in the order of the answer; when one row has no
    similarity (a stored entry without embedding), [float] raises on it
    and the sub-search returns the empty list, the rows before it
    included. *)
Theorem sub_search_rows (w : World) (embedding : vector) (top_k : Z)
    (t : trace) :
  (forall rows matches,
     query_faqs w t embedding top_k = inr rows ->
     map Retrieval.faq_match rows = map inr matches ->
     Retrieval._search_faqs_table w embedding top_k t
     = (inr matches, t ++ [ev_query_faqs embedding top_k])) /\
  (forall rows,
     query_faqs w t embedding top_k = inr rows ->
     Exists (fun row => snd row = None) rows ->
     Retrieval._search_faqs_table w embedding top_k t
     = (inr [], t ++ [ev_query_faqs embedding top_k])) /\
  (forall rows matches,
     query_variants w t embedding top_k = inr rows ->
     map Retrieval.variant_match rows = map inr matches ->
     Retrieval._search_variants_table w embedding top_k t
     = (inr matches, t ++ [ev_query_variants embedding top_k])) /\
  (forall rows,
     query_variants w t embedding top_k = inr rows ->
     Exists (fun row => snd row = None) rows ->
     Retrieval._search_variants_table w embedding top_k t
     = (inr [], t ++ [ev_query_variants embedding top_k])).
Proof.
  unfold Retrieval._search_faqs_table, Retrieval._search_variants_table.
  split; [|split; [|split]].
  - intros rows matches QUERY CONV.
    rewrite run_try_except, run_bind. unfold call, lift. rewrite QUERY.
    now rewrite (append_rows_ok _ _ [] matches CONV).
  - intros rows QUERY BAD.
    rewrite run_try_except, run_bind. unfold call, lift. rewrite QUERY.
    destruct (append_rows_fail Retrieval.faq_match rows []) as (e & ->);
      [|reflexivity].
    revert BAD. apply Exists_impl. intros (((id & q) & a) & sim). simpl.
    intros ->. eexists. reflexivity.
  - intros rows matches QUERY CONV.
    rewrite run_try_except, run_bind. unfold call, lift. rewrite QUERY.
    now rewrite (append_rows_ok _ _ [] matches CONV).
  - intros rows QUERY BAD.
    rewrite run_try_except, run_bind. unfold call, lift. rewrite QUERY.
    destruct (append_rows_fail Retrieval.variant_match rows []) as (e & ->);
      [|reflexivity].
    revert BAD. apply Exists_impl. intros ((((id & q) & a) & v) & sim). simpl.
    intros ->. eexists. reflexivity.
Qed.

(** One entry without embedding hides the other. *)
Example sub_search_with_null_similarity :
  Retrieval._search_faqs_table
    (Scenario.world (inr "IT") (inr Scenario.wrapped_array)
       (inr Scenario.unit_vector)
       (inr [Scenario.stored; (2, "Where is the cafeteria?",
                               "On the ground floor.", None)])
       (inr []) (inr "Use the security page."))
    Scenario.unit_vector 5 []
  = (inr [], [ev_query_faqs Scenario.unit_vector 5]).
Proof. vm_compute. reflexivity. Qed.

Lemma insert_desc_filter (s : Q) (x : Match.t) (l : list Match.t) :
  filter (fun m => Qeq_bool (Match.similarity m) s)
    (Retrieval.insert_desc x l)
  = filter (fun m => Qeq_bool (Match.similarity m) s) (x :: l).
Proof.
  induction l as [|y l IH]; [reflexivity|].
  cbn [Retrieval.insert_desc].
  destruct (Py.gt (Match.similarity y) (Match.similarity x)) eqn:GT;
    [|reflexivity].
  cbn [filter] in *. rewrite IH.
  destruct (Qeq_bool (Match.similarity x) s) eqn:EX; [|reflexivity].
  destruct (Qeq_bool (Match.similarity y) s) eqn:EY; [|reflexivity].
  exfalso. apply gt_true in GT. apply Qeq_bool_iff in EX, EY.
  rewrite EX, EY in GT. exact (Qlt_irrefl _ GT).
Qed.

(** X28.  The descending sort of [search_similar_faqs] is stable: the
    candidates of any one similarity come out in the order they went in,
    which after deduplication is the order of the first occurrence of
    their ids. *)
Theorem sort_desc_stable (l : list Match.t) (s : Q) :
  filter (fun m => Qeq_bool (Match.similarity m) s) (Retrieval.sort_desc l)
  = filter (fun m => Qeq_bool (Match.similarity m) s) l.
Proof.
  induction l as [|x l IH]; [reflexivity|].
  cbn [Retrieval.sort_desc]. rewrite insert_desc_filter.
  cbn [filter]. now rewrite IH.
Qed.

(** Two entries at the same similarity: the one found first stays first. *)
Example search_similar_faqs_tie :
  Retrieval.sort_desc
    (Retrieval._deduplicate_matches
       [Match.mk 2 "B" "b" (1 # 2) "faq" None;
        Match.mk 1 "A" "a" (9 # 10) "faq" None;
        Match.mk 3 "C" "c" (2 # 4) "variant" (Some "c")])
  = [Match.mk 1 "A" "a" (9 # 10) "faq" None;
     Match.mk 2 "B" "b" (1 # 2) "faq" None;
     Match.mk 3 "C" "c" (2 # 4) "variant" (Some "c")].
Proof. vm_compute. reflexivity. Qed.

(* ------------------------------------------------------------------ *)
(** ** Normal forms that meet again *)

(** C5, as worded.  The model answers with a paraphrase in quotes that
    protect two blanks and with the same paraphrase bare.  Both come back:
    the loop compares them as it stores them, and stored they differ; put
    through the normal form once more they are the same up to case. *)
Lemma generate_variants_same_normal_form :
  Variant.generate_variants quoted_twice_world Scenario.question 3 (7 # 10) []
  = (inr [" How? "; "How?"],
     [ev_variant_chain Scenario.question 3 (7 # 10)]) /\
  Py.lower (Variant.normalize " How? ")
  = Py.lower (Variant.normalize "How?").
Proof. split; vm_compute; reflexivity. Qed.

(* ------------------------------------------------------------------ *)
(** ** A candidate out of range *)

(** X29.  Let the classifier return a label other than general and let
    variant generation and the search return.  When one of the candidates
    has a similarity that is not between 0 and 1, the validation fails
    while the response is assembled and [answer_question] returns the
    error response, whatever the similarity of the best candidate and
    whatever the answer chains do. *)
Theorem out_of_range_gives_error_response (w : World)
    (self : QA.QuestionAnsweringService) (q : string) (gv : bool) (nv : Z)
    (t : trace) (category : string) (variants : list string) (t1 : trace)
    (matches : list Match.t) (embeddings : list vector) (t2 : trace) :
  llm_router_invoke w (t ++ [ev_time]) q = inr category ->
  Py.contains "general" (Py.lower category) = false ->
  (if gv then QA.variant_service self q nv (7 # 10) else ret [])
    (t ++ [ev_time; ev_router q]) = (inr variants, t1) ->
  QA.retrieval_service self q variants 5 t1
  = (inr (matches, embeddings), t2) ->
  Exists (fun m => in_unit_interval (Match.similarity m) = false) matches ->
  exists ms t',
    QA.answer_question w self q gv nv t = (inr (QA.error_response ms), t').
Proof.
  intros ROUTER OTHER VARIANTS SEARCH BAD.
  assert (TR : (t ++ [ev_time]) ++ [ev_router q]
               = t ++ [ev_time; ev_router q])
    by now rewrite <- app_assoc.
  rewrite <- TR in VARIANTS.
  rewrite answer_question_run.
  rewrite (answer_body_decides _ _ _ _ _ _ _ _ _ _ _ _ _
             ROUTER OTHER VARIANTS SEARCH).
  destruct (QA.decide w q gv variants matches (time_time w t) t2)
    as [[e|r] t3] eqn:DECIDE; [eexists; eexists; reflexivity|].
  exfalso. apply decide_inv in DECIDE. destruct DECIDE as (VALID & _).
  apply Exists_exists in BAD. destruct BAD as (m & I & OUT).
  rewrite Forall_forall in VALID. specialize (VALID m I).
  unfold valid_similarity in VALID. congruence.
Qed.

(** The deployed service on a store with an entry at 0.8 and one at
    -0.05. *)
Lemma out_of_range_gives_error_response_witness :
  exists ms t',
    QA.answer_question
      (Scenario.obtuse_world (8 # 10) (inr "Use the security page."))
      (QA.qa_service
         (Scenario.obtuse_world (8 # 10) (inr "Use the security page.")))
      Scenario.question false 3 []
    = (inr (QA.error_response ms), t').
Proof.
  apply (out_of_range_gives_error_response
           (Scenario.obtuse_world (8 # 10) (inr "Use the security page."))
           (QA.qa_service
              (Scenario.obtuse_world (8 # 10)
                 (inr "Use the security page.")))
           Scenario.question false 3 [] "IT" []
           [ev_time; ev_router Scenario.question]
           [Scenario.near_match (8 # 10); Scenario.far_match]
           [Scenario.unit_vector]
           [ev_time; ev_router Scenario.question;
            ev_embed Scenario.question;
            ev_query_faqs Scenario.unit_vector 5;
            ev_query_variants Scenario.unit_vector 5]);
    [reflexivity | reflexivity | reflexivity | reflexivity |].
  apply Exists_cons_tl, Exists_cons_hd. reflexivity.
Defined.

(* ------------------------------------------------------------------ *)
(** ** What is left when a sub-search fails *)







